(** * simple-frame-smartcrop: a shallow embedding of the crop server and
      of the box editor, with the properties its specification states.

    Source files embedded here:
    - [server/src/index.ts]: the two recognizer post-processing strategies
      ([detectPresto], [detectNurreBig]), the detection route and the
      multi-crop route;
    - [client/src/App.tsx]: the box store and the pointer / keyboard
      handlers of the editor.

    Numbers.  JavaScript numbers are modelled by exact rationals ([Q]):
    every operation the embedded code applies to them ([+], [-], [*], [/],
    [Math.max], [Math.min], [Math.abs], [Math.round], [Math.floor],
    comparisons) has its exact meaning, and rounding error of the binary
    representation is not modelled.  Values the code obtains as integers
    (image sizes, rounded pixel positions, counters) are [Z] or [N].

    External collaborators (the image library, the recognizer, the clock,
    the trigonometric functions) are fields of interface records; the
    embedded code is parametric in them. *)

From Stdlib Require Import ZArith QArith Qround Qminmax Qabs Lqa Lia.
From Stdlib Require Import List String Ascii Sorted.
From stdpp Require Import gmap strings pretty.
Import ListNotations.

#[local] Open Scope Q_scope.

(** ** JavaScript primitives used by the sources *)

Module JS.

(** [Math.round]: nearest integer, ties towards +infinity. *)
Definition Math_round (v : Q) : Z := Qfloor (v + (1 # 2)).

Definition Math_floor (v : Q) : Z := Qfloor v.

Definition Math_max (a b : Q) : Q := Qmax a b.
Definition Math_min (a b : Q) : Q := Qmin a b.
Definition Math_abs (a : Q) : Q := Qabs a.

(** [a < b], [a <= b], [a === b] on numbers, as booleans. *)
Definition ltb (a b : Q) : bool := negb (Qle_bool b a).
Definition leb (a b : Q) : bool := Qle_bool a b.
Definition eqb (a b : Q) : bool := Qeq_bool a b.

(** [a || b] on numbers: [0] is falsy. *)
Definition or_num (a b : Q) : Q := if Qeq_bool a 0 then b else a.
Definition or_int (a b : Z) : Z := if Z.eqb a 0 then b else a.

(** [a || b] on strings: the empty string is falsy. *)
Definition or_str (a b : string) : string :=
  match a with EmptyString => b | _ => a end.

(** [a ?? b]: only [undefined] / [null] fall through. *)
Definition nullish {A : Type} (a : option A) (b : A) : A :=
  match a with Some v => v | None => b end.

(** A truthy optional string (absent and empty are both falsy). *)
Definition truthy_str (a : option string) : option string :=
  match a with
  | Some EmptyString => None
  | other => other
  end.

Definition is_digit (c : ascii) : bool :=
  let n := nat_of_ascii c in (48 <=? n)%nat && (n <=? 57)%nat.
Definition is_upper (c : ascii) : bool :=
  let n := nat_of_ascii c in (65 <=? n)%nat && (n <=? 90)%nat.
Definition is_lower (c : ascii) : bool :=
  let n := nat_of_ascii c in (97 <=? n)%nat && (n <=? 122)%nat.
Definition is_alnum (c : ascii) : bool :=
  is_upper c || is_lower c || is_digit c.

Fixpoint filter_str (p : ascii -> bool) (s : string) : string :=
  match s with
  | EmptyString => EmptyString
  | String c r => if p c then String c (filter_str p r) else filter_str p r
  end.

Fixpoint forall_str (p : ascii -> bool) (s : string) : bool :=
  match s with
  | EmptyString => true
  | String c r => p c && forall_str p r
  end.

Fixpoint map_str (f : ascii -> ascii) (s : string) : string :=
  match s with
  | EmptyString => EmptyString
  | String c r => String (f c) (map_str f r)
  end.

Definition upper_char (c : ascii) : ascii :=
  if is_lower c then ascii_of_nat (nat_of_ascii c - 32) else c.

(** [s.toUpperCase()] on the ASCII letters. *)
Definition toUpperCase (s : string) : string := map_str upper_char s.

(** [Array.prototype.sort(cmp)]: a stable sort; [cmp a b < 0] puts [a]
    first, and elements that compare equal keep their order. *)
Fixpoint sort_insert {A : Type} (cmp : A -> A -> Q) (a : A) (l : list A)
  : list A :=
  match l with
  | [] => [a]
  | b :: r => if Qle_bool (cmp a b) 0 then a :: b :: r
              else b :: sort_insert cmp a r
  end.

Definition sort {A : Type} (cmp : A -> A -> Q) (l : list A) : list A :=
  fold_right (sort_insert cmp) [] l.

(** [arr[arr.length - 1]], [undefined] on the empty array. *)
Definition last_elt {A : Type} (l : list A) : option A :=
  l !! Nat.pred (length l).

(** [arr.slice(0, n)]. *)
Definition slice0 {A : Type} (n : nat) (l : list A) : list A := firstn n l.

(** *** Double-precision products

    A JS number is an IEEE 754 binary64 value.  Where the result of a
    product is rounded to an integer by [Math.round], the product is
    taken as the engine computes it: the exact product of the two doubles
    rounded to the nearest double, ties to the even significand.  [fl] is
    that rounding, for magnitudes in the normal range of binary64. *)

(** [n / d] rounded to the nearest integer, ties to the even one. *)
Definition round_half_even (n : Z) (d : positive) : Z :=
  let q := (n / Zpos d)%Z in
  let r := (n mod Zpos d)%Z in
  match (2 * r ?= Zpos d)%Z with
  | Lt => q
  | Gt => (q + 1)%Z
  | Eq => if Z.even q then q else (q + 1)%Z
  end.

(** [n / d / 2^e] as a fraction of integers. *)
Definition scaled (n d : positive) (e : Z) : Z * positive :=
  if (0 <=? e)%Z then (Zpos n, (d * Z.to_pos (2 ^ e))%positive)
  else ((Zpos n * 2 ^ (- e))%Z, d).

(** The double nearest to [n / d]: the exponent [e] is chosen so that
    [n / d / 2^e] lies in [2^52, 2^53), and the 53-bit significand is
    that quotient rounded to an integer. *)
Definition fl_pos (n d : positive) : Q :=
  let e0 := (Z.log2 (Zpos n) - Z.log2 (Zpos d) - 52)%Z in
  let '(n0, d0) := scaled n d e0 in
  let e := if (2 ^ 52 <=? n0 / Zpos d0)%Z then e0 else (e0 - 1)%Z in
  let '(n1, d1) := scaled n d e in
  inject_Z (round_half_even n1 d1) * Qpower 2 e.

Definition fl (q : Q) : Q :=
  match Qnum q with
  | Z0 => 0
  | Zpos n => fl_pos n (Qden q)
  | Zneg n => - fl_pos n (Qden q)
  end.

(** [a * b] on two doubles. *)
Definition fmul (a b : Q) : Q := fl (a * b).

(** Exceptions: a computation returns a value or throws. *)
Inductive Exn (A : Type) : Type :=
| Ok (a : A)
| Throw (msg : string).
Arguments Ok {A} a.
Arguments Throw {A} msg.

Definition bind {A B : Type} (c : Exn A) (k : A -> Exn B) : Exn B :=
  match c with
  | Ok a => k a
  | Throw m => Throw m
  end.

(** [try { c } catch { h }]. *)
Definition try_catch {A : Type} (c : Exn A) (h : string -> A) : A :=
  match c with
  | Ok a => a
  | Throw m => h m
  end.

End JS.

Notation "'let!' x ':=' c 'in' k" := (JS.bind c (fun x => k))
  (at level 10, x pattern, c at level 100, k at level 200).

(** ** The server: [server/src/index.ts] *)

Module Server.
Import JS.

(** *** Recognizer output *)

(** The bounding box of a recognized word, [w.bbox]; a field may be absent. *)
Record BBox := {
  x0 : option Q;
  y0 : option Q;
  x1 : option Q;
  y1 : option Q
}.

(** A word as the recognizer returns it ([w: any] in the source): the code
    reads [w.text], [w.bbox?.x0 ?? w.x0], ..., [w.confidence ?? w.conf]. *)
Record OcrWord := {
  w_text : option string;
  w_bbox : option BBox;
  w_x0 : option Q;
  w_y0 : option Q;
  w_x1 : option Q;
  w_y1 : option Q;
  w_confidence : option Q;
  w_conf : option Q
}.

(** [data] of a recognition: [data?.words || []]. *)
Definition OcrData := option (option (list OcrWord)).

Definition words_of (data : OcrData) : list OcrWord :=
  match data with
  | Some (Some ws) => ws
  | _ => []
  end.

(** [w.bbox?.f ?? w.f ?? 0]. *)
Definition coord (inner : BBox -> option Q) (outer : OcrWord -> option Q)
  (w : OcrWord) : Q :=
  let in_bbox := match w_bbox w with Some b => inner b | None => None end in
  match in_bbox with
  | Some v => v
  | None => nullish (outer w) 0
  end.

(** The object built by the first [.map] of both strategies. *)
Record Word := {
  raw : string;
  wx : Q;
  wy : Q;
  ww : Q;
  wh : Q;
  cx : Q;
  cy : Q;
  wconf : Q
}.

(** The object built by the second [.map]: [{ text, ...o, ar }]. *)
Record Candidate := {
  text : string;
  word : Word;
  ar : Q
}.

(** An entry of [detections]: [{ text, x, y, w, h, conf }]. *)
Record Detection := {
  d_text : string;
  d_x : Q;
  d_y : Q;
  d_w : Q;
  d_h : Q;
  d_conf : Q
}.

Record DetectOut := {
  detections : list Detection;
  itemNumbers : list string
}.

(** [baseTop] is [0] in [detectPresto] and [fullH - ROI_H] in
    [detectNurreBig]; apart from it the two [.map] bodies are the same. *)
Definition toWord (baseTop : Q) (w : OcrWord) : Word :=
  let x0 := coord x0 w_x0 w in
  let y0 := coord y0 w_y0 w in
  let x1 := coord x1 w_x1 w in
  let y1 := coord y1 w_y1 w in
  let W := Math_max 0 (x1 - x0) in
  let H := Math_max 0 (y1 - y0) in
  {| raw := or_str (nullish (w_text w) "") "";
     wx := x0; wy := baseTop + y0; ww := W; wh := H;
     cx := x0 + W / 2;
     cy := baseTop + y0 + H / 2;
     wconf := nullish (match w_confidence w with
                       | Some c => Some c
                       | None => w_conf w
                       end) 0 |}.

(** [{ text: o.raw.replace(/\D/g, ''), ...o, ar: o.w > 0 ? o.w / o.h : 0 }].
    For [o.h = 0] the quotient is [Infinity] in the source and [0] here;
    both fail the aspect-ratio test of either strategy, the only place
    [ar] is read. *)
Definition toCandidate (o : Word) : Candidate :=
  {| text := filter_str is_digit (raw o);
     word := o;
     ar := if ltb 0 (ww o) then ww o / wh o else 0 |}.

(** [/^\d{3,6}$/.test(s)] *)
Definition digits_3_6 (s : string) : bool :=
  forall_str is_digit s
  && (3 <=? String.length s)%nat && (String.length s <=? 6)%nat.

Definition toDetection (c : Candidate) : Detection :=
  {| d_text := text c;
     d_x := wx (word c); d_y := wy (word c);
     d_w := ww (word c); d_h := wh (word c);
     d_conf := wconf (word c) |}.

Definition output (cs : list Candidate) : DetectOut :=
  let detections := map toDetection cs in
  {| detections := detections; itemNumbers := map d_text detections |}.

(** *** Strategy A: [detectPresto] *)

Definition EDGE_PCT : Q := 12 # 100.
Definition presto_MIN_CONF : Q := 60.
Definition presto_MIN_AR : Q := 9 # 10.
Definition presto_MAX_AR : Q := 6.

Definition presto_keep (imgW imgH : Z) (o : Candidate) : bool :=
  let LEFT_MAX := inject_Z imgW * EDGE_PCT in
  let RIGHT_MIN := inject_Z imgW * (1 - EDGE_PCT) in
  let MIN_H := inject_Z imgH * (10 # 1000) in
  let MAX_H := inject_Z imgH * (6 # 100) in
  digits_3_6 (text o)
  && leb presto_MIN_CONF (wconf (word o))
  && (leb (cx (word o)) LEFT_MAX || leb RIGHT_MIN (cx (word o)))
  && leb MIN_H (wh (word o)) && leb (wh (word o)) MAX_H
  && leb presto_MIN_AR (ar o) && leb (ar o) presto_MAX_AR.

(** [(a, b) => a.y - b.y || a.x - b.x] *)
Definition presto_order (a b : Candidate) : Q :=
  or_num (wy (word a) - wy (word b)) (wx (word a) - wx (word b)).

(** [Math.round((imgH || 1000) * 0.015) || 15] *)
Definition MERGE_GAP (imgH : Z) : Z :=
  or_int (Math_round (inject_Z (or_int imgH 1000) * (15 # 1000))) 15.

(** One iteration of the row-dedup loop over [dedup]. *)
Definition dedup_step (gap : Z) (dedup : list Candidate) (d : Candidate)
  : list Candidate :=
  match last_elt dedup with
  | None => dedup ++ [d]
  | Some last =>
      if ltb (inject_Z gap) (Math_abs (cy (word d) - cy (word last)))
      then dedup ++ [d]
      else if ltb (wconf (word last)) (wconf (word d))
           then <[Nat.pred (length dedup) := d]> dedup
           else dedup
  end.

Definition dedup_rows (gap : Z) (candidates : list Candidate)
  : list Candidate :=
  fold_left (dedup_step gap) candidates [].

(** The body of [detectPresto] after the recognizer has answered. *)
Definition presto_post (imgW imgH : Z) (data : OcrData) : DetectOut :=
  let words := map (toWord 0) (words_of data) in
  let candidates :=
    sort presto_order
      (List.filter (presto_keep imgW imgH) (map toCandidate words)) in
  output (dedup_rows (MERGE_GAP imgH) candidates).

(** *** Images and the platform the server runs on *)

(** A decoded bitmap: its rows, top row first.  A [Buffer] holding a PNG
    is identified with the bitmap it encodes. *)
Definition Pixel := Z.
Definition Image := list (list Pixel).
Definition Buffer := Image.

(** The extraction rectangle handed to [sharp(...).extract]. *)
Record Rect := {
  left : Z;
  top : Z;
  r_width : Z;
  r_height : Z
}.

(** One entry of the [multipleCrops] payload.  [flipVertical] is sent by
    the client ([buildCropPayloadForIndex]) and so is present in the parsed
    JSON, although the route's type [CropReq] does not declare it. *)
Record CropReq := {
  c_x : Q;
  c_y : Q;
  c_width : Q;
  c_height : Q;
  c_rotation : option Q;
  c_itemNumber : string;
  c_detectColor : option bool;
  c_flipVertical : option bool
}.

(** An element of the parsed [multipleCrops] array, as far as the loop
    tells elements apart: [null], on which every property read throws, or
    an object, read through the fields of [CropReq].  The annotation
    [CropReq[]] on the result of [JSON.parse] checks nothing at run
    time. *)
Inductive Entry :=
| entry_null
| entry_box (c : CropReq).

(** What [JSON.parse] returns for a well-formed payload: an array, or a
    value that [for ... of] cannot iterate ([null], an object, a number,
    a boolean). *)
Inductive Payload :=
| payload_array (entries : list Entry)
| payload_other.

(** Everything outside [index.ts] that the routes call.  Each operation
    that can throw returns an [Exn]. *)
Record Platform := {
  (* tesseract.js *)
  Worker : Type;
  createWorker : Exn Worker;
  setParameters : Worker -> list (string * string) -> Exn unit;
  recognize : Worker -> Buffer -> string -> Exn OcrData;
  terminate : Worker -> Exn unit;
  (* sharp, detection route *)
  (* sharp(path).rotate().metadata() : (meta.width, meta.height) *)
  exif_metadata : string -> Exn (option Z * option Z);
  (* base.resize({width}).greyscale().normalize().sharpen().png().toBuffer() *)
  pre_common : string -> Z -> Exn Buffer;
  (* sharp(buf).greyscale().linear().normalize().threshold().sharpen() *)
  pre_strong : Buffer -> Exn Buffer;
  (* sharp(buf).extract(rect).resize({width}).png().toBuffer() *)
  extract_resize : Buffer -> Rect -> Z -> Exn Buffer;
  (* sharp, crop route *)
  (* sharp(path).metadata() *)
  metadata : string -> Exn (option Z * option Z);
  (* sharp(path).rotate(angle, {background}).extract(rect).png().toBuffer() *)
  rotate_extract : string -> Q -> Rect -> Exn Buffer;
  (* Math *)
  Math_cos : Q -> Q;
  Math_sin : Q -> Q;
  Math_PI : Q;
  (* JSON.parse of the [multipleCrops] field *)
  JSON_parse : string -> Exn Payload;
  (* the message of the TypeError thrown by reading a property of null *)
  null_read : string -> string;
  (* the message of the TypeError thrown by for ... of on a value that is
     not iterable *)
  not_iterable : string;
  (* fs.mkdirSync(outDir, { recursive: true }) *)
  mkdirSync : Exn unit;
  (* does fs.writeFileSync(name, buf) succeed in this directory *)
  write_ok : gmap string Buffer -> string -> Buffer -> bool;
  (* how far the clock moves between two readings of Date.now() *)
  tick : N -> N
}.

(** [ocrRecognize]: the Tesseract worker utility. *)
Definition ocrRecognize (P : Platform) (buf : Buffer) (lang : string)
  (params : list (string * string)) : Exn OcrData :=
  let! worker := createWorker P in
  let! _ := setParameters P worker params in
  let! data := recognize P worker buf lang in
  let! _ := terminate P worker in
  Ok data.

Definition presto_params : list (string * string) :=
  [("tessedit_pageseg_mode", "11");
   ("tessedit_char_whitelist", "0123456789");
   ("user_defined_dpi", "300")]%string.

Definition detectPresto (P : Platform) (buf : Buffer) (imgW imgH : Z)
  : Exn DetectOut :=
  let! data := ocrRecognize P buf "eng" presto_params in
  Ok (presto_post imgW imgH data).

(** *** Strategy B: [detectNurreBig] *)

Definition nurre_params : list (string * string) :=
  [("tessedit_pageseg_mode", "6");
   ("tessedit_char_whitelist", "0123456789");
   ("user_defined_dpi", "300")]%string.

Definition nurre_MIN_CONF : Q := 55.
Definition nurre_MIN_AR : Q := 6 # 10.
Definition nurre_MAX_AR : Q := 10.

(** [Math.max(1, Math.round(fullW * 0.35))] and
    [Math.max(1, Math.round(fullH * 0.30))]: the products are double
    products of the size and the double written [0.35] or [0.30]. *)
Definition nurre_ROI_W (fullW : Z) : Z :=
  Z.max 1 (Math_round (fmul (inject_Z fullW) (fl (35 # 100)))).
Definition nurre_ROI_H (fullH : Z) : Z :=
  Z.max 1 (Math_round (fmul (inject_Z fullH) (fl (30 # 100)))).

(** [Math.max(20, Math.round(fullH * 0.018))] and
    [Math.round(fullH * 0.12)], with double products as well: at
    [fullH = 1750] the product is just below 31.5 and [MIN_H] is 31. *)
Definition nurre_MIN_H (fullH : Z) : Z :=
  Z.max 20 (Math_round (fmul (inject_Z fullH) (fl (18 # 1000)))).
Definition nurre_MAX_H (fullH : Z) : Z :=
  Math_round (fmul (inject_Z fullH) (fl (12 # 100))).

Definition nurre_keep (fullH : Z) (o : Candidate) : bool :=
  let MIN_H := nurre_MIN_H fullH in
  let MAX_H := nurre_MAX_H fullH in
  digits_3_6 (text o)
  && leb nurre_MIN_CONF (wconf (word o))
  && leb (inject_Z MIN_H) (wh (word o)) && leb (wh (word o)) (inject_Z MAX_H)
  && leb nurre_MIN_AR (ar o) && leb (ar o) nurre_MAX_AR.

(** [(a, b) => b.cy - a.cy || a.x - b.x || b.h - a.h || b.conf - a.conf] *)
Definition nurre_order (a b : Candidate) : Q :=
  or_num (cy (word b) - cy (word a))
    (or_num (wx (word a) - wx (word b))
       (or_num (wh (word b) - wh (word a))
          (wconf (word b) - wconf (word a)))).

Definition nurre_post (fullH : Z) (data : OcrData) : DetectOut :=
  let baseTop := inject_Z (fullH - nurre_ROI_H fullH) in
  let words := map (toWord baseTop) (words_of data) in
  let candidates :=
    List.filter (nurre_keep fullH) (map toCandidate words) in
  output (slice0 3 (sort nurre_order candidates)).

Definition detectNurreBig (P : Platform) (buf : Buffer) (fullW fullH : Z)
  : Exn DetectOut :=
  let! preStrong := pre_strong P buf in
  let ROI_W := nurre_ROI_W fullW in
  let ROI_H := nurre_ROI_H fullH in
  let! ROI :=
    extract_resize P preStrong
      {| left := 0; top := fullH - ROI_H; r_width := ROI_W; r_height := ROI_H |}
      (Z.min 1600 ROI_W) in
  let! data := ocrRecognize P ROI "eng" nurre_params in
  Ok (nurre_post fullH data).

(** *** Route [POST /api/detect-item-numbers] *)

(** What the route reads of the request: the uploaded file's path (absent
    when no [image] part was sent) and the three places a strategy name
    may come from. *)
Record DetectRequest := {
  file : option string;
  query_strategy : option string;
  body_strategy : option string;
  header_strategy : option string
}.

(** The JSON object the route answers with; the last three fields are
    absent from the short answers. *)
Record DetectBody := {
  b_detections : list Detection;
  b_itemNumbers : list string;
  b_imageWidth : option Z;
  b_imageHeight : option Z;
  b_strategyUsed : option string
}.

Record DetectResponse := {
  status : Z;
  body : DetectBody
}.

(** [res.json(obj)]: status 200. *)
Definition json (b : DetectBody) : DetectResponse :=
  {| status := 200; body := b |}.

Definition empty_body : DetectBody :=
  {| b_detections := []; b_itemNumbers := [];
     b_imageWidth := None; b_imageHeight := None; b_strategyUsed := None |}.

(** [query.strategy || body?.strategy || headers['x-ocr-strategy'] || 'presto'] *)
Definition select_strategy (req : DetectRequest) : string :=
  match truthy_str (query_strategy req) with
  | Some s => s
  | None =>
      match truthy_str (body_strategy req) with
      | Some s => s
      | None =>
          match truthy_str (header_strategy req) with
          | Some s => s
          | None => "presto"
          end
      end
  end.

Definition is_empty {A : Type} (l : list A) : bool :=
  match l with [] => true | _ => false end.

(** The [if (strategy === 'nurre') ... else ...] block that assigns [out]. *)
Definition run_strategy (P : Platform) (strategy : string)
  (preCommon : Buffer) (imgW imgH : Z) : Exn DetectOut :=
  if String.eqb strategy "nurre" then
    let! out := detectNurreBig P preCommon imgW imgH in
    if is_empty (itemNumbers out) then
      let! prestoOut := detectPresto P preCommon imgW imgH in
      if negb (is_empty (itemNumbers prestoOut)) then Ok prestoOut
      else Ok out
    else Ok out
  else detectPresto P preCommon imgW imgH.

(** The [try] block of the route, after the [req.file] test.  The upload
    is unlinked afterwards inside its own [try {} catch {}], which has no
    effect on the answer and is left out. *)
Definition detect_try (P : Platform) (req : DetectRequest) (path : string)
  : Exn DetectResponse :=
  let strategy := select_strategy req in
  let! meta := exif_metadata P path in
  let imgW := nullish (fst meta) 0%Z in
  let imgH := nullish (snd meta) 0%Z in
  let! preCommon := pre_common P path (Z.min 2200 (or_int imgW 2200)) in
  let! out := run_strategy P strategy preCommon imgW imgH in
  Ok (json {| b_detections := detections out;
              b_itemNumbers := itemNumbers out;
              b_imageWidth := Some imgW;
              b_imageHeight := Some imgH;
              b_strategyUsed := Some strategy |}).

Definition detect_route (P : Platform) (req : DetectRequest)
  : DetectResponse :=
  try_catch
    (match file req with
     | None => Ok (json empty_body)
     | Some path => detect_try P req path
     end)
    (fun _ => json empty_body).

(** *** Route [POST /api/multiple-crop-mouldings] *)

(** The part of the world the route changes: the files of
    [public/crops] (name to content) and the clock. *)
Record World := {
  files : gmap string Buffer;
  clock : N
}.

(** [rotPt] *)
Definition rotPt (P : Platform) (x y cx cy thetaRad : Q) : Q * Q :=
  let dx := x - cx in
  let dy := y - cy in
  (Math_cos P thetaRad * dx - Math_sin P thetaRad * dy + cx,
   Math_sin P thetaRad * dx + Math_cos P thetaRad * dy + cy).

(** [Math.min(...l)] and [Math.max(...l)] of the four corners. *)
Definition min4 (a b c d : Q) : Q := Math_min (Math_min (Math_min a b) c) d.
Definition max4 (a b c d : Q) : Q := Math_max (Math_max (Math_max a b) c) d.

(** The geometry of one box: the angle and the clamped rectangle in the
    rotated canvas (the lines from [const angle] to the second clamp). *)
Definition crop_rect (P : Platform) (W H : Z) (c : CropReq) : Q * Rect :=
  let angle := nullish (c_rotation c) 0 in
  let theta := - angle * Math_PI P / 180 in
  let bw0 := Z.max 1 (Math_floor (c_width c)) in
  let bh0 := Z.max 1 (Math_floor (c_height c)) in
  let bx0 := Z.max 0 (Math_floor (c_x c)) in
  let by0 := Z.max 0 (Math_floor (c_y c)) in
  let cx := inject_Z W / 2 in
  let cy := inject_Z H / 2 in
  let p1 := rotPt P 0 0 cx cy theta in
  let p2 := rotPt P (inject_Z W) 0 cx cy theta in
  let p3 := rotPt P (inject_Z W) (inject_Z H) cx cy theta in
  let p4 := rotPt P 0 (inject_Z H) cx cy theta in
  let minX := min4 (fst p1) (fst p2) (fst p3) (fst p4) in
  let minY := min4 (snd p1) (snd p2) (snd p3) (snd p4) in
  let maxX := max4 (fst p1) (fst p2) (fst p3) (fst p4) in
  let maxY := max4 (snd p1) (snd p2) (snd p3) (snd p4) in
  let RW := Math_round (maxX - minX) in
  let RH := Math_round (maxY - minY) in
  let ctr := rotPt P (inject_Z bx0 + inject_Z bw0 / 2)
                     (inject_Z by0 + inject_Z bh0 / 2) cx cy theta in
  let rx := Math_round (fst ctr - minX - inject_Z bw0 / 2) in
  let ry := Math_round (snd ctr - minY - inject_Z bh0 / 2) in
  let bw := Z.min bw0 RW in
  let bh := Z.min bh0 RH in
  let rx := Z.max 0 (Z.min (RW - bw) rx) in
  let ry := Z.max 0 (Z.min (RH - bh) ry) in
  (angle, {| left := rx; top := ry; r_width := bw; r_height := bh |}).

(** [String(c.itemNumber || '').replace(/[^A-Za-z0-9]/g, '').toUpperCase()] *)
Definition strip_label (itemNumber : string) : string :=
  toUpperCase (filter_str is_alnum (or_str itemNumber "")).

(** [... || `CROP${Date.now()}`]: the clock is read only when the
    stripped label is empty. *)
Definition clean_name (P : Platform) (wd : World) (c : CropReq)
  : string * World :=
  match strip_label (c_itemNumber c) with
  | EmptyString =>
      ("CROP" +:+ pretty (clock wd),
       {| files := files wd; clock := tick P (clock wd) |})
  | s => (s, wd)
  end.

(** [fs.existsSync(path.join(outDir, fileBase))] *)
Definition existsSync (fs : gmap string Buffer) (fileBase : string) : bool :=
  bool_decide (is_Some (fs !! fileBase)).

(** [`${clean}_${k}.png`] *)
Definition suffixed (clean : string) (k : N) : string :=
  clean +:+ "_" +:+ pretty k +:+ ".png".

(** The [while (fs.existsSync(filePath))] loop, entered with the current
    [fileBase] and counter [k]; [fuel] bounds the number of iterations. *)
Fixpoint name_loop (fuel : nat) (fs : gmap string Buffer) (clean : string)
  (fileBase : string) (k : N) : option string :=
  match fuel with
  | O => None
  | S fuel' =>
      if existsSync fs fileBase
      then name_loop fuel' fs clean (suffixed clean k) (k + 1)%N
      else Some fileBase
  end.

(** The name the loop settles on.  The directory holds [size fs] files and
    the names tried are pairwise different, so [S (size fs)] iterations
    always suffice (lemma [name_loop_total] below) and the default is
    never used. *)
Definition pick_name (fs : gmap string Buffer) (clean : string) : string :=
  let first := clean +:+ ".png" in
  default first (name_loop (S (size fs)) fs clean first 1%N).

(** An entry of [croppedMouldings]. *)
Record Cropped := {
  id : string;
  imageUrl : string;
  detectedNumber : string
}.

(** The body of the inner [try] for one box [c]: what the world is
    afterwards, and the pushed entry or the exception. *)
Definition crop_box (P : Platform) (inputPath : string) (W H : Z)
  (wd : World) (c : CropReq) : World * Exn Cropped :=
  let '(angle, rect) := crop_rect P W H c in
  match rotate_extract P inputPath (- angle) rect with
  | Throw m => (wd, Throw m)
  | Ok buf =>
      let '(clean, wd1) := clean_name P wd c in
      let fileBase := pick_name (files wd1) clean in
      if write_ok P (files wd1) fileBase buf
      then ({| files := <[fileBase := buf]> (files wd1); clock := clock wd1 |},
            Ok {| id := fileBase;
                  imageUrl := "/crops/" +:+ fileBase;
                  detectedNumber := c_itemNumber c |})
      else (wd1, Throw "writeFileSync")
  end.

(** One iteration of [for (const c of crops)]: the world afterwards, and
    [results] if the loop goes on or the exception that leaves it.  For an
    object, [results.push] on success, and the [catch] logs
    [c.itemNumber] and the error, with no effect on the answer.  For
    [null] the first statement of the [try], [c.rotation], throws, and so
    does [c.itemNumber] in the [catch]: that second exception leaves the
    loop. *)
Definition crop_iter (P : Platform) (inputPath : string) (W H : Z)
  (acc : World * list Cropped) (e : Entry) : World * Exn (list Cropped) :=
  let '(wd, results) := acc in
  match e with
  | entry_null => (wd, Throw (null_read P "itemNumber"))
  | entry_box c =>
      match crop_box P inputPath W H wd c with
      | (wd', Ok r) => (wd', Ok (results ++ [r]))
      | (wd', Throw _) => (wd', Ok results)
      end
  end.

(** The loop from a given state: an exception ends it, and the entries
    after it are not looked at. *)
Fixpoint crop_for (P : Platform) (inputPath : string) (W H : Z)
  (wd : World) (results : list Cropped) (entries : list Entry)
  : World * Exn (list Cropped) :=
  match entries with
  | [] => (wd, Ok results)
  | e :: rest =>
      match crop_iter P inputPath W H (wd, results) e with
      | (wd', Ok results') => crop_for P inputPath W H wd' results' rest
      | (wd', Throw m) => (wd', Throw m)
      end
  end.

(** [const results = []; for (const c of crops) { ... }] *)
Definition crop_loop (P : Platform) (inputPath : string) (W H : Z)
  (wd : World) (entries : list Entry) : World * Exn (list Cropped) :=
  crop_for P inputPath W H wd [] entries.

Record CropRequest := {
  catalogImage : option string;
  multipleCrops : option string
}.

Inductive CropResponse :=
| CropJson (croppedMouldings : list Cropped)
| CropSend (code : Z) (message : string).

Definition crop_status (r : CropResponse) : Z :=
  match r with
  | CropJson _ => 200
  | CropSend code _ => code
  end.

Definition crop_route (P : Platform) (wd : World) (req : CropRequest)
  : World * CropResponse :=
  match JSON_parse P (or_str (nullish (multipleCrops req) "") "[]") with
  | Throw m => (wd, CropSend 500 (or_str m "Crop failed"))
  | Ok crops =>
      match catalogImage req with
      | None => (wd, CropSend 400 "No catalogImage")
      | Some inputPath =>
          match metadata P inputPath with
          | Throw m => (wd, CropSend 500 (or_str m "Crop failed"))
          | Ok meta =>
              let W := nullish (fst meta) 0%Z in
              let H := nullish (snd meta) 0%Z in
              match mkdirSync P with
              | Throw m => (wd, CropSend 500 (or_str m "Crop failed"))
              | Ok _ =>
                  match crops with
                  | payload_other =>
                      (wd, CropSend 500 (or_str (not_iterable P) "Crop failed"))
                  | payload_array entries =>
                      match crop_loop P inputPath W H wd entries with
                      | (wd', Ok results) => (wd', CropJson results)
                      | (wd', Throw m) =>
                          (wd', CropSend 500 (or_str m "Crop failed"))
                      end
                  end
              end
          end
      end
  end.

End Server.

(** ** The client: [client/src/App.tsx] *)

Module Client.
Import JS.

(** *** Types and helpers *)

Record CropBox := {
  id : Z;
  x : Q;
  y : Q;
  width : Q;
  height : Q;
  itemNumber : string;
  color : string;
  rotation : option Q;
  flipVertical : option bool
}.

Record Point := {
  px : Q;
  py : Q
}.

Definition origin : Point := {| px := 0; py := 0 |}.

Inductive Mode := catalog | screenshot.
Inductive ViewMode := single | all.

(** The handle tags returned by [getResizeHandle]. *)
Inductive Handle := h_se | h_ne | h_sw | h_nw | h_e | h_w | h_s | h_n.

Definition Mode_eqb (a b : Mode) : bool :=
  match a, b with
  | catalog, catalog | screenshot, screenshot => true
  | _, _ => false
  end.

(** [VENDORS] together with the prefix table of [getVendorPrefix]:
    id (as the string the select element yields), name, prefix. *)
Definition VENDORS : list (string * (string * string)) :=
  [("1", ("Presto Moulding", "PR"));
   ("2", ("Studio Moulding", "ST"));
   ("3", ("Décor Moulding", "DM"));
   ("4", ("Bella Moulding", "BM"));
   ("5", ("Metro Moulding", "MM"));
   ("6", ("Nurre Caxton", "NC"))]%string.

Fixpoint getVendorPrefix_in (vs : list (string * (string * string)))
  (vendorId : string) : string :=
  match vs with
  | [] => ""
  | (i, (_, p)) :: r =>
      if String.eqb i vendorId then p else getVendorPrefix_in r vendorId
  end.

Definition getVendorPrefix (vendorId : string) : string :=
  getVendorPrefix_in VENDORS vendorId.

(** [s.replace(/^[A-Z]{1,3}/, '')]: drop up to three leading capitals. *)
Fixpoint drop_upper (n : nat) (s : string) : string :=
  match n, s with
  | S n', String c r => if is_upper c then drop_upper n' r else s
  | _, _ => s
  end.

Definition startsWith (s p : string) : bool := String.prefix p s.

Definition formatItemNumber (n vendorId : string) : string :=
  let p := getVendorPrefix vendorId in
  match p with
  | EmptyString => n
  | _ => if startsWith n p then n else p +:+ drop_upper 3 n
  end.

Definition palette8 : list string :=
  ["#00ff00"; "#ff0000"; "#0000ff"; "#ffff00";
   "#ff00ff"; "#00ffff"; "#ffa500"; "#800080"]%string.

Definition palette2 : list string := ["#00bcd4"; "#ff9800"]%string.

(** [colors[i % colors.length]] *)
Definition pick_color (colors : list string) (i : Z) : string :=
  nth (Z.to_nat (i mod Z.of_nat (length colors))) colors ""%string.

(** What a handler reads of a canvas: the [dataset] entries written by
    [drawCanvas] (absent until the image has loaded), the canvas width and
    height they default to, and the cursor style the handlers write. *)
Record Canvas := {
  ds_scale : option Q;
  ds_originalWidth : option Q;
  ds_originalHeight : option Q;
  canvas_width : Q;
  canvas_height : Q;
  cursor : string
}.

(** The component state ([useState] and [useRef] cells) read or written by
    the handlers embedded below. *)
Record App := {
  mode : Mode;
  viewMode : ViewMode;
  selectedVendorId : string;
  activeIdx : nat;
  boxesMap : gmap nat (list CropBox);
  canvasRefs : gmap nat Canvas;
  zoom : Q;
  panOffset : Point;
  isPanning : bool;
  panStart : Point;
  isDragging : bool;
  isResizing : bool;
  dragStart : Point;
  resizeHandle : option Handle;
  activeCropId : option Z;
  resizeStartBoxRef : option CropBox
}.

(** [boxesMap[i] || []] *)
Definition boxes_of (m : gmap nat (list CropBox)) (i : nat) : list CropBox :=
  default [] (m !! i).

(** [if (!activeCropId)]: [null] and [0] are falsy. *)
Definition truthy_id (i : option Z) : option Z :=
  match i with
  | Some 0%Z => None
  | other => other
  end.

(** *** Box store operations *)

Definition set_boxesMap (a : App) (m : gmap nat (list CropBox)) : App :=
  {| mode := mode a; viewMode := viewMode a;
     selectedVendorId := selectedVendorId a; activeIdx := activeIdx a;
     boxesMap := m; canvasRefs := canvasRefs a;
     zoom := zoom a; panOffset := panOffset a;
     isPanning := isPanning a; panStart := panStart a;
     isDragging := isDragging a; isResizing := isResizing a;
     dragStart := dragStart a; resizeHandle := resizeHandle a;
     activeCropId := activeCropId a;
     resizeStartBoxRef := resizeStartBoxRef a |}.

(** [updateBoxesForIndex] *)
Definition updateBoxesForIndex (a : App) (index : nat)
  (updater : list CropBox -> list CropBox) : App :=
  set_boxesMap a (<[index := updater (boxes_of (boxesMap a) index)]> (boxesMap a)).

(** [updateBoxes] *)
Definition updateBoxes (a : App) (updater : list CropBox -> list CropBox)
  : App :=
  updateBoxesForIndex a (activeIdx a) updater.

(** [prev.reduce((m, b) => Math.max(m, b.id), 0)] *)
Definition max_id (prev : list CropBox) : Z :=
  fold_left (fun m b => Z.max m (id b)) prev 0%Z.

(** The box appended by [addCropBox]. *)
Definition new_box (md : Mode) (prefix : string) (prev : list CropBox)
  : CropBox :=
  let nid := (or_int (max_id prev) 0 + 1)%Z in
  {| id := nid;
     x := 60 + inject_Z nid * 10; y := 60 + inject_Z nid * 10;
     width := 400; height := 120;
     itemNumber := prefix; color := pick_color palette8 nid;
     rotation := Some 0;
     flipVertical := Some (Mode_eqb md screenshot) |}.

(** [addCropBox(index)]; [None] stands for the omitted argument. *)
Definition addCropBox (a : App) (index : option nat) : App :=
  let i := nullish index (activeIdx a) in
  let prefix := getVendorPrefix (selectedVendorId a) in
  updateBoxesForIndex a i (fun prev => prev ++ [new_box (mode a) prefix prev]).

(** [removeCropBox] *)
Definition removeCropBox (a : App) (i : Z) : App :=
  updateBoxes a (fun prev =>
    if (1 <? length prev)%nat
    then List.filter (fun b => negb (Z.eqb (id b) i)) prev
    else prev).

(** The [Partial<CropBox>] objects passed to [updateCropBox]. *)
Record Updates := {
  u_x : option Q;
  u_y : option Q;
  u_rotation : option Q;
  u_flipVertical : option bool;
  u_itemNumber : option string
}.

(** [{ ...b, ...updates }] followed by the label re-formatting. *)
Definition apply_updates (vendorId : string) (b : CropBox) (u : Updates)
  : CropBox :=
  {| id := id b;
     x := nullish (u_x u) (x b);
     y := nullish (u_y u) (y b);
     width := width b;
     height := height b;
     itemNumber :=
       match u_itemNumber u with
       | None => itemNumber b
       | Some s =>
           match vendorId with
           | EmptyString => s
           | _ => formatItemNumber s vendorId
           end
       end;
     color := color b;
     rotation := match u_rotation u with
                 | Some r => Some r
                 | None => rotation b
                 end;
     flipVertical := match u_flipVertical u with
                     | Some f => Some f
                     | None => flipVertical b
                     end |}.

(** [updateCropBox] *)
Definition updateCropBox (a : App) (i : Z) (u : Updates) : App :=
  updateBoxes a
    (map (fun b => if negb (Z.eqb (id b) i) then b
                   else apply_updates (selectedVendorId a) b u)).

(** *** State setters ([setZoom], [setPanOffset], [setActiveIdx], ...) *)

Definition setActiveIdx (a : App) (i : nat) : App :=
  {| mode := mode a; viewMode := viewMode a;
     selectedVendorId := selectedVendorId a; activeIdx := i;
     boxesMap := boxesMap a; canvasRefs := canvasRefs a;
     zoom := zoom a; panOffset := panOffset a;
     isPanning := isPanning a; panStart := panStart a;
     isDragging := isDragging a; isResizing := isResizing a;
     dragStart := dragStart a; resizeHandle := resizeHandle a;
     activeCropId := activeCropId a;
     resizeStartBoxRef := resizeStartBoxRef a |}.

Definition setZoom (a : App) (z : Q) : App :=
  {| mode := mode a; viewMode := viewMode a;
     selectedVendorId := selectedVendorId a; activeIdx := activeIdx a;
     boxesMap := boxesMap a; canvasRefs := canvasRefs a;
     zoom := z; panOffset := panOffset a;
     isPanning := isPanning a; panStart := panStart a;
     isDragging := isDragging a; isResizing := isResizing a;
     dragStart := dragStart a; resizeHandle := resizeHandle a;
     activeCropId := activeCropId a;
     resizeStartBoxRef := resizeStartBoxRef a |}.

Definition setPanOffset (a : App) (p : Point) : App :=
  {| mode := mode a; viewMode := viewMode a;
     selectedVendorId := selectedVendorId a; activeIdx := activeIdx a;
     boxesMap := boxesMap a; canvasRefs := canvasRefs a;
     zoom := zoom a; panOffset := p;
     isPanning := isPanning a; panStart := panStart a;
     isDragging := isDragging a; isResizing := isResizing a;
     dragStart := dragStart a; resizeHandle := resizeHandle a;
     activeCropId := activeCropId a;
     resizeStartBoxRef := resizeStartBoxRef a |}.

Definition setActiveCropId (a : App) (i : option Z) : App :=
  {| mode := mode a; viewMode := viewMode a;
     selectedVendorId := selectedVendorId a; activeIdx := activeIdx a;
     boxesMap := boxesMap a; canvasRefs := canvasRefs a;
     zoom := zoom a; panOffset := panOffset a;
     isPanning := isPanning a; panStart := panStart a;
     isDragging := isDragging a; isResizing := isResizing a;
     dragStart := dragStart a; resizeHandle := resizeHandle a;
     activeCropId := i;
     resizeStartBoxRef := resizeStartBoxRef a |}.

(** [setIsResizing(true); setResizeHandle(h); setActiveCropId(box.id);
    setDragStart(p); resizeStartBoxRef.current = box] *)
Definition begin_resize (a : App) (h : Handle) (box : CropBox) (p : Point)
  : App :=
  {| mode := mode a; viewMode := viewMode a;
     selectedVendorId := selectedVendorId a; activeIdx := activeIdx a;
     boxesMap := boxesMap a; canvasRefs := canvasRefs a;
     zoom := zoom a; panOffset := panOffset a;
     isPanning := isPanning a; panStart := panStart a;
     isDragging := isDragging a; isResizing := true;
     dragStart := p; resizeHandle := Some h;
     activeCropId := Some (id box);
     resizeStartBoxRef := Some box |}.

(** [setIsDragging(true); setActiveCropId(box.id); setDragStart(p)] *)
Definition begin_drag (a : App) (box : CropBox) (p : Point) : App :=
  {| mode := mode a; viewMode := viewMode a;
     selectedVendorId := selectedVendorId a; activeIdx := activeIdx a;
     boxesMap := boxesMap a; canvasRefs := canvasRefs a;
     zoom := zoom a; panOffset := panOffset a;
     isPanning := isPanning a; panStart := panStart a;
     isDragging := true; isResizing := isResizing a;
     dragStart := p; resizeHandle := resizeHandle a;
     activeCropId := Some (id box);
     resizeStartBoxRef := resizeStartBoxRef a |}.

(** [setIsPanning(true); setPanStart(p)] *)
Definition begin_pan (a : App) (p : Point) : App :=
  {| mode := mode a; viewMode := viewMode a;
     selectedVendorId := selectedVendorId a; activeIdx := activeIdx a;
     boxesMap := boxesMap a; canvasRefs := canvasRefs a;
     zoom := zoom a; panOffset := panOffset a;
     isPanning := true; panStart := p;
     isDragging := isDragging a; isResizing := isResizing a;
     dragStart := dragStart a; resizeHandle := resizeHandle a;
     activeCropId := activeCropId a;
     resizeStartBoxRef := resizeStartBoxRef a |}.

Definition set_canvasRefs (a : App) (cs : gmap nat Canvas) : App :=
  {| mode := mode a; viewMode := viewMode a;
     selectedVendorId := selectedVendorId a; activeIdx := activeIdx a;
     boxesMap := boxesMap a; canvasRefs := cs;
     zoom := zoom a; panOffset := panOffset a;
     isPanning := isPanning a; panStart := panStart a;
     isDragging := isDragging a; isResizing := isResizing a;
     dragStart := dragStart a; resizeHandle := resizeHandle a;
     activeCropId := activeCropId a;
     resizeStartBoxRef := resizeStartBoxRef a |}.

Definition set_cursor (c : Canvas) (cur : string) : Canvas :=
  {| ds_scale := ds_scale c; ds_originalWidth := ds_originalWidth c;
     ds_originalHeight := ds_originalHeight c;
     canvas_width := canvas_width c; canvas_height := canvas_height c;
     cursor := cur |}.

(** *** Zoom controls and focus changes *)

(** [+(z + 0.25).toFixed(2)] is [z + 0.25] on the quarter steps the
    buttons produce. *)
Definition handleZoomIn (a : App) : App :=
  setZoom a (Math_min 3 (zoom a + (25 # 100))).

Definition handleZoomOut (a : App) : App :=
  setZoom a (Math_max (5 # 10) (zoom a - (25 # 100))).

Definition handleResetView (a : App) : App :=
  setPanOffset (setZoom a 1) origin.

(** [setActiveByThumb]: the thumbnail buttons and Prev / Next. *)
Definition setActiveByThumb (a : App) (i : nat) : App :=
  setActiveCropId (setPanOffset (setZoom (setActiveIdx a i) 1) origin) None.

(** The Focus button of the All view: [onClick={() => setActiveIdx(i)}]. *)
Definition focusButton (a : App) (i : nat) : App := setActiveIdx a i.

(** *** Pointer handlers *)

(** What a handler reads of a mouse event, with the canvas position
    [getBoundingClientRect] reports at that moment. *)
Record MouseEvent := {
  clientX : Q;
  clientY : Q;
  shiftKey : bool;
  rect_left : Q;
  rect_top : Q
}.

Definition getResizeHandle (x y : Q) (box : CropBox) : option Handle :=
  let s := 15 in
  let r := Client.x box + width box in
  let b := Client.y box + height box in
  if leb (r - s) x && leb (b - s) y then Some h_se
  else if leb (r - s) x && leb y (Client.y box + s) then Some h_ne
  else if leb x (Client.x box + s) && leb (b - s) y then Some h_sw
  else if leb x (Client.x box + s) && leb y (Client.y box + s) then Some h_nw
  else if leb (r - 8) x && leb x (r + 8) then Some h_e
  else if leb (Client.x box - 8) x && leb x (Client.x box + 8) then Some h_w
  else if leb (b - 8) y && leb y (b + 8) then Some h_s
  else if leb (Client.y box - 8) y && leb y (Client.y box + 8) then Some h_n
  else None.

(** [snap(v)] with the default grid [g = 1]. *)
Definition snap (v : Q) : Q := inject_Z (Math_round (v / 1)) * 1.

(** The 15px-enlarged zone tested before [getResizeHandle]. *)
Definition in_outer (ox oy : Q) (box : CropBox) : bool :=
  leb (x box - 15) ox && leb ox (x box + width box + 15)
  && leb (y box - 15) oy && leb oy (y box + height box + 15).

(** Body containment. *)
Definition in_body (ox oy : Q) (box : CropBox) : bool :=
  leb (x box) ox && leb ox (x box + width box)
  && leb (y box) oy && leb oy (y box + height box).

(** First loop of [handleMouseDown]: the first box with a handle hit. *)
Fixpoint find_handle (ox oy : Q) (boxes : list CropBox)
  : option (CropBox * Handle) :=
  match boxes with
  | [] => None
  | box :: rest =>
      if in_outer ox oy box then
        match getResizeHandle ox oy box with
        | Some h => Some (box, h)
        | None => find_handle ox oy rest
        end
      else find_handle ox oy rest
  end.

(** Second loop of [handleMouseDown]: the first box containing the point. *)
Fixpoint find_body (ox oy : Q) (boxes : list CropBox) : option CropBox :=
  match boxes with
  | [] => None
  | box :: rest =>
      if in_body ox oy box then Some box else find_body ox oy rest
  end.

Definition handleMouseDown (a : App) (ev : MouseEvent) (index : nat) : App :=
  let a1 := if negb (Nat.eqb (activeIdx a) index)
            then setActiveIdx a index else a in
  match canvasRefs a !! index with
  | None => a1
  | Some canvas =>
      let x := clientX ev - rect_left ev in
      let y := clientY ev - rect_top ev in
      let scale := nullish (ds_scale canvas) 1 in
      let pan := if Nat.eqb index (activeIdx a) then panOffset a else origin in
      let ox := (x - px pan) / scale in
      let oy := (y - py pan) / scale in
      let boxes := boxes_of (boxesMap a) index in
      match find_handle ox oy boxes with
      | Some (box, h) => begin_resize a1 h box {| px := ox; py := oy |}
      | None =>
          match find_body ox oy boxes with
          | Some box =>
              begin_drag a1 box {| px := ox - Client.x box;
                                   py := oy - Client.y box |}
          | None =>
              if shiftKey ev
                 || (Nat.eqb index (activeIdx a) && ltb 1 (zoom a))
              then begin_pan a1 {| px := clientX ev - px (panOffset a);
                                   py := clientY ev - py (panOffset a) |}
              else a1
          end
      end
  end.

(** The body of the [.map] callback in the resize branch of
    [handleMouseMove], for the box whose id is [activeCropId]. *)
Definition resize_box (W H : Q) (ox oy : Q) (dragStart : Point)
  (resizeHandle : Handle) (originalBox box : CropBox) : CropBox :=
  let dx := ox - px dragStart in
  let dy := oy - py dragStart in
  let '(nx, ny, nw, nh) :=
    match resizeHandle with
    | h_se => (x box, y box,
               Math_max 50 (width originalBox + dx),
               Math_max 20 (height originalBox + dy))
    | h_ne => (x box, y originalBox + dy,
               Math_max 50 (width originalBox + dx),
               Math_max 20 (height originalBox - dy))
    | h_sw => (x originalBox + dx, y box,
               Math_max 50 (width originalBox - dx),
               Math_max 20 (height originalBox + dy))
    | h_nw => (x originalBox + dx, y originalBox + dy,
               Math_max 50 (width originalBox - dx),
               Math_max 20 (height originalBox - dy))
    | h_e => (x box, y box,
              Math_max 50 (width originalBox + dx), height box)
    | h_w => (x originalBox + dx, y box,
              Math_max 50 (width originalBox - dx), height box)
    | h_s => (x box, y box,
              width box, Math_max 20 (height originalBox + dy))
    | h_n => (x box, y originalBox + dy,
              width box, Math_max 20 (height originalBox - dy))
    end in
  let nx := Math_max 0 (Math_min (W - nw) nx) in
  let ny := Math_max 0 (Math_min (H - nh) ny) in
  {| id := id box; x := nx; y := ny; width := nw; height := nh;
     itemNumber := itemNumber box; color := color box;
     rotation := rotation box; flipVertical := flipVertical box |}.

(** The body of the [.map] callback in the drag branch.  Coordinates are
    exact rationals where the browser has doubles: the two agree up to
    the rounding of the doubles, so at a pointer position whose exact
    image coordinate is a tie of [snap] the browser can take the
    neighbouring pixel. *)
Definition drag_box (W H : Q) (ox oy : Q) (dragStart : Point) (b : CropBox)
  : CropBox :=
  let nx := Math_max 0 (Math_min (W - width b) (snap (ox - px dragStart))) in
  let ny := Math_max 0 (Math_min (H - height b) (snap (oy - py dragStart))) in
  {| id := id b; x := nx; y := ny; width := width b; height := height b;
     itemNumber := itemNumber b; color := color b;
     rotation := rotation b; flipVertical := flipVertical b |}.

(** The cursor loop of the last branch of [handleMouseMove]: only the first
    box whose outer zone holds the point is looked at ([break]). *)
Fixpoint hover_cursor (ox oy : Q) (boxes : list CropBox) (cursor : string)
  : string :=
  match boxes with
  | [] => cursor
  | box :: rest =>
      if in_outer ox oy box then
        match getResizeHandle ox oy box with
        | Some _ => "nwse-resize"
        | None => if in_body ox oy box then "move" else cursor
        end
      else hover_cursor ox oy rest cursor
  end.

Definition on_box (i : Z) (f : CropBox -> CropBox) (box : CropBox) : CropBox :=
  if negb (Z.eqb (id box) i) then box else f box.

Definition handleMouseMove (a : App) (ev : MouseEvent) (index : nat) : App :=
  match canvasRefs a !! index with
  | None => a
  | Some canvas =>
      let x := clientX ev - rect_left ev in
      let y := clientY ev - rect_top ev in
      if isPanning a && Nat.eqb index (activeIdx a) then
        setPanOffset a {| px := clientX ev - px (panStart a);
                          py := clientY ev - py (panStart a) |}
      else
        let scale := nullish (ds_scale canvas) 1 in
        let W := nullish (ds_originalWidth canvas) (canvas_width canvas) in
        let H := nullish (ds_originalHeight canvas) (canvas_height canvas) in
        let pan := if Nat.eqb index (activeIdx a) then panOffset a
                   else origin in
        let ox := (x - px pan) / scale in
        let oy := (y - py pan) / scale in
        let boxes := boxes_of (boxesMap a) index in
        match isResizing a, truthy_id (activeCropId a), resizeHandle a with
        | true, Some acid, Some h =>
            match resizeStartBoxRef a with
            | None => a
            | Some originalBox =>
                updateBoxesForIndex a index
                  (map (on_box acid
                          (resize_box W H ox oy (dragStart a) h originalBox)))
            end
        | _, _, _ =>
            match isDragging a, truthy_id (activeCropId a) with
            | true, Some acid =>
                updateBoxesForIndex a index
                  (map (on_box acid (drag_box W H ox oy (dragStart a))))
            | _, _ =>
                let cursor0 :=
                  if Nat.eqb index (activeIdx a)
                     && (ltb 1 (zoom a) || shiftKey ev)
                  then "grab" else "default" in
                set_canvasRefs a
                  (<[index := set_cursor canvas
                                (hover_cursor ox oy boxes cursor0)]>
                     (canvasRefs a))
            end
        end
  end.

Definition handleMouseUp (a : App) : App :=
  {| mode := mode a; viewMode := viewMode a;
     selectedVendorId := selectedVendorId a; activeIdx := activeIdx a;
     boxesMap := boxesMap a; canvasRefs := canvasRefs a;
     zoom := zoom a; panOffset := panOffset a;
     isPanning := false; panStart := origin;
     isDragging := false; isResizing := false;
     dragStart := origin; resizeHandle := None;
     activeCropId := activeCropId a;
     resizeStartBoxRef := None |}.

(** *** Keyboard handler *)

Record KeyboardEvent := {
  key : string;
  k_shiftKey : bool
}.

(** [boxes.find(b => b.id === activeCropId)] *)
Definition find_box (i : Z) (boxes : list CropBox) : option CropBox :=
  List.find (fun b => Z.eqb (id b) i) boxes.

(** One [if (e.key === k) updateCropBox(activeCropId, u)]. *)
Definition key_update (ev : KeyboardEvent) (k : string) (acid : Z)
  (u : Updates) (st : App) : App :=
  if String.eqb (key ev) k then updateCropBox st acid u else st.

(** [onKey]: the tests on [e.key] are consecutive [if]s; [cur] and [boxes]
    are read once, before any of them. *)
Definition onKey (a : App) (ev : KeyboardEvent) : App :=
  match truthy_id (activeCropId a) with
  | None => a
  | Some acid =>
      let step : Q := if k_shiftKey ev then 10 else 1 in
      let boxes := boxes_of (boxesMap a) (activeIdx a) in
      match find_box acid boxes with
      | None => a
      | Some cur =>
          let a1 := key_update ev "ArrowLeft" acid
            {| u_x := Some (Math_max 0 (x cur - step)); u_y := None;
               u_rotation := None; u_flipVertical := None;
               u_itemNumber := None |} a in
          let a2 := key_update ev "ArrowRight" acid
            {| u_x := Some (x cur + step); u_y := None;
               u_rotation := None; u_flipVertical := None;
               u_itemNumber := None |} a1 in
          let a3 := key_update ev "ArrowUp" acid
            {| u_x := None; u_y := Some (Math_max 0 (y cur - step));
               u_rotation := None; u_flipVertical := None;
               u_itemNumber := None |} a2 in
          let a4 := key_update ev "ArrowDown" acid
            {| u_x := None; u_y := Some (y cur + step);
               u_rotation := None; u_flipVertical := None;
               u_itemNumber := None |} a3 in
          let a5 := key_update ev "[" acid
            {| u_x := None; u_y := None;
               u_rotation := Some (nullish (rotation cur) 0 - (15 # 100));
               u_flipVertical := None; u_itemNumber := None |} a4 in
          let a6 := key_update ev "]" acid
            {| u_x := None; u_y := None;
               u_rotation := Some (nullish (rotation cur) 0 + (15 # 100));
               u_flipVertical := None; u_itemNumber := None |} a5 in
          if (String.eqb (key ev) "Backspace" || String.eqb (key ev) "Delete")
             && (1 <? length boxes)%nat
          then removeCropBox a6 acid
          else a6
      end
  end.

(** *** Seeding the boxes of an uploaded image *)

(** [detectItemNumbersCatalog]: [result] is the [itemNumbers] of the
    server's answer ([None] when the request or its decoding threw). *)
Definition catalog_seed (vendorId : string) (result : option (list string))
  : list CropBox :=
  let prefix := getVendorPrefix vendorId in
  match result with
  | Some itemNumbers =>
      imap (fun i num =>
              {| id := Z.of_nat i + 1;
                 x := 50;
                 y := 50 + inject_Z (Z.of_nat i) * (120 + 10);
                 width := 420;
                 height := 120;
                 itemNumber :=
                   or_str (formatItemNumber (or_str num "") vendorId) prefix;
                 color := pick_color palette8 (Z.of_nat i);
                 rotation := Some 0;
                 flipVertical := Some false |})
           (if negb (Nat.eqb (length itemNumbers) 0) then itemNumbers
            else [""%string])
  | None =>
      [{| id := 1; x := 50; y := 50; width := 400; height := 120;
          itemNumber := prefix; color := "#00ff00";
          rotation := Some 0; flipVertical := Some false |}]
  end.

(** [baseBoxes] of [detectFromScreenshot] for an image of size [W] x [H]. *)
Definition screenshot_base (vendorId : string) (W H : Z) : list CropBox :=
  let colW := Math_floor (inject_Z W / 2) in
  let padX := Math_round (inject_Z colW * (5 # 100)) in
  let innerW := (colW - padX * 2)%Z in
  let topY := Math_round (inject_Z H * (8 # 100)) in
  let topH := Math_round (inject_Z H * (60 # 100)) in
  let prefix := getVendorPrefix vendorId in
  map (fun i : Z =>
         {| id := i + 1;
            x := inject_Z (i * colW + padX);
            y := inject_Z (topY + Math_round (inject_Z topH * (5 # 100)));
            width := inject_Z innerW;
            height := inject_Z (Math_round (inject_Z topH * (75 # 100)));
            itemNumber := prefix;
            color := pick_color palette2 i;
            rotation := Some 0;
            flipVertical := Some true |})
      [0%Z; 1%Z].

Definition set_itemNumber (b : CropBox) (s : string) : CropBox :=
  {| id := id b; x := x b; y := y b; width := width b; height := height b;
     itemNumber := s; color := color b;
     rotation := rotation b; flipVertical := flipVertical b |}.

(** [detectFromScreenshot]: [result] as in [catalog_seed]. *)
Definition screenshot_seed (vendorId : string) (W H : Z)
  (result : option (list string)) : list CropBox :=
  let baseBoxes := screenshot_base vendorId W H in
  match result with
  | None => baseBoxes
  | Some itemNumbers =>
      let withPrefix :=
        map (fun n => formatItemNumber (or_str n "") vendorId)
            (slice0 2 itemNumbers) in
      imap (fun i b =>
              match truthy_str (withPrefix !! i) with
              | Some s => set_itemNumber b s
              | None => b
              end)
           baseBoxes
  end.

(** [setBoxesMap(prev => ({ ...prev, [idx]: boxes }))] *)
Definition seed (a : App) (idx : nat) (boxes : list CropBox) : App :=
  set_boxesMap a (<[idx := boxes]> (boxesMap a)).

(** [handleMultiUpload] up to the start of the detection tasks, for
    [picked] chosen files. *)
Definition handleMultiUpload (a : App) (picked : nat) : App :=
  if Nat.eqb picked 0 then a
  else setPanOffset (setZoom (setActiveIdx a 0) 1) origin.

(** The Clear All button. *)
Definition clearAll (a : App) : App :=
  setPanOffset
    (setZoom (setActiveCropId (setActiveIdx (set_boxesMap a ∅) 0) None) 1)
    origin.

(** The [.map] callback of [handleVendorChange]. *)
Definition reprefix (prefix : string) (b : CropBox) : CropBox :=
  match itemNumber b with
  | EmptyString => b
  | s => if startsWith s prefix then b
         else set_itemNumber b (prefix +:+ drop_upper 3 s)
  end.

(** [handleVendorChange] *)
Definition handleVendorChange (a : App) (vid : string) : App :=
  let a1 :=
    {| mode := mode a; viewMode := viewMode a;
       selectedVendorId := vid; activeIdx := activeIdx a;
       boxesMap := boxesMap a; canvasRefs := canvasRefs a;
       zoom := zoom a; panOffset := panOffset a;
       isPanning := isPanning a; panStart := panStart a;
       isDragging := isDragging a; isResizing := isResizing a;
       dragStart := dragStart a; resizeHandle := resizeHandle a;
       activeCropId := activeCropId a;
       resizeStartBoxRef := resizeStartBoxRef a |} in
  let prefix := getVendorPrefix vid in
  match prefix with
  | EmptyString => a1
  | _ =>
      set_boxesMap a1 (fmap (map (reprefix prefix)) (boxesMap a1))
  end.

(** *** Canvases *)

(** A canvas element as it is mounted: no [dataset] yet, the default
    300 x 150 size. *)
Definition blank_canvas : Canvas :=
  {| ds_scale := None; ds_originalWidth := None; ds_originalHeight := None;
     canvas_width := 300; canvas_height := 150; cursor := "" |}.

(** [setCanvasRef(i)(el)] with an element, and with [null]. *)
Definition mountCanvas (a : App) (i : nat) : App :=
  set_canvasRefs a (<[i := blank_canvas]> (canvasRefs a)).

Definition unmountCanvas (a : App) (i : nat) : App :=
  set_canvasRefs a (delete i (canvasRefs a)).

(** [drawCanvas(index)] at the moment the image, of size
    [imgW] x [imgH], has loaded: the part that sizes the canvas and writes
    its [dataset] (the drawing itself changes no state). *)
Definition drawCanvas (a : App) (index : nat) (imgW imgH : Z)
  (devicePixelRatio : Q) : App :=
  match canvasRefs a !! index with
  | None => a
  | Some canvas =>
      let useZoom := if Nat.eqb index (activeIdx a) then zoom a else 1 in
      let usePan := if Nat.eqb index (activeIdx a) then panOffset a
                    else origin in
      let maxW := 900 in
      let maxH := 640 in
      let base := Math_min (Math_min (maxW / inject_Z imgW)
                                     (maxH / inject_Z imgH)) 1 in
      let scale := base * useZoom in
      let cw := Math_min maxW (inject_Z imgW * scale + Math_abs (px usePan)) in
      let ch := Math_min maxH (inject_Z imgH * scale + Math_abs (py usePan)) in
      let dpr := Math_max 1 (or_num devicePixelRatio 1) in
      set_canvasRefs a
        (<[index :=
             {| ds_scale := Some scale;
                ds_originalWidth := Some (inject_Z imgW);
                ds_originalHeight := Some (inject_Z imgH);
                canvas_width := inject_Z (Math_round (cw * dpr));
                canvas_height := inject_Z (Math_round (ch * dpr));
                cursor := cursor canvas |}]>
           (canvasRefs a))
  end.

(** *** The editor as a transition system *)

(** The edits offered by a row of the box list: the label field, the two
    rotation buttons (which pass the row's rotation -/+ 0.15) and the flip
    toggle. *)
Inductive Edit :=
| SetLabel (s : string)
| SetRotation (r : Q)
| SetFlip (f : bool).

Definition edit_updates (ed : Edit) : Updates :=
  match ed with
  | SetLabel s =>
      {| u_x := None; u_y := None; u_rotation := None;
         u_flipVertical := None; u_itemNumber := Some s |}
  | SetRotation r =>
      {| u_x := None; u_y := None; u_rotation := Some r;
         u_flipVertical := None; u_itemNumber := None |}
  | SetFlip f =>
      {| u_x := None; u_y := None; u_rotation := None;
         u_flipVertical := Some f; u_itemNumber := None |}
  end.

(** In the All view every row control first runs
    [setActiveIdx(i); setActiveCropId(box.id)]; in the Single view it does
    not ([view_index = None]).  [updateCropBox] and [removeCropBox] act on
    the image that was focused when the view was rendered. *)
Definition focus_row (a : App) (view_index : option nat) (boxId : Z) : App :=
  match view_index with
  | Some i => setActiveCropId (setActiveIdx a i) (Some boxId)
  | None => a
  end.

(** The user actions and completions that change the state above. *)
Inductive Event :=
| MouseDown (ev : MouseEvent) (index : nat)
| MouseMove (ev : MouseEvent) (index : nat)
| MouseUp
| KeyDown (ev : KeyboardEvent)
| AddBox (index : option nat)
| RowSelect (view_index : option nat) (boxId : Z)
| RowEdit (view_index : option nat) (boxId : Z) (ed : Edit)
| RowRemove (view_index : option nat) (boxId : Z)
| ThumbClick (i : nat)
| FocusClick (i : nat)
| ZoomIn
| ZoomOut
| ResetView
| SetMode (m : Mode)
| SetViewMode (v : ViewMode)
| VendorChange (vid : string)
| Upload (picked : nat)
| CatalogDetected (idx : nat) (result : option (list string))
| ScreenshotDetected (idx : nat) (W H : Z) (result : option (list string))
| MountCanvas (i : nat)
| UnmountCanvas (i : nat)
| Draw (index : nat) (imgW imgH : Z) (devicePixelRatio : Q)
| ClearAll.

Definition setMode (a : App) (m : Mode) : App :=
  {| mode := m; viewMode := viewMode a;
     selectedVendorId := selectedVendorId a; activeIdx := activeIdx a;
     boxesMap := boxesMap a; canvasRefs := canvasRefs a;
     zoom := zoom a; panOffset := panOffset a;
     isPanning := isPanning a; panStart := panStart a;
     isDragging := isDragging a; isResizing := isResizing a;
     dragStart := dragStart a; resizeHandle := resizeHandle a;
     activeCropId := activeCropId a;
     resizeStartBoxRef := resizeStartBoxRef a |}.

Definition setViewMode (a : App) (v : ViewMode) : App :=
  {| mode := mode a; viewMode := v;
     selectedVendorId := selectedVendorId a; activeIdx := activeIdx a;
     boxesMap := boxesMap a; canvasRefs := canvasRefs a;
     zoom := zoom a; panOffset := panOffset a;
     isPanning := isPanning a; panStart := panStart a;
     isDragging := isDragging a; isResizing := isResizing a;
     dragStart := dragStart a; resizeHandle := resizeHandle a;
     activeCropId := activeCropId a;
     resizeStartBoxRef := resizeStartBoxRef a |}.

Definition step (a : App) (ev : Event) : App :=
  match ev with
  | MouseDown e i => handleMouseDown a e i
  | MouseMove e i => handleMouseMove a e i
  | MouseUp => handleMouseUp a
  | KeyDown e => onKey a e
  | AddBox i => addCropBox a i
  | RowSelect (Some i) b => setActiveCropId (setActiveIdx a i) (Some b)
  | RowSelect None b => setActiveCropId a (Some b)
  | RowEdit v b ed => focus_row (updateCropBox a b (edit_updates ed)) v b
  | RowRemove v b => focus_row (removeCropBox a b) v b
  | ThumbClick i => setActiveByThumb a i
  | FocusClick i => focusButton a i
  | ZoomIn => handleZoomIn a
  | ZoomOut => handleZoomOut a
  | ResetView => handleResetView a
  | SetMode m => setMode a m
  | SetViewMode v => setViewMode a v
  | VendorChange vid => handleVendorChange a vid
  | Upload picked => handleMultiUpload a picked
  | CatalogDetected idx result =>
      seed a idx (catalog_seed (selectedVendorId a) result)
  | ScreenshotDetected idx W H result =>
      seed a idx (screenshot_seed (selectedVendorId a) W H result)
  | MountCanvas i => mountCanvas a i
  | UnmountCanvas i => unmountCanvas a i
  | Draw i imgW imgH dpr => drawCanvas a i imgW imgH dpr
  | ClearAll => clearAll a
  end.

Definition run (a : App) (evs : list Event) : App := fold_left step evs a.

(** The state of a freshly mounted component. *)
Definition initial : App :=
  {| mode := catalog; viewMode := single; selectedVendorId := "";
     activeIdx := 0%nat; boxesMap := ∅; canvasRefs := ∅;
     zoom := 1; panOffset := origin;
     isPanning := false; panStart := origin;
     isDragging := false; isResizing := false;
     dragStart := origin; resizeHandle := None;
     activeCropId := None; resizeStartBoxRef := None |}.

End Client.

(** ** Vocabulary of the server properties

    The definitions the statements below are written with: the wording of
    the specification where a statement is compared with it, the trace of
    a crop batch, and a small platform on which the routes can be run. *)

Module ServerSpec.
Import JS Server.

(** The threshold the specification words describe:
    [max(round(0.015 * H), 15)]. *)
Definition spec_merge_threshold (H : Z) : Z :=
  Z.max (Math_round (inject_Z H * (15 # 1000))) 15.

(** "merges into the previous kept one if their vertical centers differ
    by less than the threshold", in the specification's words. *)
Definition spec_merges (H : Z) (last d : Candidate) : Prop :=
  Qabs (cy (word d) - cy (word last)) < inject_Z (spec_merge_threshold H).

(** "mirror the extracted image vertically": the rows in reverse order. *)
Definition mirror_vertical (img : Image) : Image := rev img.

(** The names the collision loop tries, in order: [NAME.png], [NAME_1.png],
    [NAME_2.png], ... *)
Definition candidate (clean : string) (j : N) : string :=
  if N.eqb j 0 then clean +:+ ".png" else suffixed clean j.

(** The boxes of a batch with what became of each, in input order; every
    box is tried in the world its predecessors left. *)
Fixpoint attempts (P : Platform) (inputPath : string) (W H : Z)
  (wd : World) (crops : list CropReq) : list (CropReq * Exn Cropped) :=
  match crops with
  | [] => []
  | c :: rest =>
      let '(wd', r) := crop_box P inputPath W H wd c in
      (c, r) :: attempts P inputPath W H wd' rest
  end.

(** The directory and the clock after the boxes of a batch, each tried in
    the world its predecessors left. *)
Fixpoint world_after (P : Platform) (inputPath : string) (W H : Z)
  (wd : World) (crops : list CropReq) : World :=
  match crops with
  | [] => wd
  | c :: rest =>
      world_after P inputPath W H (fst (crop_box P inputPath W H wd c)) rest
  end.

(** A batch of objects, as the array the loop iterates. *)
Definition objects (crops : list CropReq) : list Entry :=
  map entry_box crops.

(** The entries of the boxes that did not throw. *)
Fixpoint successes (tr : list (CropReq * Exn Cropped)) : list Cropped :=
  match tr with
  | [] => []
  | (_, Ok r) :: rest => r :: successes rest
  | (_, Throw _) :: rest => successes rest
  end.

(** *** Recognizer words used in examples *)

Definition bbox_word (t : string) (a b c d conf : Q) : OcrWord :=
  {| w_text := Some t;
     w_bbox := Some {| x0 := Some a; y0 := Some b;
                       x1 := Some c; y1 := Some d |};
     w_x0 := None; w_y0 := None; w_x1 := None; w_y1 := None;
     w_confidence := Some conf; w_conf := None |}.

Definition data_of (ws : list OcrWord) : OcrData := Some (Some ws).

Definition cand_of (w : OcrWord) : Candidate := toCandidate (toWord 0 w).

(** Two words on a 1000 x 400 image, vertical centers 110 and 120. *)
Definition low_a : OcrWord := bbox_word "1234" 10 100 50 120 90.
Definition low_b : OcrWord := bbox_word "5678" 10 110 50 130 80.

(** Words on a 1000 x 2000 image, vertical centers 130 ([tall_a], in two
    confidences), 140, 160 and 180. *)
Definition tall_a : OcrWord := bbox_word "1234" 10 100 150 160 80.
Definition tall_a95 : OcrWord := bbox_word "1234" 10 100 150 160 95.
Definition tall_b10 : OcrWord := bbox_word "5678" 10 110 150 170 90.
Definition tall_b30 : OcrWord := bbox_word "5678" 10 130 150 190 90.
Definition tall_b50 : OcrWord := bbox_word "5678" 10 150 150 210 90.

(** *** A reference platform for concrete runs *)

Definition image_height (img : Image) : Z := Z.of_nat (length img).
Definition image_width (img : Image) : Z :=
  Z.of_nat (length (hd [] img)).

(** [extract] on a decoded bitmap: the rows and columns of the rectangle,
    an exception when it does not lie inside the bitmap. *)
Definition extract (img : Image) (r : Rect) : Exn Image :=
  if (0 <=? left r)%Z && (0 <=? top r)%Z
     && (0 <? r_width r)%Z && (0 <? r_height r)%Z
     && (left r + r_width r <=? image_width img)%Z
     && (top r + r_height r <=? image_height img)%Z
  then Ok (map (fun row => firstn (Z.to_nat (r_width r))
                             (skipn (Z.to_nat (left r)) row))
             (firstn (Z.to_nat (r_height r))
                (skipn (Z.to_nat (top r)) img)))
  else Throw "extract_area: bad extract area".

(** A platform over a read-only upload directory [disk]: the recognizer
    answers [ocr buf], preprocessing leaves bitmaps as they are, only the
    rotation by 0 degrees is available, [parse] decodes the payloads, and
    the output directory refuses the names in [readonly].  The messages
    of the two TypeErrors are those of V8. *)
Definition ref_platform (disk : string -> option Image)
  (ocr : Buffer -> list OcrWord)
  (parse : string -> option Payload)
  (readonly : list string) : Platform :=
  let meta path :=
    match disk path with
    | Some img => Ok (Some (image_width img), Some (image_height img))
    | None => Throw "Input file is missing"
    end in
  {| Worker := unit;
     createWorker := Ok tt;
     setParameters := fun _ _ => Ok tt;
     recognize := fun _ buf _ => Ok (data_of (ocr buf));
     terminate := fun _ => Ok tt;
     exif_metadata := meta;
     pre_common := fun path _ =>
       match disk path with
       | Some img => Ok img
       | None => Throw "Input file is missing"
       end;
     pre_strong := fun buf => Ok buf;
     extract_resize := fun buf r _ => extract buf r;
     metadata := meta;
     rotate_extract := fun path angle r =>
       match disk path with
       | Some img =>
           if Qeq_bool angle 0 then extract img r
           else Throw "rotation not available"
       | None => Throw "Input file is missing"
       end;
     Math_cos := fun t => if Qeq_bool t 0 then 1 else 0;
     Math_sin := fun t => 0;
     Math_PI := 355 # 113;
     JSON_parse := fun s =>
       match parse s with
       | Some crops => Ok crops
       | None => Throw "Unexpected token in JSON"
       end;
     null_read := fun p =>
       "Cannot read properties of null (reading '" +:+ p +:+ "')";
     not_iterable := "crops is not iterable";
     mkdirSync := Ok tt;
     write_ok := fun _ name _ =>
       negb (existsb (String.eqb name) readonly);
     tick := N.succ |}.

(** A 4 x 3 bitmap stored as [upload.png]. *)
Definition sample : Image :=
  [[11; 12; 13; 14]; [21; 22; 23; 24]; [31; 32; 33; 34]]%Z.

Definition sample_disk (path : string) : option Image :=
  if String.eqb path "upload.png" then Some sample else None.

(** The recognizer of the examples sees one small word at the left edge
    of a bitmap of three rows and nothing on any other bitmap (such as a
    region of one row). *)
Definition sample_ocr (buf : Buffer) : list OcrWord :=
  if Nat.eqb (length buf) 3
  then [bbox_word "1234" 0 (28 # 10) (3 # 10) (295 # 100) 90]
  else [].

Definition box_req (x y w h : Q) (rot : option Q) (label : string)
  (flip : option bool) : CropReq :=
  {| c_x := x; c_y := y; c_width := w; c_height := h;
     c_rotation := rot; c_itemNumber := label;
     c_detectColor := None; c_flipVertical := flip |}.

Definition with_flip (c : CropReq) (flip : option bool) : CropReq :=
  {| c_x := c_x c; c_y := c_y c; c_width := c_width c;
     c_height := c_height c; c_rotation := c_rotation c;
     c_itemNumber := c_itemNumber c; c_detectColor := c_detectColor c;
     c_flipVertical := flip |}.

(** The platform of the examples, with a [JSON.parse] that yields
    [payload] for the text it is given. *)
Definition parsing (payload : Payload) : Platform :=
  ref_platform sample_disk sample_ocr (fun _ => Some payload)
    ["LOCKED.png"%string].

Definition sample_platform : Platform := parsing (payload_array []).

Definition empty_world : World := {| files := ∅; clock := 1700000000000 |}.

(** Boxes over [sample]: the whole bitmap, flagged for flipping; a box
    rotated by 5 degrees, which the reference platform cannot extract; an
    inner 2 x 2 box carrying the first box's label; a box whose name the
    output directory refuses. *)
Definition whole_flipped : CropReq :=
  box_req 0 0 4 3 None "ab-12!" (Some true).
Definition rotated : CropReq := box_req 0 0 1 1 (Some 5) "x77" None.
Definition inner : CropReq := box_req 1 1 2 2 (Some 0) "ab-12!" None.
Definition refused : CropReq := box_req 0 0 1 1 None "locked" None.

(** A batch whose second element is [null], and a request that uploads
    [sample]. *)
Definition null_batch : list Entry :=
  [entry_box whole_flipped; entry_null; entry_box inner].

Definition upload_request : CropRequest :=
  {| catalogImage := Some "upload.png"%string;
     multipleCrops := Some "[...]"%string |}.

Definition nurre_request : DetectRequest :=
  {| file := Some "upload.png"%string;
     query_strategy := Some "nurre"%string;
     body_strategy := None; header_strategy := None |}.

Definition no_file_request : DetectRequest :=
  {| file := None; query_strategy := None;
     body_strategy := None; header_strategy := None |}.

End ServerSpec.

(** ** Vocabulary of the editor properties *)

Module ClientSpec.
Import JS Client.

(** The minimum size of a box. *)
Definition size_ok (b : CropBox) : Prop :=
  50 <= width b /\ 20 <= height b.

(** The origin is not left of or above the image. *)
Definition origin_ok (b : CropBox) : Prop :=
  0 <= x b /\ 0 <= y b.

(** The far edges are inside an image of size [W] x [H]. *)
Definition fits (W H : Q) (b : CropBox) : Prop :=
  x b + width b <= W /\ y b + height b <= H.

(** The invariant in the specification's words: [width >= 50],
    [height >= 20], [0 <= x], [x + width <= imageWidth], [0 <= y],
    [y + height <= imageHeight]. *)
Definition spec_invariant (W H : Q) (b : CropBox) : Prop :=
  50 <= width b /\ 20 <= height b
  /\ 0 <= x b /\ x b + width b <= W
  /\ 0 <= y b /\ y b + height b <= H.

(** The part of it every mutation keeps. *)
Definition kept_invariant (b : CropBox) : Prop :=
  size_ok b /\ origin_ok b.

(** A property of all boxes of all images. *)
Definition all_boxes (Pb : CropBox -> Prop) (a : App) : Prop :=
  forall i bs, boxesMap a !! i = Some bs -> Forall Pb bs.

(** Screenshot seeding derives the box size from the image size; the
    boxes have the minimum size from 112 x 43 pixels on. *)
Definition seedable (ev : Event) : Prop :=
  match ev with
  | ScreenshotDetected _ W H _ => (112 <= W)%Z /\ (43 <= H)%Z
  | _ => True
  end.

(** The edges a resize is said to keep in place. *)
Definition right_edge (b : CropBox) : Q := x b + width b.
Definition bottom_edge (b : CropBox) : Q := y b + height b.

(** The handles on the top or left side. *)
Definition moves_left (h : Handle) : bool :=
  match h with h_w | h_nw | h_sw => true | _ => false end.
Definition moves_top (h : Handle) : bool :=
  match h with h_n | h_nw | h_ne => true | _ => false end.

(** *** Example states *)

Definition box_at (i : Z) (bx by_ bw bh : Q) : CropBox :=
  {| id := i; x := bx; y := by_; width := bw; height := bh;
     itemNumber := "PR100"; color := "#00ff00";
     rotation := Some 0; flipVertical := Some false |}.

Definition at_point (cx cy : Q) (shift : bool) : MouseEvent :=
  {| clientX := cx; clientY := cy; shiftKey := shift;
     rect_left := 0; rect_top := 0 |}.

Definition press (k : string) (shift : bool) : KeyboardEvent :=
  {| key := k; k_shiftKey := shift |}.

(** One 1000 x 1000 image is uploaded, its canvas mounted and drawn, and
    the server found no item number: a single seeded box. *)
Definition opened_1000 : App :=
  run initial
    [Upload 1; MountCanvas 0; CatalogDetected 0 (Some []);
     Draw 0 1000 1000 1].

(** Two images, the first focused, zoomed to 2x and panned. *)
Definition zoomed_two : App :=
  run initial
    [Upload 2; MountCanvas 0; MountCanvas 1;
     CatalogDetected 0 (Some []); CatalogDetected 1 (Some []);
     Draw 0 1000 1000 1; Draw 1 1000 1000 1;
     ZoomIn; ZoomIn; ZoomIn; ZoomIn;
     MouseDown (at_point 5 5 true) 0; MouseMove (at_point 35 45 true) 0;
     MouseUp].

(** Some box of image [i] breaks the stated invariant. *)
Definition violates (W H : Q) (a : App) (i : nat) : Prop :=
  exists b, In b (boxes_of (boxesMap a) i) /\ ~ spec_invariant W H b.

(** A 300 x 200 image with its seeded box. *)
Definition opened_300 : App :=
  run initial
    [Upload 1; MountCanvas 0; CatalogDetected 0 (Some []);
     Draw 0 300 200 1].

(** In [opened_1000] (drawn at scale 0.64) the seeded box is dragged by
    its body as far right as it goes. *)
Definition dragged_right : App :=
  run opened_1000
    [MouseDown (at_point 64 64 false) 0;
     MouseMove (at_point 640 64 false) 0;
     MouseUp].

(** In [opened_1000] the seeded box is widened with its east handle up to
    the right image border, then its west handle is grabbed 8px inside
    the box and pulled to the left image border. *)
Definition widened : App :=
  run opened_1000
    [MouseDown (at_point (3008 # 10) (704 # 10) false) 0;
     MouseMove (at_point 640 (704 # 10) false) 0;
     MouseUp].

Definition widened_twice : App :=
  run widened
    [MouseDown (at_point (3712 # 100) (704 # 10) false) 0;
     MouseMove (at_point 0 (704 # 10) false) 0;
     MouseUp].

(** A 100 x 100 box at (100, 100), and a pointer that grabbed its west
    edge at (100, 150). *)
Definition square : CropBox := box_at 1 100 100 100 100.
Definition west_grab : Point := {| px := 100; py := 150 |}.

End ClientSpec.

(** ** More of the server: the rotated canvas *)

Module ServerMore.
Import JS Server.

(** The extents [RW] x [RH] of the rotated canvas the crop route computes
    for a box (the lines from [const angle] to [const RH]). *)
Definition canvas_size (P : Platform) (W H : Z) (c : CropReq) : Z * Z :=
  let angle := nullish (c_rotation c) 0 in
  let theta := - angle * Math_PI P / 180 in
  let cx := inject_Z W / 2 in
  let cy := inject_Z H / 2 in
  let p1 := rotPt P 0 0 cx cy theta in
  let p2 := rotPt P (inject_Z W) 0 cx cy theta in
  let p3 := rotPt P (inject_Z W) (inject_Z H) cx cy theta in
  let p4 := rotPt P 0 (inject_Z H) cx cy theta in
  let minX := min4 (fst p1) (fst p2) (fst p3) (fst p4) in
  let minY := min4 (snd p1) (snd p2) (snd p3) (snd p4) in
  let maxX := max4 (fst p1) (fst p2) (fst p3) (fst p4) in
  let maxY := max4 (snd p1) (snd p2) (snd p3) (snd p4) in
  (Math_round (maxX - minX), Math_round (maxY - minY)).

(** The sorted [candidates] of [detectPresto], before the row dedup. *)
Definition presto_candidates (imgW imgH : Z) (data : OcrData)
  : list Candidate :=
  sort presto_order
    (List.filter (presto_keep imgW imgH)
       (map toCandidate (map (toWord 0) (words_of data)))).

(** The filtered [candidates] of [detectNurreBig], before the sort. *)
Definition nurre_candidates (fullH : Z) (data : OcrData) : list Candidate :=
  List.filter (nurre_keep fullH)
    (map toCandidate
       (map (toWord (inject_Z (fullH - nurre_ROI_H fullH)))
          (words_of data))).

(** A box given in whole pixels, as the client sends it. *)
Definition pixel_box (xi yi wi hi : Z) (rot : option Q) (label : string)
  : CropReq :=
  {| c_x := inject_Z xi; c_y := inject_Z yi;
     c_width := inject_Z wi; c_height := inject_Z hi;
     c_rotation := rot; c_itemNumber := label;
     c_detectColor := None; c_flipVertical := None |}.

End ServerMore.

(** ** More of the client: vocabulary of the editor invariants *)

Module ClientMore.
Import JS Client.

(** The ids of the boxes of one image: pairwise different and at least 1
    (an id of 0 would read as no selection in [if (!activeCropId)]). *)
Definition ids_ok (bs : list CropBox) : Prop :=
  NoDup (map id bs) /\ Forall (fun b => (1 <= id b)%Z) bs.

(** A property of the box list of every image. *)
Definition all_lists (Pl : list CropBox -> Prop) (a : App) : Prop :=
  forall i bs, boxesMap a !! i = Some bs -> Pl bs.

(** The zoom levels the buttons can reach: quarters from 0.5 to 3. *)
Definition quarter_step (z : Q) : Prop :=
  exists k : Z, (2 <= k <= 12)%Z /\ z == inject_Z k / 4.

(** No pan, drag or resize gesture is in progress. *)
Definition idle (a : App) : Prop :=
  isPanning a = false /\ isDragging a = false /\ isResizing a = false.

(** The image coordinates the pointer handlers compute for an event on
    the canvas of image [index]: [(x - pan.x) / scale] and
    [(y - pan.y) / scale], the pan being that of the focused image. *)
Definition image_point (a : App) (canvas : Canvas) (ev : MouseEvent)
  (index : nat) : Point :=
  let x := clientX ev - rect_left ev in
  let y := clientY ev - rect_top ev in
  let scale := nullish (ds_scale canvas) 1 in
  let pan := if Nat.eqb index (activeIdx a) then panOffset a else origin in
  {| px := (x - px pan) / scale; py := (y - py pan) / scale |}.

(** The image size the handlers clamp against: the [dataset] entries of
    the canvas, or its own size before the first draw. *)
Definition clamp_width (canvas : Canvas) : Q :=
  nullish (ds_originalWidth canvas) (canvas_width canvas).
Definition clamp_height (canvas : Canvas) : Q :=
  nullish (ds_originalHeight canvas) (canvas_height canvas).

(** [st] differs from [a] at most in the boxes of the image focused in
    [a]. *)
Definition same_frame (st a : App) : Prop :=
  activeIdx st = activeIdx a /\ panOffset st = panOffset a
  /\ activeCropId st = activeCropId a /\ zoom st = zoom a
  /\ forall j, j <> activeIdx a ->
       boxes_of (boxesMap st) j = boxes_of (boxesMap a) j.


(** The cursor styles the hover branch of [handleMouseMove] writes. *)
Definition hover_cursors : list string :=
  ["grab"; "default"; "nwse-resize"; "move"]%string.

(** The canvas of the example state [opened_1000] after its draw. *)
Definition drawn_1000 : Canvas :=
  Eval vm_compute in
    default blank_canvas (canvasRefs ClientSpec.opened_1000 !! 0%nat).

End ClientMore.

(** ** Properties of the server *)

Module ServerFacts.
Import JS Server ServerSpec.

(** *** Row deduplication of [detectPresto] *)

Lemma last_elt_snoc {A : Type} (l : list A) (a : A) :
  last_elt (l ++ [a]) = Some a.
Proof.
  unfold last_elt. rewrite length_app, Nat.add_comm. simpl.
  rewrite lookup_app_r by lia. now rewrite Nat.sub_diag.
Qed.

Lemma replace_last {A : Type} (l : list A) (a b : A) :
  <[Nat.pred (length (l ++ [a])) := b]> (l ++ [a]) = l ++ [b].
Proof.
  rewrite length_app, Nat.add_comm. simpl.
  rewrite insert_app_r_alt by lia. now rewrite Nat.sub_diag.
Qed.

(** What one loop iteration does to a non-empty [dedup]. *)
Lemma dedup_step_snoc (gap : Z) (pre : list Candidate) (last d : Candidate) :
  dedup_step gap (pre ++ [last]) d =
  pre ++ (if leb (Math_abs (cy (word d) - cy (word last))) (inject_Z gap)
          then [if ltb (wconf (word last)) (wconf (word d)) then d else last]
          else [last; d]).
Proof.
  unfold dedup_step. rewrite last_elt_snoc. unfold ltb at 1, leb.
  destruct (Qle_bool _ _); simpl.
  - destruct (ltb _ _); [apply replace_last | reflexivity].
  - now rewrite <- app_assoc.
Qed.

(** C3, as stated, fails: on a 400px-tall image the code's gap is
    [round(6) = 6], not [max(6, 15) = 15]; two candidates that pass every
    filter with centers 10px apart are within the stated threshold and
    are both kept. *)
Lemma row_dedup_claim_fails :
  spec_merges 400 (cand_of low_a) (cand_of low_b)
  /\ presto_keep 1000 400 (cand_of low_a) = true
  /\ presto_keep 1000 400 (cand_of low_b) = true
  /\ dedup_rows (MERGE_GAP 400) [cand_of low_a; cand_of low_b]
     = [cand_of low_a; cand_of low_b]
  /\ itemNumbers (presto_post 1000 400 (data_of [low_a; low_b]))
     = ["1234"; "5678"]%string.
Proof. vm_compute. repeat split; reflexivity. Qed.

(** C3 (amended): a candidate merges into the last kept one exactly when
    their vertical centers differ by at most the gap, the gap being
    [round(0.015 * H)] unless that is 0, when it is 15 (and [H = 0] counts
    as 1000); a merge keeps the later candidate only if its confidence is
    strictly higher.  On a 2000px-tall image the gap is 30: centers 10px
    apart merge into the higher-confidence candidate whichever comes
    first, centers 50px apart do not merge, centers exactly 30px apart
    merge. *)
Theorem row_dedup_merge_rule :
  (forall (imgH : Z) (pre : list Candidate) (last d : Candidate),
     dedup_step (MERGE_GAP imgH) (pre ++ [last]) d =
     pre ++ (if leb (Math_abs (cy (word d) - cy (word last)))
                    (inject_Z (MERGE_GAP imgH))
             then [if ltb (wconf (word last)) (wconf (word d))
                   then d else last]
             else [last; d]))
  /\ (forall imgH : Z,
        MERGE_GAP imgH =
        let r := Math_round
                   (inject_Z (if Z.eqb imgH 0 then 1000 else imgH)
                    * (15 # 1000)) in
        if Z.eqb r 0 then 15%Z else r)
  /\ MERGE_GAP 2000 = 30%Z
  /\ itemNumbers (presto_post 1000 2000 (data_of [tall_a; tall_b10]))
     = ["5678"]%string
  /\ itemNumbers (presto_post 1000 2000 (data_of [tall_a95; tall_b10]))
     = ["1234"]%string
  /\ itemNumbers (presto_post 1000 2000 (data_of [tall_a; tall_b50]))
     = ["1234"; "5678"]%string
  /\ itemNumbers (presto_post 1000 2000 (data_of [tall_a; tall_b30]))
     = ["5678"]%string.
Proof.
  split; [| split; [| repeat split; vm_compute; reflexivity]].
  - intros. apply dedup_step_snoc.
  - intros. reflexivity.
Qed.

(** *** The detection route *)

(** Both strategies build [itemNumbers] from [detections]. *)
Lemma output_itemNumbers (cs : list Candidate) :
  itemNumbers (output cs) = map d_text (detections (output cs)).
Proof. reflexivity. Qed.

Lemma output_empty (cs : list Candidate) :
  itemNumbers (output cs) = [] -> detections (output cs) = [].
Proof.
  rewrite output_itemNumbers. destruct (detections (output cs)); easy.
Qed.

Lemma detectPresto_shape P buf w h out :
  detectPresto P buf w h = Ok out -> exists cs, out = output cs.
Proof.
  unfold detectPresto, bind. destruct (ocrRecognize _ _ _ _); [| easy].
  intros [= <-]. unfold presto_post. eauto.
Qed.

Lemma detectNurreBig_shape P buf w h out :
  detectNurreBig P buf w h = Ok out -> exists cs, out = output cs.
Proof.
  unfold detectNurreBig, bind. destruct (pre_strong _ _); [| easy].
  destruct (extract_resize _ _ _ _); [| easy].
  destruct (ocrRecognize _ _ _ _); [| easy].
  intros [= <-]. unfold nurre_post. eauto.
Qed.

Lemma is_empty_true {A : Type} (l : list A) : is_empty l = true <-> l = [].
Proof. destruct l; simpl; split; easy. Qed.

(** The answer of a run of the [try] block that did not throw. *)
Lemma detect_try_ok P req path r :
  detect_try P req path = Ok r ->
  exists meta pre out,
    exif_metadata P path = Ok meta
    /\ pre_common P path
         (Z.min 2200 (or_int (nullish (fst meta) 0%Z) 2200)) = Ok pre
    /\ run_strategy P (select_strategy req) pre
         (nullish (fst meta) 0%Z) (nullish (snd meta) 0%Z) = Ok out
    /\ r = json {| b_detections := detections out;
                   b_itemNumbers := itemNumbers out;
                   b_imageWidth := Some (nullish (fst meta) 0%Z);
                   b_imageHeight := Some (nullish (snd meta) 0%Z);
                   b_strategyUsed := Some (select_strategy req) |}.
Proof.
  unfold detect_try, bind.
  destruct (exif_metadata P path) as [meta |] eqn:Em; [| easy].
  destruct (pre_common _ _ _) as [pre |] eqn:Ep; [| easy].
  destruct (run_strategy _ _ _ _ _) as [out |] eqn:E; [| easy].
  intros [= <-]. exists meta, pre, out. repeat split; assumption.
Qed.

Lemma detect_route_file P req path :
  file req = Some path ->
  detect_route P req =
  try_catch (detect_try P req path) (fun _ => json empty_body).
Proof. unfold detect_route. now intros ->. Qed.

(** With a recognizer that never returns a word, a strategy that returns
    at all returns nothing. *)
Lemma ocrRecognize_words P buf lang params data :
  (forall wk b l d, recognize P wk b l = Ok d -> words_of d = []) ->
  ocrRecognize P buf lang params = Ok data -> words_of data = [].
Proof.
  intros Hrec. unfold ocrRecognize, bind.
  destruct (createWorker P) as [wk |]; [| easy].
  destruct (setParameters _ _ _); [| easy].
  destruct (recognize P wk buf lang) eqn:E; [| easy].
  destruct (terminate _ _); [| easy].
  intros [= <-]. eauto.
Qed.

Lemma run_strategy_silent P strategy pre w h out :
  (forall wk b l d, recognize P wk b l = Ok d -> words_of d = []) ->
  run_strategy P strategy pre w h = Ok out ->
  detections out = [] /\ itemNumbers out = [].
Proof.
  intros Hrec.
  assert (Hp : forall o, detectPresto P pre w h = Ok o ->
                         detections o = [] /\ itemNumbers o = []).
  { unfold detectPresto, bind. intros o.
    destruct (ocrRecognize _ _ _ _) eqn:E; [| easy]. intros [= <-].
    unfold presto_post. now rewrite (ocrRecognize_words _ _ _ _ _ Hrec E). }
  assert (Hn : forall o, detectNurreBig P pre w h = Ok o ->
                         detections o = [] /\ itemNumbers o = []).
  { unfold detectNurreBig, bind. intros o.
    destruct (pre_strong _ _); [| easy].
    destruct (extract_resize _ _ _ _); [| easy].
    destruct (ocrRecognize _ _ _ _) eqn:E; [| easy]. intros [= <-].
    unfold nurre_post. now rewrite (ocrRecognize_words _ _ _ _ _ Hrec E). }
  unfold run_strategy, bind. destruct (String.eqb _ _); [| apply Hp].
  destruct (detectNurreBig _ _ _ _) as [o |] eqn:En; [| easy].
  destruct (is_empty _).
  - destruct (detectPresto _ _ _ _) as [o' |] eqn:Ep; [| easy].
    destruct (negb _); intros [= <-]; auto.
  - intros [= <-]; auto.
Qed.

(** C7: the detection route answers every request with status 200; a
    request without a bitmap and a request whose processing throws both
    get the empty answer, and so does, in its two lists, a request on
    which the recognizer finds no word. *)
Theorem detect_route_never_errors (P : Platform) (req : DetectRequest) :
  status (detect_route P req) = 200%Z
  /\ (file req = None -> body (detect_route P req) = empty_body)
  /\ (forall path m,
        file req = Some path -> detect_try P req path = Throw m ->
        body (detect_route P req) = empty_body)
  /\ ((forall wk b l d, recognize P wk b l = Ok d -> words_of d = []) ->
      b_detections (body (detect_route P req)) = []
      /\ b_itemNumbers (body (detect_route P req)) = []).
Proof.
  destruct (file req) as [path |] eqn:Hf.
  - rewrite (detect_route_file _ _ _ Hf).
    destruct (detect_try P req path) as [r | m] eqn:E; simpl.
    + destruct (detect_try_ok _ _ _ _ E) as (meta & pre & out & _ & _ & Ho & ->).
      split; [reflexivity |]. split; [easy |].
      split; [intros p m [= <-] Hm; congruence |].
      intros Hrec. simpl.
      exact (run_strategy_silent _ _ _ _ _ _ Hrec Ho).
    + split; [reflexivity |]. split; [easy |]. split; easy.
  - unfold detect_route. rewrite Hf. simpl.
    split; [reflexivity |]. split; [easy |]. split; easy.
Qed.

Lemma detect_route_never_errors_witness :
  status (detect_route sample_platform no_file_request) = 200%Z
  /\ body (detect_route sample_platform no_file_request) = empty_body.
Proof.
  destruct (detect_route_never_errors sample_platform no_file_request)
    as (Hs & Hnone & _).
  split; [exact Hs | apply Hnone; reflexivity].
Defined.

(** C6: on a request processed with the [nurre] strategy, when
    [detectNurreBig] returns no item number the answer carries the
    detections and item numbers of [detectPresto] run on the same
    preprocessed bitmap. *)
Theorem nurre_falls_back_to_presto (P : Platform) (req : DetectRequest)
  (path : string) (meta : option Z * option Z) (pre : Buffer)
  (nurreOut prestoOut : DetectOut) :
  file req = Some path ->
  select_strategy req = "nurre"%string ->
  exif_metadata P path = Ok meta ->
  pre_common P path (Z.min 2200 (or_int (nullish (fst meta) 0%Z) 2200))
    = Ok pre ->
  detectNurreBig P pre (nullish (fst meta) 0%Z) (nullish (snd meta) 0%Z)
    = Ok nurreOut ->
  itemNumbers nurreOut = [] ->
  detectPresto P pre (nullish (fst meta) 0%Z) (nullish (snd meta) 0%Z)
    = Ok prestoOut ->
  b_detections (body (detect_route P req)) = detections prestoOut
  /\ b_itemNumbers (body (detect_route P req)) = itemNumbers prestoOut.
Proof.
  intros Hf Hs Hm Hp Hn Hempty Hpresto.
  rewrite (detect_route_file _ _ _ Hf).
  unfold detect_try, bind. rewrite Hm, Hp, Hs.
  unfold run_strategy, bind. simpl String.eqb. cbv iota.
  rewrite Hn, Hempty, Hpresto. simpl is_empty. cbv iota.
  destruct (is_empty (itemNumbers prestoOut)) eqn:E; simpl; [| easy].
  apply is_empty_true in E.
  destruct (detectNurreBig_shape _ _ _ _ _ Hn) as [cs ->].
  destruct (detectPresto_shape _ _ _ _ _ Hpresto) as [cs' ->].
  rewrite (output_empty _ Hempty), (output_empty _ E), Hempty, E. easy.
Qed.

Lemma nurre_falls_back_to_presto_witness :
  b_detections (body (detect_route sample_platform nurre_request))
  = detections (presto_post 4 3 (data_of (sample_ocr sample)))
  /\ b_itemNumbers (body (detect_route sample_platform nurre_request))
     = itemNumbers (presto_post 4 3 (data_of (sample_ocr sample))).
Proof.
  apply (nurre_falls_back_to_presto sample_platform nurre_request
           "upload.png" (Some 4%Z, Some 3%Z) sample (output [])
           (presto_post 4 3 (data_of (sample_ocr sample))));
    reflexivity.
Defined.

(** C10, as stated, fails: the answer to a request without a bitmap has
    no [strategyUsed] field at all. *)
Lemma strategy_echo_claim_fails :
  b_strategyUsed (body (detect_route sample_platform no_file_request))
  <> Some (select_strategy no_file_request).
Proof. vm_compute. discriminate. Qed.

(** C10 (amended): for every detection request that carries a bitmap and
    is processed without an exception, [strategyUsed] is the strategy name
    selected from the request: the query parameter if non-empty, else the
    body field if non-empty, else the [x-ocr-strategy] header if
    non-empty, else [presto].  This holds also when [nurre] was selected,
    found nothing, and the detections returned are those of the [presto]
    fallback.  The answers to a request without a bitmap and to a request
    whose processing throws carry no [strategyUsed]. *)
Theorem strategy_echoed :
  (forall (P : Platform) (req : DetectRequest) (path : string)
          (r : DetectResponse),
     file req = Some path -> detect_try P req path = Ok r ->
     b_strategyUsed (body (detect_route P req))
     = Some (select_strategy req))
  /\ (forall (req : DetectRequest) (s : string),
        truthy_str (query_strategy req) = Some s ->
        select_strategy req = s)
  /\ (forall (req : DetectRequest) (s : string),
        truthy_str (query_strategy req) = None ->
        truthy_str (body_strategy req) = Some s ->
        select_strategy req = s)
  /\ (forall (req : DetectRequest) (s : string),
        truthy_str (query_strategy req) = None ->
        truthy_str (body_strategy req) = None ->
        truthy_str (header_strategy req) = Some s ->
        select_strategy req = s)
  /\ (forall req : DetectRequest,
        truthy_str (query_strategy req) = None ->
        truthy_str (body_strategy req) = None ->
        truthy_str (header_strategy req) = None ->
        select_strategy req = "presto"%string)
  /\ (forall (P : Platform) (req : DetectRequest) (path : string)
             (meta : option Z * option Z) (pre : Buffer)
             (nurreOut prestoOut : DetectOut),
        file req = Some path ->
        select_strategy req = "nurre"%string ->
        exif_metadata P path = Ok meta ->
        pre_common P path
          (Z.min 2200 (or_int (nullish (fst meta) 0%Z) 2200)) = Ok pre ->
        detectNurreBig P pre (nullish (fst meta) 0%Z)
          (nullish (snd meta) 0%Z) = Ok nurreOut ->
        itemNumbers nurreOut = [] ->
        detectPresto P pre (nullish (fst meta) 0%Z)
          (nullish (snd meta) 0%Z) = Ok prestoOut ->
        itemNumbers prestoOut <> [] ->
        body (detect_route P req)
        = {| b_detections := detections prestoOut;
             b_itemNumbers := itemNumbers prestoOut;
             b_imageWidth := Some (nullish (fst meta) 0%Z);
             b_imageHeight := Some (nullish (snd meta) 0%Z);
             b_strategyUsed := Some "nurre"%string |})
  /\ (forall (P : Platform) (req : DetectRequest),
        file req = None ->
        b_strategyUsed (body (detect_route P req)) = None)
  /\ (forall (P : Platform) (req : DetectRequest) (path m : string),
        file req = Some path -> detect_try P req path = Throw m ->
        b_strategyUsed (body (detect_route P req)) = None).
Proof.
  split; [| split; [| split; [| split; [| split; [| split; [| split]]]]]].
  - intros P req path r Hf E. rewrite (detect_route_file _ _ _ Hf), E.
    now destruct (detect_try_ok _ _ _ _ E) as (? & ? & ? & _ & _ & _ & ->).
  - intros req s H. unfold select_strategy. now rewrite H.
  - intros req s H1 H2. unfold select_strategy. now rewrite H1, H2.
  - intros req s H1 H2 H3. unfold select_strategy. now rewrite H1, H2, H3.
  - intros req H1 H2 H3. unfold select_strategy. now rewrite H1, H2, H3.
  - intros P req path meta pre nurreOut prestoOut Hf Hs Hm Hp Hn He Hq Hne.
    rewrite (detect_route_file _ _ _ Hf).
    unfold detect_try, bind. rewrite Hm, Hp, Hs.
    unfold run_strategy, bind. simpl String.eqb. cbv iota.
    rewrite Hn, He, Hq. simpl is_empty. cbv iota.
    destruct (itemNumbers prestoOut) eqn:E; [easy |].
    simpl. now rewrite E.
  - intros P req Hf. unfold detect_route. now rewrite Hf.
  - intros P req path m Hf E. now rewrite (detect_route_file _ _ _ Hf), E.
Qed.

Lemma strategy_echoed_witness :
  b_strategyUsed (body (detect_route sample_platform nurre_request))
  = Some "nurre"%string.
Proof.
  destruct strategy_echoed as (H & _).
  apply (H sample_platform nurre_request "upload.png"%string
           (detect_route sample_platform nurre_request));
    reflexivity.
Defined.

(** *** The crop loop *)

Lemma attempts_app (P : Platform) (path : string) (W H : Z)
  (pre post : list CropReq) (wd : World) :
  attempts P path W H wd (pre ++ post)
  = attempts P path W H wd pre
    ++ attempts P path W H (world_after P path W H wd pre) post.
Proof.
  revert wd. induction pre as [| c pre IH]; intros wd; [reflexivity |].
  simpl. destruct (crop_box P path W H wd c) as [wd' r]. simpl.
  now rewrite IH.
Qed.

Lemma successes_app (tr1 tr2 : list (CropReq * Exn Cropped)) :
  successes (tr1 ++ tr2) = successes tr1 ++ successes tr2.
Proof.
  induction tr1 as [| [c [e | m]] tr1 IH]; simpl; [reflexivity | |];
    now rewrite IH.
Qed.

(** The loop over a run of objects goes on, with the directory their
    boxes left and the entries of those that did not throw. *)
Lemma crop_for_objects (P : Platform) (path : string) (W H : Z)
  (crops : list CropReq) (tail : list Entry) (wd : World)
  (acc : list Cropped) :
  crop_for P path W H wd acc (objects crops ++ tail)
  = crop_for P path W H (world_after P path W H wd crops)
      (acc ++ successes (attempts P path W H wd crops)) tail.
Proof.
  revert wd acc. induction crops as [| c rest IH]; intros wd acc; simpl.
  - now rewrite app_nil_r.
  - destruct (crop_box P path W H wd c) as [wd' [r | m]]; simpl.
    + rewrite IH. now rewrite <- app_assoc.
    + apply IH.
Qed.

Lemma crop_loop_objects (P : Platform) (path : string) (W H : Z)
  (crops : list CropReq) (wd : World) :
  crop_loop P path W H wd (objects crops)
  = (world_after P path W H wd crops,
     Ok (successes (attempts P path W H wd crops))).
Proof.
  unfold crop_loop. rewrite <- (app_nil_r (objects crops)).
  now rewrite crop_for_objects.
Qed.

Lemma crop_loop_null (P : Platform) (path : string) (W H : Z)
  (pre : list CropReq) (post : list Entry) (wd : World) :
  crop_loop P path W H wd (objects pre ++ entry_null :: post)
  = (world_after P path W H wd pre, Throw (null_read P "itemNumber")).
Proof. unfold crop_loop. now rewrite crop_for_objects. Qed.

(** An array is a run of objects, followed or not by a first [null]. *)
Lemma entries_split (entries : list Entry) :
  (exists crops, entries = objects crops)
  \/ (exists pre post, entries = objects pre ++ entry_null :: post).
Proof.
  induction entries as [| [| c] rest IH].
  - left. now exists [].
  - right. now exists [], rest.
  - destruct IH as [[crops ->] | (pre & post & ->)].
    + left. now exists (c :: crops).
    + right. now exists (c :: pre), post.
Qed.

Lemma attempts_inputs (P : Platform) (path : string) (W H : Z)
  (crops : list CropReq) (wd : World) :
  map fst (attempts P path W H wd crops) = crops.
Proof.
  revert wd. induction crops as [| c rest IH]; intros wd; [reflexivity |].
  simpl. destruct (crop_box P path W H wd c) as [wd' r]. simpl.
  now rewrite IH.
Qed.

Lemma crop_box_label (P : Platform) (path : string) (W H : Z)
  (wd wd' : World) (c : CropReq) (e : Cropped) :
  crop_box P path W H wd c = (wd', Ok e) ->
  detectedNumber e = c_itemNumber c.
Proof.
  unfold crop_box. destruct (crop_rect P W H c) as [angle rect].
  destruct (rotate_extract _ _ _ _); [| easy].
  destruct (clean_name P wd c) as [clean wd1].
  destruct (write_ok _ _ _ _); [| easy].
  now intros [= _ <-].
Qed.

Lemma attempts_labels (P : Platform) (path : string) (W H : Z)
  (crops : list CropReq) (wd : World) (c : CropReq) (e : Cropped) :
  In (c, Ok e) (attempts P path W H wd crops) ->
  detectedNumber e = c_itemNumber c.
Proof.
  revert wd. induction crops as [| c0 rest IH]; intros wd; [easy |].
  simpl. destruct (crop_box P path W H wd c0) as [wd' r] eqn:E.
  intros [[= -> ->] | Hin]; [| eauto].
  eapply crop_box_label; eauto.
Qed.

Lemma successes_sublist (tr : list (CropReq * Exn Cropped)) :
  (forall c e, In (c, Ok e) tr -> detectedNumber e = c_itemNumber c) ->
  sublist (map detectedNumber (successes tr)) (map c_itemNumber (map fst tr)).
Proof.
  induction tr as [| [c [e | m]] rest IH]; intros Hl; simpl.
  - constructor.
  - rewrite (Hl c e) by now left.
    apply sublist_skip, IH. intros; apply Hl; now right.
  - apply sublist_cons, IH. intros; apply Hl; now right.
Qed.

(** C4 fails on the code for a batch with a [null] element.  For the
    objects of a batch the isolation holds: a box whose processing throws
    is left out and nothing else changes, the boxes before and after it
    are processed as usual, and the answer (status 200) holds one entry
    per box that did not throw, in the order of the input.  But the
    [catch] of the loop reads [c.itemNumber] for its log line: on a
    [null] element that read throws again, the loop is left, the
    elements after it are never processed, and the route answers 500
    although the files of the elements before it have been written.  In
    the batch [null_batch] over [sample] the first box is saved as
    [AB12.png], the third box is not processed, and the answer is 500. *)
Theorem crop_failure_isolated (P : Platform) (path : string) (W H : Z)
  (wd : World) (crops : list CropReq) :
  snd (crop_loop P path W H wd (objects crops))
  = Ok (successes (attempts P path W H wd crops))
  /\ map fst (attempts P path W H wd crops) = crops
  /\ (forall c e, In (c, Ok e) (attempts P path W H wd crops) ->
                  detectedNumber e = c_itemNumber c)
  /\ sublist (map detectedNumber (successes (attempts P path W H wd crops)))
             (map c_itemNumber crops)
  /\ (forall pre c post,
        crops = pre ++ c :: post ->
        let wd1 := fst (crop_loop P path W H wd (objects pre)) in
        let wd2 := fst (crop_box P path W H wd1 c) in
        snd (crop_loop P path W H wd (objects crops))
        = Ok (successes (attempts P path W H wd pre)
              ++ match snd (crop_box P path W H wd1 c) with
                 | Ok e => [e]
                 | Throw _ => []
                 end
              ++ successes (attempts P path W H wd2 post)))
  /\ (forall req meta,
        JSON_parse P (or_str (nullish (multipleCrops req) "") "[]")
          = Ok (payload_array (objects crops)) ->
        catalogImage req = Some path ->
        metadata P path = Ok meta ->
        W = nullish (fst meta) 0%Z -> H = nullish (snd meta) 0%Z ->
        mkdirSync P = Ok tt ->
        snd (crop_route P wd req)
        = CropJson (successes (attempts P path W H wd crops))
        /\ crop_status (snd (crop_route P wd req)) = 200%Z)
  /\ (forall post : list Entry,
        crop_loop P path W H wd (objects crops ++ entry_null :: post)
        = (fst (crop_loop P path W H wd (objects crops)),
           Throw (null_read P "itemNumber")))
  /\ (forall req meta (post : list Entry),
        JSON_parse P (or_str (nullish (multipleCrops req) "") "[]")
          = Ok (payload_array (objects crops ++ entry_null :: post)) ->
        catalogImage req = Some path ->
        metadata P path = Ok meta ->
        W = nullish (fst meta) 0%Z -> H = nullish (snd meta) 0%Z ->
        mkdirSync P = Ok tt ->
        crop_route P wd req
        = (fst (crop_loop P path W H wd (objects crops)),
           CropSend 500 (or_str (null_read P "itemNumber") "Crop failed")))
  /\ snd (crop_loop sample_platform "upload.png" 4 3 empty_world
             (objects [whole_flipped; rotated; refused; inner]))
     = Ok [{| id := "AB12.png"; imageUrl := "/crops/AB12.png";
              detectedNumber := "ab-12!" |};
           {| id := "AB12_1.png"; imageUrl := "/crops/AB12_1.png";
              detectedNumber := "ab-12!" |}]
  /\ crop_status
       (snd (crop_route (parsing (payload_array null_batch)) empty_world
               upload_request)) = 500%Z
  /\ files (fst (crop_route (parsing (payload_array null_batch)) empty_world
                   upload_request)) !! "AB12.png"%string = Some sample
  /\ files (fst (crop_route (parsing (payload_array null_batch)) empty_world
                   upload_request)) !! "AB12_1.png"%string = None
  /\ snd (crop_loop (parsing (payload_array null_batch)) "upload.png" 4 3
             empty_world (objects [whole_flipped; inner]))
     = Ok [{| id := "AB12.png"; imageUrl := "/crops/AB12.png";
              detectedNumber := "ab-12!" |};
           {| id := "AB12_1.png"; imageUrl := "/crops/AB12_1.png";
              detectedNumber := "ab-12!" |}].
Proof.
  split; [now rewrite crop_loop_objects |].
  split; [apply attempts_inputs |].
  split; [apply attempts_labels |].
  split.
  { rewrite <- (attempts_inputs P path W H crops wd) at 2.
    apply successes_sublist, attempts_labels. }
  split.
  { intros pre c post ->. cbv zeta.
    rewrite !crop_loop_objects. cbn [fst snd].
    rewrite attempts_app, successes_app. cbn [attempts].
    destruct (crop_box P path W H (world_after P path W H wd pre) c)
      as [wd' [e | m]]; reflexivity. }
  split.
  { intros req meta Hj Hc Hm -> -> Hd. unfold crop_route.
    rewrite Hj, Hc, Hm, Hd, crop_loop_objects. now split. }
  split.
  { intros post. now rewrite crop_loop_null, crop_loop_objects. }
  split.
  { intros req meta post Hj Hc Hm -> -> Hd. unfold crop_route.
    rewrite Hj, Hc, Hm, Hd, crop_loop_null, crop_loop_objects.
    reflexivity. }
  repeat split; vm_compute; reflexivity.
Qed.

(** *** Output names *)

Lemma length_append_str (s t : string) :
  String.length (s +:+ t) = (String.length s + String.length t)%nat.
Proof. induction s as [| c s IH]; simpl; [reflexivity | now rewrite IH]. Qed.

Lemma append_inv_tail (s1 s2 t : string) : s1 +:+ t = s2 +:+ t -> s1 = s2.
Proof.
  revert s2. induction s1 as [| c s1 IH]; intros [| d s2]; simpl; intros E.
  - reflexivity.
  - exfalso. apply (f_equal String.length) in E. simpl in E.
    rewrite !length_append_str in E. simpl in E. lia.
  - exfalso. apply (f_equal String.length) in E. simpl in E.
    rewrite !length_append_str in E. simpl in E. lia.
  - injection E as -> E. f_equal. now apply IH.
Qed.

Lemma suffixed_inj (clean : string) (i j : N) :
  suffixed clean i = suffixed clean j -> i = j.
Proof.
  unfold suffixed. intros E.
  apply String.app_inj in E. apply (String.app_inj "_") in E.
  apply append_inv_tail in E. now apply pretty_N_inj in E.
Qed.

Lemma suffixed_not_first (clean : string) (j : N) :
  suffixed clean j <> clean +:+ ".png".
Proof.
  unfold suffixed. intros E. apply String.app_inj in E. discriminate.
Qed.

Lemma candidate_inj (clean : string) (i j : N) :
  candidate clean i = candidate clean j -> i = j.
Proof.
  unfold candidate.
  destruct (N.eqb_spec i 0) as [-> | Hi], (N.eqb_spec j 0) as [-> | Hj];
    intros E.
  - reflexivity.
  - symmetry in E. now apply suffixed_not_first in E.
  - now apply suffixed_not_first in E.
  - now apply suffixed_inj in E.
Qed.

Lemma candidate_succ (clean : string) (j : N) :
  suffixed clean (j + 1) = candidate clean (j + 1).
Proof.
  unfold candidate. destruct (N.eqb_spec (j + 1) 0); [lia | reflexivity].
Qed.

Lemma existsSync_true (fs : gmap string Buffer) (name : string) :
  existsSync fs name = true <-> is_Some (fs !! name).
Proof. unfold existsSync. apply bool_decide_eq_true. Qed.

Lemma existsSync_false (fs : gmap string Buffer) (name : string) :
  existsSync fs name = false <-> fs !! name = None.
Proof.
  unfold existsSync. rewrite bool_decide_eq_false.
  now rewrite eq_None_not_Some.
Qed.

(** A loop that stops has found the first free name at or after the one
    it was entered with. *)
Lemma name_loop_some (fuel : nat) (fs : gmap string Buffer) (clean : string)
  (j : N) (name : string) :
  name_loop fuel fs clean (candidate clean j) (j + 1) = Some name ->
  exists i, (j <= i)%N /\ name = candidate clean i
            /\ fs !! candidate clean i = None
            /\ forall k, (j <= k < i)%N -> is_Some (fs !! candidate clean k).
Proof.
  revert j. induction fuel as [| fuel IH]; intros j; simpl; [easy |].
  destruct (existsSync fs (candidate clean j)) eqn:E.
  - rewrite candidate_succ. intros Hl.
    destruct (IH _ Hl) as (i & Hji & -> & Hfree & Hbelow).
    exists i. repeat split; try easy; try lia.
    intros k Hk. destruct (N.eq_dec k j) as [-> | Hne].
    + now apply existsSync_true.
    + apply Hbelow. lia.
  - intros [= <-]. exists j. repeat split; try easy; try lia.
    now apply existsSync_false.
Qed.

(** A loop that runs out of iterations has seen only existing names. *)
Lemma name_loop_none (fuel : nat) (fs : gmap string Buffer) (clean : string)
  (j : N) :
  name_loop fuel fs clean (candidate clean j) (j + 1) = None ->
  forall k, (j <= k < j + N.of_nat fuel)%N ->
            is_Some (fs !! candidate clean k).
Proof.
  revert j. induction fuel as [| fuel IH]; intros j; simpl; [lia |].
  destruct (existsSync fs (candidate clean j)) eqn:E; [| easy].
  rewrite candidate_succ. intros Hl k Hk.
  destruct (N.eq_dec k j) as [-> | Hne].
  - now apply existsSync_true.
  - apply (IH _ Hl). lia.
Qed.

(** A directory cannot hold more pairwise different names than it has
    files. *)
Lemma names_exhausted (fs : gmap string Buffer) (clean : string) :
  ~ (forall k, (0 <= k < 0 + N.of_nat (S (size fs)))%N ->
               is_Some (fs !! candidate clean k)).
Proof.
  intros Hall.
  set (tried := (fun k => candidate clean (N.of_nat k))
                <$> seq 0 (S (size fs))).
  assert (Hnd : NoDup tried).
  { apply NoDup_fmap_2_strong; [| apply NoDup_seq].
    intros a b _ _ E. apply candidate_inj in E. lia. }
  assert (Hsub : list_to_set tried ⊆ dom fs).
  { intros name Hin. apply elem_of_list_to_set in Hin.
    apply list_elem_of_fmap in Hin as (k & -> & Hk).
    apply elem_of_seq in Hk. apply elem_of_dom, Hall. lia. }
  apply subseteq_size in Hsub.
  rewrite size_list_to_set in Hsub by exact Hnd.
  rewrite size_dom in Hsub. unfold tried in Hsub.
  rewrite length_fmap, length_seq in Hsub. lia.
Qed.

Lemma name_loop_total (fs : gmap string Buffer) (clean : string) :
  exists j,
    name_loop (S (size fs)) fs clean (clean +:+ ".png") 1
    = Some (candidate clean j)
    /\ pick_name fs clean = candidate clean j
    /\ fs !! candidate clean j = None
    /\ forall k, (k < j)%N -> is_Some (fs !! candidate clean k).
Proof.
  unfold pick_name.
  change (clean +:+ ".png") with (candidate clean 0).
  change 1%N with (0 + 1)%N.
  destruct (name_loop (S (size fs)) fs clean (candidate clean 0) (0 + 1))
    as [name |] eqn:E.
  - destruct (name_loop_some _ _ _ _ _ E) as (i & _ & -> & Hfree & Hbelow).
    exists i. repeat split; try easy. intros k Hk. apply Hbelow. lia.
  - exfalso. apply (names_exhausted fs clean).
    now apply name_loop_none.
Qed.

Lemma crop_failure_isolated_witness :
  snd (crop_loop sample_platform "upload.png" 4 3 empty_world
         (objects [whole_flipped; rotated; inner]))
  = Ok (successes (attempts sample_platform "upload.png" 4 3 empty_world
                     [whole_flipped])
        ++ match snd (crop_box sample_platform "upload.png" 4 3
                        (fst (crop_loop sample_platform "upload.png" 4 3
                                empty_world (objects [whole_flipped])))
                        rotated) with
           | Ok e => [e]
           | Throw _ => []
           end
        ++ successes
             (attempts sample_platform "upload.png" 4 3
                (fst (crop_box sample_platform "upload.png" 4 3
                        (fst (crop_loop sample_platform "upload.png" 4 3
                                empty_world (objects [whole_flipped])))
                        rotated))
                [inner])).
Proof.
  destruct (crop_failure_isolated sample_platform "upload.png" 4 3
              empty_world [whole_flipped; rotated; inner])
    as (_ & _ & _ & _ & Hsplit & _).
  apply (Hsplit [whole_flipped] rotated [inner]). reflexivity.
Defined.

Lemma upper_char_alnum (c : ascii) :
  is_alnum c = true ->
  is_upper (upper_char c) || is_digit (upper_char c) = true.
Proof.
  destruct c as [[] [] [] [] [] [] [] []]; vm_compute; easy.
Qed.

Lemma strip_label_chars (s : string) :
  forall_str (fun c => is_upper c || is_digit c) (strip_label s) = true.
Proof.
  unfold strip_label.
  replace (or_str s "") with s by now destruct s.
  induction s as [| c s IH]; [reflexivity |]. simpl.
  destruct (is_alnum c) eqn:E; [| exact IH]. simpl.
  unfold toUpperCase in IH. now rewrite (upper_char_alnum _ E), IH.
Qed.

Lemma clean_name_files (P : Platform) (wd : World) (c : CropReq) :
  files (snd (clean_name P wd c)) = files wd.
Proof. unfold clean_name. now destruct (strip_label _). Qed.

(** C5: the output file is named after the label with every character
    other than a letter or digit removed and the letters in upper case,
    followed by [.png]; if a file of that name exists, [NAME_1.png],
    [NAME_2.png], ... are tried in turn and the first name not in the
    directory is taken (the search always ends); a label that is empty
    after stripping is replaced by [CROP] followed by the clock reading.
    Label [ab-12!] gives [AB12.png], and a second box with the same label
    in the same batch gives [AB12_1.png]. *)
Theorem output_name_rule :
  (forall (fs : gmap string Buffer) (clean : string),
     exists j,
       name_loop (S (size fs)) fs clean (clean +:+ ".png") 1
       = Some (candidate clean j)
       /\ pick_name fs clean = candidate clean j
       /\ fs !! candidate clean j = None
       /\ forall k, (k < j)%N -> is_Some (fs !! candidate clean k))
  /\ (forall clean : string,
        candidate clean 0 = clean +:+ ".png"
        /\ candidate clean 1 = clean +:+ "_1.png"
        /\ candidate clean 2 = clean +:+ "_2.png")
  /\ (forall (P : Platform) (path : string) (W H : Z) (wd wd' : World)
             (c : CropReq) (e : Cropped),
        crop_box P path W H wd c = (wd', Ok e) ->
        id e = pick_name (files wd) (fst (clean_name P wd c))
        /\ is_Some (files wd' !! id e))
  /\ (forall (P : Platform) (wd : World) (c : CropReq),
        fst (clean_name P wd c)
        = match strip_label (c_itemNumber c) with
          | EmptyString => "CROP" +:+ pretty (clock wd)
          | s => s
          end)
  /\ (forall label : string,
        strip_label label = toUpperCase (filter_str is_alnum label)
        /\ forall_str (fun c => is_upper c || is_digit c) (strip_label label)
           = true)
  /\ strip_label "ab-12!" = "AB12"%string
  /\ snd (crop_loop sample_platform "upload.png" 4 3 empty_world
             (objects [whole_flipped; inner]))
     = Ok [{| id := "AB12.png"; imageUrl := "/crops/AB12.png";
              detectedNumber := "ab-12!" |};
           {| id := "AB12_1.png"; imageUrl := "/crops/AB12_1.png";
              detectedNumber := "ab-12!" |}].
Proof.
  split; [apply name_loop_total |].
  split; [intros clean; repeat split |].
  split.
  { intros P path W H wd wd' c e. unfold crop_box.
    destruct (crop_rect P W H c) as [angle rect].
    destruct (rotate_extract _ _ _ _) as [buf |]; [| easy].
    destruct (clean_name P wd c) as [clean wd1] eqn:E.
    destruct (write_ok _ _ _ _); [| easy].
    intros [= <- <-]. simpl.
    rewrite <- (clean_name_files P wd c), E. simpl.
    split; [reflexivity |]. rewrite lookup_insert_eq. eauto. }
  split.
  { intros P wd c. unfold clean_name. now destruct (strip_label _). }
  split.
  { intros label. split; [| apply strip_label_chars].
    unfold strip_label. now destruct label. }
  split; vm_compute; reflexivity.
Qed.

Lemma output_name_rule_witness :
  id {| id := "AB12.png"; imageUrl := "/crops/AB12.png";
        detectedNumber := "ab-12!" |}
  = pick_name (files empty_world)
      (fst (clean_name sample_platform empty_world whole_flipped)).
Proof.
  destruct output_name_rule as (_ & _ & Hbox & _).
  refine (proj1 (Hbox sample_platform "upload.png"%string 4%Z 3%Z
                   empty_world
                   (fst (crop_box sample_platform "upload.png" 4 3
                           empty_world whole_flipped))
                   whole_flipped _ _)).
  vm_compute. reflexivity.
Defined.

(** *** The flip flag *)

(** C1 fails on the code: [flipVertical] is never read by the route.  A
    box is processed in the same way whatever the flag says, and the file
    written for a box flagged [flipVertical = true] that covers the whole
    of [sample] holds [sample] itself, not its vertical mirror. *)
Theorem flip_vertical_ignored :
  (forall (P : Platform) (path : string) (W H : Z) (wd : World)
          (c : CropReq) (flip : option bool),
     crop_box P path W H wd (with_flip c flip) = crop_box P path W H wd c)
  /\ c_flipVertical whole_flipped = Some true
  /\ files (fst (crop_loop sample_platform "upload.png" 4 3 empty_world
                   (objects [whole_flipped]))) !! "AB12.png"%string
     = Some sample
  /\ files (fst (crop_loop sample_platform "upload.png" 4 3 empty_world
                   (objects [with_flip whole_flipped (Some false)])))
       !! "AB12.png"%string
     = Some sample
  /\ mirror_vertical sample <> sample.
Proof.
  split; [reflexivity |].
  split; [reflexivity |].
  split; [vm_compute; reflexivity |].
  split; [vm_compute; reflexivity |].
  vm_compute. discriminate.
Qed.

End ServerFacts.

(** ** Properties of the editor *)

Module ClientFacts.
Import JS Client ClientSpec.

(** *** Clamping arithmetic *)

(** Replace every [Qmax] / [Qmin] by a variable with its defining cases. *)
Ltac minmax_cases :=
  repeat match goal with
    | |- context [Qmax ?a ?b] =>
        let H := fresh "Hmax" in
        let m := fresh "m" in
        pose proof (Q.max_spec a b) as H;
        set (m := Qmax a b) in *; clearbody m
    | |- context [Qmin ?a ?b] =>
        let H := fresh "Hmin" in
        let m := fresh "m" in
        pose proof (Q.min_spec a b) as H;
        set (m := Qmin a b) in *; clearbody m
    | H : context [Qmax ?a ?b] |- _ =>
        let H' := fresh "Hmax" in
        let m := fresh "m" in
        pose proof (Q.max_spec a b) as H';
        set (m := Qmax a b) in *; clearbody m
    | H : context [Qmin ?a ?b] |- _ =>
        let H' := fresh "Hmin" in
        let m := fresh "m" in
        pose proof (Q.min_spec a b) as H';
        set (m := Qmin a b) in *; clearbody m
    end.

Ltac minmax :=
  unfold Math_max, Math_min in *; minmax_cases;
  repeat match goal with
    | H : _ \/ _ |- _ => destruct H as [[? ?] | [? ?]]
    end;
  lra.

Lemma clamp_nonneg (lim t : Q) : 0 <= Math_max 0 (Math_min lim t).
Proof. minmax. Qed.

Lemma clamp_upper (lim t : Q) :
  0 <= lim -> Math_max 0 (Math_min lim t) <= lim.
Proof. intros. minmax. Qed.

Lemma clamp_id (lim t : Q) :
  0 <= t -> t <= lim -> Math_max 0 (Math_min lim t) == t.
Proof. intros. minmax. Qed.

Lemma max_floor (lo t : Q) : lo <= Math_max lo t.
Proof. minmax. Qed.

Lemma max_id_when (lo t : Q) : lo <= t -> Math_max lo t == t.
Proof. intros. minmax. Qed.

(** *** The resize and drag callbacks *)

Lemma resize_box_kept (W H ox oy : Q) (ds : Point) (h : Handle)
  (orig box : CropBox) :
  kept_invariant box ->
  kept_invariant (resize_box W H ox oy ds h orig box).
Proof.
  intros [[Hw Hh] _]. unfold kept_invariant, size_ok, origin_ok.
  destruct h; simpl; repeat split;
    first [apply max_floor | apply clamp_nonneg | assumption].
Qed.

Lemma resize_box_fits (W H ox oy : Q) (ds : Point) (h : Handle)
  (orig box : CropBox) :
  (width (resize_box W H ox oy ds h orig box) <= W ->
   x (resize_box W H ox oy ds h orig box)
   + width (resize_box W H ox oy ds h orig box) <= W)
  /\ (height (resize_box W H ox oy ds h orig box) <= H ->
      y (resize_box W H ox oy ds h orig box)
      + height (resize_box W H ox oy ds h orig box) <= H).
Proof.
  destruct h; simpl; split; intros Hle;
    match goal with
    | |- Math_max 0 (Math_min ?lim ?t) + _ <= _ =>
        pose proof (clamp_upper lim t); lra
    end.
Qed.

Lemma drag_box_size (W H ox oy : Q) (ds : Point) (b : CropBox) :
  width (drag_box W H ox oy ds b) = width b
  /\ height (drag_box W H ox oy ds b) = height b.
Proof. split; reflexivity. Qed.

Lemma drag_box_kept (W H ox oy : Q) (ds : Point) (b : CropBox) :
  kept_invariant b -> kept_invariant (drag_box W H ox oy ds b).
Proof.
  intros [[Hw Hh] _]. unfold kept_invariant, size_ok, origin_ok. simpl.
  repeat split; first [apply clamp_nonneg | assumption].
Qed.

Lemma drag_box_fits (W H ox oy : Q) (ds : Point) (b : CropBox) :
  width b <= W -> height b <= H -> fits W H (drag_box W H ox oy ds b).
Proof.
  intros Hw Hh. unfold fits. simpl. split.
  - pose proof (clamp_upper (W - width b) (snap (ox - px ds))). lra.
  - pose proof (clamp_upper (H - height b) (snap (oy - py ds))). lra.
Qed.

(** The geometry fields after [{ ...b, ...updates }]. *)
Lemma apply_updates_kept (vid : string) (b : CropBox) (u : Updates) :
  (forall v, u_x u = Some v -> 0 <= v) ->
  (forall v, u_y u = Some v -> 0 <= v) ->
  kept_invariant b -> kept_invariant (apply_updates vid b u).
Proof.
  intros Hx Hy [[Hw Hh] [H0x H0y]].
  unfold kept_invariant, size_ok, origin_ok. simpl. repeat split; try easy.
  - destruct (u_x u); simpl; auto.
  - destruct (u_y u); simpl; auto.
Qed.

Lemma set_itemNumber_kept (b : CropBox) (s : string) :
  kept_invariant b -> kept_invariant (set_itemNumber b s).
Proof. easy. Qed.

(** *** Seeds and new boxes *)

Lemma inject_Z_le (a b : Z) : (a <= b)%Z -> inject_Z a <= inject_Z b.
Proof. intros Hab. now rewrite <- Zle_Qle. Qed.

Lemma inject_Z_nonneg (z : Z) : (0 <= z)%Z -> 0 <= inject_Z z.
Proof. apply (inject_Z_le 0). Qed.

Lemma max_id_from (prev : list CropBox) (m : Z) :
  (0 <= m)%Z -> (0 <= fold_left (fun m b => Z.max m (id b)) prev m)%Z.
Proof.
  revert m. induction prev as [| b prev IH]; intros m Hm; simpl; [easy |].
  apply IH. lia.
Qed.

Lemma new_box_kept (md : Mode) (prefix : string) (prev : list CropBox) :
  kept_invariant (new_box md prefix prev).
Proof.
  pose proof (max_id_from prev 0 ltac:(lia)) as Hm. fold (max_id prev) in Hm.
  assert (Hn : 0 <= inject_Z (or_int (max_id prev) 0 + 1)).
  { apply inject_Z_nonneg. unfold or_int. destruct (Z.eqb _ _); lia. }
  unfold kept_invariant, size_ok, origin_ok. simpl.
  repeat split; lra.
Qed.

Lemma Forall_imap_all {A B : Type} (Pb : B -> Prop) (f : nat -> A -> B)
  (l : list A) :
  (forall i a, Pb (f i a)) -> Forall Pb (imap f l).
Proof.
  revert f. induction l as [| a l IH]; intros f Hf; simpl; constructor.
  - apply Hf.
  - apply IH. intros i b. apply Hf.
Qed.

Lemma Forall_imap_keep {A : Type} (Pa : A -> Prop) (f : nat -> A -> A)
  (l : list A) :
  (forall i a, Pa a -> Pa (f i a)) -> Forall Pa l -> Forall Pa (imap f l).
Proof.
  revert f. induction l as [| a l IH]; intros f Hf Hl; simpl;
    [constructor |].
  inversion Hl; subst. constructor; [now apply Hf |].
  apply IH; [intros i b; apply Hf | assumption].
Qed.

Lemma catalog_seed_kept (vid : string) (result : option (list string)) :
  Forall kept_invariant (catalog_seed vid result).
Proof.
  unfold catalog_seed. destruct result as [itemNumbers |].
  - apply Forall_imap_all. intros i num.
    pose proof (inject_Z_nonneg (Z.of_nat i) ltac:(lia)).
    unfold kept_invariant, size_ok, origin_ok. simpl. repeat split; nra.
  - repeat constructor; simpl; lra.
Qed.

(** [Math.round] of a ratio of integers, as an integer division. *)
Lemma Math_round_ratio (z : Z) (n d : positive) :
  Math_round (inject_Z z * (Zpos n # d))
  = ((z * Zpos n * 2 + Zpos d) / (Zpos d * 2))%Z.
Proof.
  unfold Math_round, Qfloor, Qplus, Qmult, inject_Z. simpl.
  f_equal; lia.
Qed.

Lemma screenshot_base_kept (vid : string) (W H : Z) :
  (112 <= W)%Z -> (43 <= H)%Z ->
  Forall kept_invariant (screenshot_base vid W H).
Proof.
  intros HW HH. unfold screenshot_base.
  set (colW := Math_floor (inject_Z W / 2)).
  assert (HcolW : (56 <= colW)%Z).
  { unfold colW, Math_floor, Qfloor, Qdiv, Qmult, Qinv, inject_Z. simpl.
    apply Z.div_le_lower_bound; lia. }
  rewrite !Math_round_ratio.
  set (padX := ((colW * 5 * 2 + 100) / (100 * 2))%Z).
  set (topY := ((H * 8 * 2 + 100) / (100 * 2))%Z).
  set (topH := ((H * 60 * 2 + 100) / (100 * 2))%Z).
  set (offY := ((topH * 5 * 2 + 100) / (100 * 2))%Z).
  set (boxH := ((topH * 75 * 2 + 100) / (100 * 2))%Z).
  assert (HpadX : (0 <= padX /\ colW - padX * 2 >= 50)%Z).
  { unfold padX. split; [apply Z.div_pos; lia |].
    pose proof (Z.mul_div_le (colW * 5 * 2 + 100) (100 * 2) ltac:(lia)).
    lia. }
  assert (HtopY : (0 <= topY)%Z) by (apply Z.div_pos; lia).
  assert (HtopH : (26 <= topH)%Z)
    by (apply Z.div_le_lower_bound; lia).
  assert (HoffY : (0 <= offY)%Z) by (apply Z.div_pos; lia).
  assert (HboxH : (20 <= boxH)%Z)
    by (apply Z.div_le_lower_bound; lia).
  unfold kept_invariant, size_ok, origin_ok.
  repeat constructor; simpl;
    first [ apply (inject_Z_le 50); lia
          | apply (inject_Z_le 20); lia
          | apply (inject_Z_le 0); nia ].
Qed.

Lemma screenshot_seed_kept (vid : string) (W H : Z)
  (result : option (list string)) :
  (112 <= W)%Z -> (43 <= H)%Z ->
  Forall kept_invariant (screenshot_seed vid W H result).
Proof.
  intros HW HH. pose proof (screenshot_base_kept vid W H HW HH) as Hb.
  unfold screenshot_seed. destruct result as [itemNumbers |]; [| exact Hb].
  apply Forall_imap_keep; [| exact Hb].
  intros i b Hk. destruct (truthy_str _); [| exact Hk].
  now apply set_itemNumber_kept.
Qed.

(** *** Handlers and the box store *)

Lemma all_boxes_eq (Pb : CropBox -> Prop) (a a' : App) :
  boxesMap a' = boxesMap a -> all_boxes Pb a -> all_boxes Pb a'.
Proof. unfold all_boxes. now intros ->. Qed.

Lemma boxes_of_all (Pb : CropBox -> Prop) (a : App) (i : nat) :
  all_boxes Pb a -> Forall Pb (boxes_of (boxesMap a) i).
Proof.
  intros Ha. unfold boxes_of.
  destruct (boxesMap a !! i) as [bs |] eqn:E; simpl; [eauto | constructor].
Qed.

Lemma all_boxes_seed (Pb : CropBox -> Prop) (a : App) (i : nat)
  (bs : list CropBox) :
  Forall Pb bs -> all_boxes Pb a -> all_boxes Pb (seed a i bs).
Proof.
  intros Hbs Ha j bs'. unfold seed. simpl. rewrite lookup_insert.
  destruct (decide (i = j)); [now intros [= <-] | apply Ha].
Qed.

Lemma all_boxes_update (Pb : CropBox -> Prop) (a : App) (i : nat)
  (f : list CropBox -> list CropBox) :
  (forall bs, Forall Pb bs -> Forall Pb (f bs)) ->
  all_boxes Pb a -> all_boxes Pb (updateBoxesForIndex a i f).
Proof.
  intros Hf Ha. apply (all_boxes_seed Pb a i).
  - apply Hf. now apply boxes_of_all.
  - exact Ha.
Qed.

Lemma Forall_map_keep (Pb : CropBox -> Prop) (f : CropBox -> CropBox)
  (bs : list CropBox) :
  (forall b, Pb b -> Pb (f b)) -> Forall Pb bs -> Forall Pb (map f bs).
Proof.
  intros Hf Hbs. induction Hbs; simpl; constructor; auto.
Qed.

Lemma on_box_keep (Pb : CropBox -> Prop) (i : Z) (f : CropBox -> CropBox)
  (b : CropBox) :
  (forall b, Pb b -> Pb (f b)) -> Pb b -> Pb (on_box i f b).
Proof. intros Hf Hb. unfold on_box. destruct (negb _); auto. Qed.

Lemma Forall_filter_keep (Pb : CropBox -> Prop) (p : CropBox -> bool)
  (bs : list CropBox) :
  Forall Pb bs -> Forall Pb (List.filter p bs).
Proof.
  intros Hbs. induction Hbs as [| b bs Hb Hbs IH]; simpl; [constructor |].
  destruct (p b); [constructor |]; auto.
Qed.

Lemma handleMouseDown_boxes (a : App) (ev : MouseEvent) (index : nat) :
  boxesMap (handleMouseDown a ev index) = boxesMap a.
Proof.
  unfold handleMouseDown.
  destruct (negb _), (canvasRefs a !! index); try reflexivity;
    destruct (find_handle _ _ _) as [[? ?] |]; try reflexivity;
    destruct (find_body _ _ _); try reflexivity;
    destruct (_ || _); reflexivity.
Qed.

Lemma handleMouseMove_kept (a : App) (ev : MouseEvent) (index : nat) :
  all_boxes kept_invariant a ->
  all_boxes kept_invariant (handleMouseMove a ev index).
Proof.
  intros Ha. unfold handleMouseMove.
  destruct (canvasRefs a !! index) as [canvas |]; [| exact Ha].
  destruct (isPanning a && _); [exact Ha |].
  destruct (isResizing a), (truthy_id (activeCropId a)) as [acid |],
    (resizeHandle a) as [h |], (isDragging a);
    try exact Ha;
    try (destruct (resizeStartBoxRef a); [| exact Ha]);
    apply all_boxes_update; try exact Ha; intros bs Hbs;
    apply Forall_map_keep; try exact Hbs; intros b Hb;
    apply on_box_keep; try exact Hb; intros b' Hb';
    first [now apply resize_box_kept | now apply drag_box_kept].
Qed.

Lemma updateCropBox_kept (a : App) (i : Z) (u : Updates) :
  (forall v, u_x u = Some v -> 0 <= v) ->
  (forall v, u_y u = Some v -> 0 <= v) ->
  all_boxes kept_invariant a ->
  all_boxes kept_invariant (updateCropBox a i u).
Proof.
  intros Hx Hy Ha. unfold updateCropBox, updateBoxes.
  apply all_boxes_update; [| exact Ha]. intros bs Hbs.
  apply Forall_map_keep; [| exact Hbs]. intros b Hb.
  destruct (negb _); [exact Hb |]. now apply apply_updates_kept.
Qed.

Lemma key_update_kept (ev : KeyboardEvent) (k : string) (acid : Z)
  (u : Updates) (st : App) :
  (forall v, u_x u = Some v -> 0 <= v) ->
  (forall v, u_y u = Some v -> 0 <= v) ->
  all_boxes kept_invariant st ->
  all_boxes kept_invariant (key_update ev k acid u st).
Proof.
  intros Hx Hy Hst. unfold key_update.
  destruct (String.eqb _ _); [now apply updateCropBox_kept | exact Hst].
Qed.

Lemma removeCropBox_kept (a : App) (i : Z) :
  all_boxes kept_invariant a -> all_boxes kept_invariant (removeCropBox a i).
Proof.
  intros Ha. unfold removeCropBox, updateBoxes.
  apply all_boxes_update; [| exact Ha]. intros bs Hbs.
  destruct (_ <? _)%nat; [now apply Forall_filter_keep | exact Hbs].
Qed.

Lemma find_box_in (i : Z) (bs : list CropBox) (cur : CropBox) :
  find_box i bs = Some cur -> In cur bs /\ id cur = i.
Proof.
  unfold find_box. intros Hf. apply find_some in Hf as [Hin Heq].
  split; [exact Hin | now apply Z.eqb_eq].
Qed.

Lemma onKey_kept (a : App) (ev : KeyboardEvent) :
  all_boxes kept_invariant a -> all_boxes kept_invariant (onKey a ev).
Proof.
  intros Ha. unfold onKey.
  destruct (truthy_id _) as [acid |]; [| exact Ha].
  destruct (find_box _ _) as [cur |] eqn:Hcur; [| exact Ha].
  apply find_box_in in Hcur as [Hin _].
  pose proof (boxes_of_all _ _ (activeIdx a) Ha) as Hall.
  rewrite Forall_forall in Hall.
  destruct (Hall cur ltac:(now apply list_elem_of_In)) as [_ [Hx Hy]].
  assert (Hstep : 0 <= (if k_shiftKey ev then 10 else 1))
    by (destruct (k_shiftKey ev); lra).
  set (stp := if k_shiftKey ev then 10 else 1) in *.
  match goal with
  | |- all_boxes _ (if ?c then removeCropBox ?st _ else _) =>
      assert (Hst : all_boxes kept_invariant st)
  end.
  { repeat apply key_update_kept; try exact Ha; simpl;
      try discriminate; intros v [= <-];
      first [apply max_floor | lra]. }
  destruct (_ && _); [now apply removeCropBox_kept | exact Hst].
Qed.

Lemma focus_row_boxes (a : App) (v : option nat) (b : Z) :
  boxesMap (focus_row a v b) = boxesMap a.
Proof. now destruct v. Qed.

Lemma reprefix_kept (prefix : string) (b : CropBox) :
  kept_invariant b -> kept_invariant (reprefix prefix b).
Proof.
  intros Hb. unfold reprefix. destruct (itemNumber b); [exact Hb |].
  destruct (startsWith _ _); [exact Hb | now apply set_itemNumber_kept].
Qed.

Lemma handleVendorChange_kept (a : App) (vid : string) :
  all_boxes kept_invariant a ->
  all_boxes kept_invariant (handleVendorChange a vid).
Proof.
  intros Ha. unfold handleVendorChange.
  destruct (getVendorPrefix vid) as [| c p]; [exact Ha |].
  intros i bs. unfold set_boxesMap. cbn [boxesMap]. rewrite lookup_fmap.
  destruct (boxesMap a !! i) as [bs0 |] eqn:E; [| easy].
  intros [= <-]. apply Forall_map_keep; [apply reprefix_kept | eauto].
Qed.

Lemma drawCanvas_boxes (a : App) (i : nat) (imgW imgH : Z) (dpr : Q) :
  boxesMap (drawCanvas a i imgW imgH dpr) = boxesMap a.
Proof. unfold drawCanvas. now destruct (canvasRefs a !! i). Qed.

(** Every handler keeps the minimum size and the non-negative origin of
    every box. *)
Lemma step_kept (a : App) (ev : Event) :
  seedable ev ->
  all_boxes kept_invariant a -> all_boxes kept_invariant (step a ev).
Proof.
  intros Hev Ha. destruct ev; simpl.
  - eapply all_boxes_eq; [apply handleMouseDown_boxes | exact Ha].
  - now apply handleMouseMove_kept.
  - exact Ha.
  - now apply onKey_kept.
  - unfold addCropBox. apply all_boxes_update; [| exact Ha].
    intros bs Hbs. apply Forall_app. split; [exact Hbs |].
    repeat constructor; apply new_box_kept.
  - destruct view_index; exact Ha.
  - eapply all_boxes_eq; [apply focus_row_boxes |].
    apply updateCropBox_kept; [| | exact Ha]; now destruct ed.
  - eapply all_boxes_eq; [apply focus_row_boxes |].
    now apply removeCropBox_kept.
  - exact Ha.
  - exact Ha.
  - exact Ha.
  - exact Ha.
  - exact Ha.
  - exact Ha.
  - exact Ha.
  - now apply handleVendorChange_kept.
  - unfold handleMultiUpload. now destruct (Nat.eqb picked 0).
  - apply all_boxes_seed; [apply catalog_seed_kept | exact Ha].
  - destruct Hev as [HW HH].
    apply all_boxes_seed; [now apply screenshot_seed_kept | exact Ha].
  - exact Ha.
  - exact Ha.
  - eapply all_boxes_eq; [apply drawCanvas_boxes | exact Ha].
  - intros i bs. simpl. now rewrite lookup_empty.
Qed.

Lemma run_kept (evs : list Event) (a : App) :
  Forall seedable evs ->
  all_boxes kept_invariant a -> all_boxes kept_invariant (run a evs).
Proof.
  unfold run. revert a. induction evs as [| ev evs IH]; intros a Hevs Ha;
    simpl; [exact Ha |].
  inversion Hevs; subst. apply IH; [assumption |]. now apply step_kept.
Qed.

Lemma initial_kept : all_boxes kept_invariant initial.
Proof. intros i bs. simpl. now rewrite lookup_empty. Qed.

(** *** Bounds *)

Lemma spec_invariant_split (W H : Q) (b : CropBox) :
  spec_invariant W H b <-> kept_invariant b /\ fits W H b.
Proof.
  unfold spec_invariant, kept_invariant, size_ok, origin_ok, fits. tauto.
Qed.

Lemma drag_list_bounds (W H ox oy : Q) (ds : Point) (acid : Z)
  (bs : list CropBox) :
  Forall (spec_invariant W H) bs ->
  Forall (spec_invariant W H) (map (on_box acid (drag_box W H ox oy ds)) bs).
Proof.
  intros Hbs. apply Forall_map_keep; [| exact Hbs]. intros b Hb.
  apply on_box_keep; [| exact Hb]. clear b Hb. intros b Hb.
  apply spec_invariant_split in Hb as [Hk [Hfx Hfy]].
  apply spec_invariant_split. split; [now apply drag_box_kept |].
  destruct Hk as [_ [H0x H0y]]. apply drag_box_fits; lra.
Qed.

Lemma resize_list_bounds (W H ox oy : Q) (ds : Point) (h : Handle)
  (orig : CropBox) (acid : Z) (bs : list CropBox) :
  Forall (spec_invariant W H) bs ->
  Forall (fun b => kept_invariant b
                   /\ (width b <= W -> x b + width b <= W)
                   /\ (height b <= H -> y b + height b <= H))
         (map (on_box acid (resize_box W H ox oy ds h orig)) bs).
Proof.
  intros Hbs. induction Hbs as [| b bs Hb Hbs IH]; simpl; constructor;
    [| exact IH].
  apply spec_invariant_split in Hb as [Hk [Hfx Hfy]].
  unfold on_box. destruct (negb _).
  - split; [exact Hk |]. split; intros _; assumption.
  - split; [now apply resize_box_kept | apply resize_box_fits].
Qed.

Lemma same_id_same_box (bs : list CropBox) (b c : CropBox) :
  NoDup (map id bs) -> In b bs -> In c bs -> id b = id c -> b = c.
Proof.
  induction bs as [| d bs IH]; simpl; [easy |].
  intros Hnd. apply NoDup_cons in Hnd as [Hnotin Hnd].
  intros [-> | Hb] [-> | Hc] Heq.
  - reflexivity.
  - exfalso. apply Hnotin. rewrite Heq. apply list_elem_of_In.
    now apply in_map.
  - exfalso. apply Hnotin. rewrite <- Heq. apply list_elem_of_In.
    now apply in_map.
  - now apply IH.
Qed.

Lemma boxes_of_update (a : App) (i : nat)
  (f : list CropBox -> list CropBox) :
  boxes_of (boxesMap (updateBoxesForIndex a i f)) i
  = f (boxes_of (boxesMap a) i).
Proof.
  unfold updateBoxesForIndex, boxes_of at 1. simpl.
  now rewrite lookup_insert_eq.
Qed.

(** ArrowLeft and ArrowUp keep a box inside the image. *)
Lemma nudge_back_bounds (a : App) (ev : KeyboardEvent) (W H : Q) :
  key ev = "ArrowLeft"%string \/ key ev = "ArrowUp"%string ->
  NoDup (map id (boxes_of (boxesMap a) (activeIdx a))) ->
  Forall (spec_invariant W H) (boxes_of (boxesMap a) (activeIdx a)) ->
  Forall (spec_invariant W H)
         (boxes_of (boxesMap (onKey a ev)) (activeIdx a)).
Proof.
  intros Hkey Hnd Hall. unfold onKey.
  destruct (truthy_id _) as [acid |]; [| exact Hall].
  destruct (find_box _ _) as [cur |] eqn:Hcur; [| exact Hall].
  apply find_box_in in Hcur as [Hin Hid].
  assert (Hstep : 0 <= (if k_shiftKey ev then 10 else 1))
    by (destruct (k_shiftKey ev); lra).
  set (stp := if k_shiftKey ev then 10 else 1) in *.
  assert (Hmap : forall u,
    (forall b, In b (boxes_of (boxesMap a) (activeIdx a)) ->
               id b = acid ->
               spec_invariant W H (apply_updates (selectedVendorId a) b u)) ->
    Forall (spec_invariant W H)
      (boxes_of (boxesMap (updateCropBox a acid u)) (activeIdx a))).
  { intros u Hu. unfold updateCropBox, updateBoxes.
    rewrite boxes_of_update. rewrite Forall_forall in Hall.
    apply Forall_forall. intros b' Hb'. apply list_elem_of_In in Hb'.
    apply in_map_iff in Hb' as (b & <- & Hb).
    destruct (Z.eqb_spec (id b) acid) as [Heq | Hne]; simpl.
    - now apply Hu.
    - apply Hall. now apply list_elem_of_In. }
  unfold key_update.
  destruct Hkey as [-> | ->]; simpl; apply Hmap; intros b Hb Heq;
    rewrite (same_id_same_box _ b cur Hnd Hb Hin) by congruence;
    rewrite Forall_forall in Hall;
    specialize (Hall cur ltac:(now apply list_elem_of_In));
    destruct Hall as (Hw & Hh & Hx & Hxw & Hy & Hyh);
    unfold spec_invariant; simpl; repeat split; try assumption.
  - apply max_floor.
  - assert (Math_max 0 (x cur - stp) <= x cur) by minmax. lra.
  - apply max_floor.
  - assert (Math_max 0 (y cur - stp) <= y cur) by minmax. lra.
Qed.

(** C2, as stated, fails.  Creation ignores the image size: on a
    300 x 200 image the seeded box is 420 wide.  A resize clamps the
    origin only: pulling the west handle of a 950-wide box, grabbed 8px
    inside it, to the left border of a 1000 x 1000 image makes it 1008
    wide.  ArrowRight has no upper clamp: from a box at the right border
    it yields [x + width = 1001]. *)
Lemma box_bounds_claim_fails :
  violates 300 200 opened_300 0
  /\ (Forall (spec_invariant 1000 1000) (boxes_of (boxesMap widened) 0)
      /\ violates 1000 1000 widened_twice 0)
  /\ (Forall (spec_invariant 1000 1000) (boxes_of (boxesMap dragged_right) 0)
      /\ violates 1000 1000
           (step dragged_right (KeyDown (press "ArrowRight" false))) 0).
Proof.
  assert (Hno : forall W H b,
             W < x b + width b -> ~ spec_invariant W H b).
  { intros W H b Hlt (_ & _ & _ & Hle & _). lra. }
  unfold violates.
  repeat match goal with
    | |- context [boxes_of ?m ?i] =>
        let v := eval vm_compute in (boxes_of m i) in
        replace (boxes_of m i) with v by (vm_compute; reflexivity)
    end.
  split; [| split; split].
  - eexists. split; [left; reflexivity |]. apply Hno. reflexivity.
  - repeat constructor; discriminate.
  - eexists. split; [left; reflexivity |]. apply Hno. reflexivity.
  - repeat constructor; discriminate.
  - eexists. split; [left; reflexivity |]. apply Hno. reflexivity.
Qed.

(** C2 (amended): every mutation keeps [width >= 50], [height >= 20],
    [0 <= x] and [0 <= y] for every box of every image, along any sequence
    of events (creation by Add Box and by catalog seeding included, and by
    screenshot seeding for images of at least 112 x 43 pixels).  Of the
    bounds [x + width <= imageWidth] and [y + height <= imageHeight]: a
    drag and the ArrowLeft / ArrowUp nudges preserve them; a resize yields
    [x + width <= imageWidth] whenever the new width does not exceed the
    image width, and likewise for the height; creation does not look at
    the image size: Add Box makes a 400 x 120 box on the diagonal, catalog
    seeding stacks 420 x 120 boxes (one 400 x 120 box when detection
    failed) at [x = 50]. *)
Theorem box_bounds_kept :
  all_boxes kept_invariant initial
  /\ (forall (a : App) (evs : list Event),
        Forall seedable evs ->
        all_boxes kept_invariant a -> all_boxes kept_invariant (run a evs))
  /\ (forall (W H ox oy : Q) (ds : Point) (acid : Z) (bs : list CropBox),
        Forall (spec_invariant W H) bs ->
        Forall (spec_invariant W H)
               (map (on_box acid (drag_box W H ox oy ds)) bs))
  /\ (forall (W H ox oy : Q) (ds : Point) (h : Handle) (orig : CropBox)
             (acid : Z) (bs : list CropBox),
        Forall (spec_invariant W H) bs ->
        Forall (fun b => kept_invariant b
                         /\ (width b <= W -> x b + width b <= W)
                         /\ (height b <= H -> y b + height b <= H))
               (map (on_box acid (resize_box W H ox oy ds h orig)) bs))
  /\ (forall (a : App) (ev : KeyboardEvent) (W H : Q),
        key ev = "ArrowLeft"%string \/ key ev = "ArrowUp"%string ->
        NoDup (map id (boxes_of (boxesMap a) (activeIdx a))) ->
        Forall (spec_invariant W H) (boxes_of (boxesMap a) (activeIdx a)) ->
        Forall (spec_invariant W H)
               (boxes_of (boxesMap (onKey a ev)) (activeIdx a)))
  /\ (forall (md : Mode) (prefix : string) (prev : list CropBox),
        width (new_box md prefix prev) = 400
        /\ height (new_box md prefix prev) = 120
        /\ x (new_box md prefix prev) = y (new_box md prefix prev)
        /\ 70 <= x (new_box md prefix prev))
  /\ (forall (vid : string) (result : option (list string)),
        Forall (fun b => x b = 50 /\ 50 <= y b /\ height b = 120
                         /\ (width b = 420 \/ width b = 400))
               (catalog_seed vid result)).
Proof.
  split; [apply initial_kept |].
  split; [intros a evs; apply run_kept |].
  split; [apply drag_list_bounds |].
  split; [apply resize_list_bounds |].
  split; [apply nudge_back_bounds |].
  split.
  - intros md prefix prev. repeat split.
    pose proof (max_id_from prev 0 ltac:(lia)) as Hm.
    fold (max_id prev) in Hm.
    assert (Hn : 1 <= inject_Z (or_int (max_id prev) 0 + 1)).
    { apply (inject_Z_le 1). unfold or_int. destruct (Z.eqb _ _); lia. }
    simpl. lra.
  - intros vid [itemNumbers |]; simpl.
    + apply Forall_imap_all. intros i num.
      pose proof (inject_Z_nonneg (Z.of_nat i) ltac:(lia)).
      simpl. repeat split; [nra | now left].
    + repeat constructor; simpl; first [lra | now right].
Qed.

Lemma box_bounds_kept_witness :
  all_boxes kept_invariant
    (run initial
       [Upload 1; MountCanvas 0; CatalogDetected 0 (Some []);
        Draw 0 1000 1000 1;
        MouseDown (at_point 64 64 false) 0;
        MouseMove (at_point 640 64 false) 0;
        MouseUp;
        KeyDown (press "ArrowRight" false)]).
Proof.
  destruct box_bounds_kept as (Hinit & Hrun & _).
  apply Hrun; [| exact Hinit].
  repeat constructor.
Defined.

(** *** Resizing from the top or the left *)

(** C8 fails on the code when the minimum-size clamp binds.  For a
    handle on the top or left side the new width is [max(50, width - dx)]
    and the new height [max(20, height - dy)] of the pre-drag box, while
    the origin is the pre-drag origin moved by the unclamped pointer delta
    and then clamped, [x] to [[0, W - width]] and [y] to [[0, H - height]].
    So the opposite edge stays where it was as long as [width - dx >= 50]
    (resp. [height - dy >= 20]) and the bounds clamp does not bind; once
    the minimum size is reached the origin keeps following the pointer
    and the opposite edge moves with it.  Pulling the west edge of a
    100 x 100 box at (100, 100) by 80px to the right gives a box at
    [x = 180] of width 50: the east edge goes from 200 to 230. *)
Theorem resize_near_side (W H ox oy : Q) (ds : Point) (h : Handle)
  (orig box : CropBox) :
  let dx := ox - px ds in
  let dy := oy - py ds in
  let b' := resize_box W H ox oy ds h orig box in
  (moves_left h = true ->
   width b' = Math_max 50 (width orig - dx)
   /\ x b' = Math_max 0 (Math_min (W - width b') (x orig + dx)))
  /\ (moves_top h = true ->
      height b' = Math_max 20 (height orig - dy)
      /\ y b' = Math_max 0 (Math_min (H - height b') (y orig + dy)))
  /\ (50 <= width b' \/ width b' = width box)
  /\ (20 <= height b' \/ height b' = height box)
  /\ 0 <= x b' /\ 0 <= y b'
  /\ (width b' <= W -> x b' <= W - width b')
  /\ (height b' <= H -> y b' <= H - height b')
  /\ (moves_left h = true ->
      50 <= width orig - dx -> 0 <= x orig + dx -> right_edge orig <= W ->
      right_edge b' == right_edge orig)
  /\ (moves_top h = true ->
      20 <= height orig - dy -> 0 <= y orig + dy -> bottom_edge orig <= H ->
      bottom_edge b' == bottom_edge orig)
  /\ (moves_left h = true ->
      width orig - dx <= 50 -> 0 <= x orig + dx -> x orig + dx + 50 <= W ->
      right_edge b' == right_edge orig + (50 - (width orig - dx)))
  /\ (moves_top h = true ->
      height orig - dy <= 20 -> 0 <= y orig + dy -> y orig + dy + 20 <= H ->
      bottom_edge b' == bottom_edge orig + (20 - (height orig - dy)))
  /\ (right_edge square == 200
      /\ x (resize_box 1000 1000 180 150 west_grab h_w square square) == 180
      /\ width (resize_box 1000 1000 180 150 west_grab h_w square square)
         == 50
      /\ right_edge (resize_box 1000 1000 180 150 west_grab h_w square square)
         == 230).
Proof.
  cbv zeta.
  pose proof (resize_box_fits W H ox oy ds h orig box) as [Hfx Hfy].
  split; [| split]; [| | split; [| split]].
  - destruct h; simpl; intros [=]; split; reflexivity.
  - destruct h; simpl; intros [=]; split; reflexivity.
  - destruct h; simpl; first [left; apply max_floor | right; reflexivity].
  - destruct h; simpl; first [left; apply max_floor | right; reflexivity].
  - split; [destruct h; simpl; apply clamp_nonneg |].
    split; [destruct h; simpl; apply clamp_nonneg |].
    split; [intros Hw; specialize (Hfx Hw); lra |].
    split; [intros Hh; specialize (Hfy Hh); lra |].
    unfold right_edge, bottom_edge.
    split; [| split; [| split; [| split]]];
      try (destruct h; simpl; intros [=] Hmin H0 Hin; minmax).
    vm_compute. repeat split; reflexivity.
Qed.

Lemma resize_near_side_witness :
  right_edge (resize_box 1000 1000 70 150 west_grab h_w square square)
  == right_edge square.
Proof.
  pose proof (resize_near_side 1000 1000 70 150 west_grab h_w square square)
    as Hth.
  cbv zeta in Hth.
  destruct Hth as (_ & _ & _ & _ & _ & _ & _ & _ & Hright & _).
  apply Hright; vm_compute; first [reflexivity | discriminate].
Defined.

(** *** Focus changes *)

(** C9 fails on the code for two of its three cases: the Focus button and
    a pointer-down on another image's canvas change the focused image and
    leave zoom and pan as they are; only the thumbnail handler resets the
    view.  From a state focused on image 0 with zoom 2 and pan (30, 40),
    both actions focus image 1 with zoom 2 and pan (30, 40). *)
Theorem focus_change_keeps_view :
  (forall (a : App) (i : nat),
     activeIdx (focusButton a i) = i
     /\ zoom (focusButton a i) = zoom a
     /\ panOffset (focusButton a i) = panOffset a)
  /\ (forall (a : App) (ev : MouseEvent) (i : nat),
        activeIdx (handleMouseDown a ev i) = i
        /\ zoom (handleMouseDown a ev i) = zoom a
        /\ panOffset (handleMouseDown a ev i) = panOffset a)
  /\ (forall (a : App) (i : nat),
        activeIdx (setActiveByThumb a i) = i
        /\ zoom (setActiveByThumb a i) = 1
        /\ panOffset (setActiveByThumb a i) = origin)
  /\ (activeIdx zoomed_two = 0%nat /\ zoom zoomed_two == 2
      /\ panOffset zoomed_two = {| px := 30; py := 40 |})
  /\ (activeIdx (step zoomed_two (FocusClick 1)) = 1%nat
      /\ zoom (step zoomed_two (FocusClick 1)) == 2
      /\ panOffset (step zoomed_two (FocusClick 1))
         = {| px := 30; py := 40 |})
  /\ (activeIdx (step zoomed_two (MouseDown (at_point 5 5 false) 1)) = 1%nat
      /\ zoom (step zoomed_two (MouseDown (at_point 5 5 false) 1)) == 2
      /\ panOffset (step zoomed_two (MouseDown (at_point 5 5 false) 1))
         = {| px := 30; py := 40 |}).
Proof.
  split; [intros a i; repeat split |].
  split.
  { intros a ev i. unfold handleMouseDown.
    destruct (Nat.eqb_spec (activeIdx a) i) as [<- | Hne]; simpl;
      destruct (canvasRefs a !! _); try (repeat split; reflexivity);
      destruct (find_handle _ _ _) as [[? ?] |];
      try (repeat split; reflexivity);
      destruct (find_body _ _ _); try (repeat split; reflexivity);
      destruct (_ || _); repeat split; reflexivity. }
  split; [intros a i; repeat split |].
  vm_compute. repeat split; reflexivity.
Qed.

End ClientFacts.

(** ** Further properties of the server *)

Module ServerMoreFacts.
Import JS Server ServerSpec ServerMore ServerFacts.
Import ClientFacts.

(** *** Sorting *)

Lemma sort_insert_In {A : Type} (cmp : A -> A -> Q) (a x : A) (l : list A) :
  In x (sort_insert cmp a l) <-> x = a \/ In x l.
Proof.
  induction l as [| b l IH]; simpl; [intuition |].
  destruct (Qle_bool (cmp a b) 0); simpl; [intuition |].
  rewrite IH. intuition.
Qed.

Lemma sort_In {A : Type} (cmp : A -> A -> Q) (x : A) (l : list A) :
  In x (sort cmp l) <-> In x l.
Proof.
  unfold sort. induction l as [| a l IH]; simpl; [reflexivity |].
  rewrite sort_insert_In, IH. intuition.
Qed.

Lemma sort_insert_length {A : Type} (cmp : A -> A -> Q) (a : A) (l : list A) :
  length (sort_insert cmp a l) = S (length l).
Proof.
  induction l as [| b l IH]; simpl; [reflexivity |].
  destruct (Qle_bool (cmp a b) 0); simpl; [reflexivity | now rewrite IH].
Qed.

Lemma sort_length {A : Type} (cmp : A -> A -> Q) (l : list A) :
  length (sort cmp l) = length l.
Proof.
  unfold sort. induction l as [| a l IH]; simpl; [reflexivity |].
  now rewrite sort_insert_length, IH.
Qed.

(** Sorting with [cmp] orders the list by any transitive relation [R]
    that [cmp] decides: [cmp a b <= 0] gives [R a b], otherwise [R b a]. *)
Section SortedBy.
Context {A : Type} (cmp : A -> A -> Q) (R : A -> A -> Prop).
Hypothesis R_trans : forall a b c, R a b -> R b c -> R a c.
Hypothesis cmp_le : forall a b, Qle_bool (cmp a b) 0 = true -> R a b.
Hypothesis cmp_gt : forall a b, Qle_bool (cmp a b) 0 = false -> R b a.

Lemma sort_insert_sorted (a : A) (l : list A) :
  StronglySorted R l -> StronglySorted R (sort_insert cmp a l).
Proof.
  induction 1 as [| b l Hl IH Hb]; simpl.
  - repeat constructor.
  - destruct (Qle_bool (cmp a b) 0) eqn:E.
    + constructor; [now constructor |].
      constructor; [now apply cmp_le |].
      apply cmp_le in E. rewrite List.Forall_forall in Hb |- *.
      intros x Hx. eapply R_trans; eauto.
    + constructor; [exact IH |].
      rewrite List.Forall_forall in Hb |- *. intros x Hx.
      apply sort_insert_In in Hx as [-> | Hx]; [now apply cmp_gt | auto].
Qed.

Lemma sort_sorted (l : list A) : StronglySorted R (sort cmp l).
Proof.
  unfold sort. induction l as [| a l IH]; simpl; [constructor |].
  now apply sort_insert_sorted.
Qed.

End SortedBy.

Lemma sublist_sorted {A : Type} (R : A -> A -> Prop) (l k : list A) :
  sublist l k -> StronglySorted R k -> StronglySorted R l.
Proof.
  induction 1 as [| x l k Hs IH | x l k Hs IH]; intros Hk.
  - constructor.
  - apply StronglySorted_inv in Hk as [Hk Hx].
    constructor; [auto |].
    rewrite List.Forall_forall in Hx |- *. intros y Hy. apply Hx.
    apply list_elem_of_In. eapply elem_of_sublist; [| exact Hs].
    now apply list_elem_of_In.
  - apply StronglySorted_inv in Hk as [Hk _]. auto.
Qed.

Lemma map_sorted {A B : Type} (f : A -> B) (R : B -> B -> Prop)
  (l : list A) :
  StronglySorted (fun a b => R (f a) (f b)) l ->
  StronglySorted R (map f l).
Proof.
  induction 1 as [| a l Hl IH Ha]; simpl; constructor; [exact IH |].
  rewrite List.Forall_forall in Ha |- *. intros y Hy.
  apply in_map_iff in Hy as (x & <- & Hx). auto.
Qed.

(** *** Row deduplication keeps a subsequence *)

Lemma snoc_cases {A : Type} (l : list A) :
  l = [] \/ exists pre last, l = pre ++ [last].
Proof.
  destruct l using rev_ind; [now left | right; eauto].
Qed.

Lemma dedup_step_sublist (gap : Z) (dedup seen : list Candidate)
  (d : Candidate) :
  sublist dedup seen -> sublist (dedup_step gap dedup d) (seen ++ [d]).
Proof.
  intros Hs. destruct (snoc_cases dedup) as [-> | (pre & last & ->)].
  - unfold dedup_step. simpl. now apply (sublist_app [] seen [d] [d]).
  - rewrite dedup_step_snoc.
    assert (Hpre : sublist pre seen).
    { etransitivity; [| exact Hs]. now apply sublist_inserts_r. }
    destruct (leb _ _).
    + destruct (ltb _ _).
      * now apply sublist_app.
      * now apply sublist_inserts_r.
    + change [last; d] with ([last] ++ [d]). rewrite app_assoc.
      now apply sublist_app.
Qed.

Lemma dedup_rows_sublist (gap : Z) (candidates : list Candidate) :
  sublist (dedup_rows gap candidates) candidates.
Proof.
  unfold dedup_rows.
  assert (Hgen : forall l dedup seen,
             sublist dedup seen ->
             sublist (fold_left (dedup_step gap) l dedup) (seen ++ l)).
  { induction l as [| d l IH]; intros dedup seen Hs; simpl.
    - now rewrite app_nil_r.
    - change (d :: l) with ([d] ++ l). rewrite app_assoc.
      apply IH. now apply dedup_step_sublist. }
  apply (Hgen candidates [] []). constructor.
Qed.

Lemma dedup_step_nonempty (gap : Z) (dedup : list Candidate) (d : Candidate) :
  dedup_step gap dedup d <> [].
Proof.
  destruct (snoc_cases dedup) as [-> | (pre & last & ->)].
  - discriminate.
  - rewrite dedup_step_snoc. destruct (leb _ _); now destruct pre.
Qed.

Lemma dedup_rows_nil (gap : Z) (candidates : list Candidate) :
  dedup_rows gap candidates = [] <-> candidates = [].
Proof.
  split; [| now intros ->].
  unfold dedup_rows.
  destruct (snoc_cases candidates) as [-> | (pre & last & ->)]; [easy |].
  rewrite fold_left_app. simpl. intros E.
  now apply dedup_step_nonempty in E.
Qed.

(** *** What PRIMARY returns *)

Lemma presto_post_unfold (imgW imgH : Z) (data : OcrData) :
  presto_post imgW imgH data
  = output (dedup_rows (MERGE_GAP imgH) (presto_candidates imgW imgH data)).
Proof. reflexivity. Qed.

Lemma presto_candidates_In (imgW imgH : Z) (data : OcrData) (c : Candidate) :
  In c (presto_candidates imgW imgH data) <->
  (exists w, In w (words_of data) /\ c = toCandidate (toWord 0 w))
  /\ presto_keep imgW imgH c = true.
Proof.
  unfold presto_candidates. rewrite sort_In, filter_In, map_map, in_map_iff.
  split.
  - intros [(w & <- & Hw) Hk]. eauto.
  - intros [(w & Hw & ->) Hk]. eauto.
Qed.

Lemma presto_kept_In (imgW imgH : Z) (data : OcrData) (c : Candidate) :
  In c (dedup_rows (MERGE_GAP imgH) (presto_candidates imgW imgH data)) ->
  In c (presto_candidates imgW imgH data).
Proof.
  intros Hc. apply list_elem_of_In. apply list_elem_of_In in Hc.
  exact (elem_of_sublist _ _ _ Hc (dedup_rows_sublist _ _)).
Qed.

(** A positive lower bound on [ar] means a positive width and height. *)
Lemma ar_bounds (o : Word) (lo hi : Q) :
  0 < lo -> lo <= ar (toCandidate o) -> ar (toCandidate o) <= hi ->
  0 < ww o /\ 0 < wh o /\ lo * wh o <= ww o <= hi * wh o.
Proof.
  intros Hlo0. unfold toCandidate. cbn [ar]. unfold ltb.
  destruct (Qle_bool (ww o) 0) eqn:E; cbn [negb]; [lra |].
  intros Hlo Hhi.
  assert (Hpos : 0 < ww o).
  { apply Qnot_le_lt. intros Hle. apply Qle_bool_iff in Hle. congruence. }
  destruct (Qeq_dec (wh o) 0) as [Hz | Hz].
  { exfalso. assert (Hq : ww o / wh o == 0).
    { unfold Qdiv. rewrite Hz. unfold Qinv. simpl. ring. }
    lra. }
  assert (Hdiv : ww o / wh o * wh o == ww o).
  { unfold Qdiv. rewrite <- Qmult_assoc, (Qmult_comm (/ wh o)),
      Qmult_inv_r by exact Hz. ring. }
  assert (Hh : 0 < wh o).
  { destruct (Qlt_le_dec 0 (wh o)) as [Hh | Hh]; [exact Hh |]. exfalso.
    assert (Hneg : wh o < 0) by (apply Qle_lteq in Hh as [Hh | Hh]; [exact Hh | easy]).
    nra. }
  split; [exact Hpos |]. split; [exact Hh |]. split; nra.
Qed.

(** Every detection of [detectPresto] is a recognized word that passed the
    filter: its text is 3 to 6 digits, its confidence at least 60, its
    height between 1% and 6% of the image height, its aspect ratio
    between 0.9 and 6, and its center in the left or right 12% of the
    image width. *)
Theorem presto_detections_sound (imgW imgH : Z) (data : OcrData)
  (d : Detection) :
  In d (detections (presto_post imgW imgH data)) ->
  (exists w, In w (words_of data)
             /\ d = toDetection (toCandidate (toWord 0 w))
             /\ presto_keep imgW imgH (toCandidate (toWord 0 w)) = true)
  /\ digits_3_6 (d_text d) = true
  /\ 60 <= d_conf d
  /\ inject_Z imgH * (10 # 1000) <= d_h d <= inject_Z imgH * (6 # 100)
  /\ 0 < d_w d
  /\ (9 # 10) * d_h d <= d_w d <= 6 * d_h d
  /\ (d_x d + d_w d / 2 <= inject_Z imgW * (12 # 100)
      \/ inject_Z imgW * (88 # 100) <= d_x d + d_w d / 2).
Proof.
  rewrite presto_post_unfold. unfold output. simpl. intros Hd.
  apply in_map_iff in Hd as (c & <- & Hc).
  apply presto_kept_In, presto_candidates_In in Hc
    as [(w & Hw & ->) Hk].
  split; [eauto |].
  revert Hk. unfold presto_keep, leb. rewrite !andb_true_iff, orb_true_iff.
  rewrite !Qle_bool_iff.
  intros [[[[[[Hdig Hconf] Hedge] Hmin] Hmax] Harlo] Harhi].
  destruct (ar_bounds (toWord 0 w) presto_MIN_AR presto_MAX_AR
              ltac:(reflexivity) Harlo Harhi) as (Hwpos & _ & Har).
  unfold EDGE_PCT, presto_MIN_CONF, presto_MIN_AR, presto_MAX_AR in *.
  cbn [toDetection toCandidate d_text d_conf d_h d_w d_x word text] in *.
  change (cx (toWord 0 w)) with (wx (toWord 0 w) + ww (toWord 0 w) / 2)
    in Hedge.
  repeat split; try assumption; try tauto.
Qed.

Lemma presto_order_le (a b : Candidate) :
  Qle_bool (presto_order a b) 0 = true -> wy (word a) <= wy (word b).
Proof.
  unfold presto_order, or_num. rewrite Qle_bool_iff.
  destruct (Qeq_bool _ 0) eqn:E; [apply Qeq_bool_iff in E |]; lra.
Qed.

Lemma presto_order_gt (a b : Candidate) :
  Qle_bool (presto_order a b) 0 = false -> wy (word b) <= wy (word a).
Proof.
  unfold presto_order, or_num. intros Hf.
  assert (Hgt : ~ or_num (wy (word a) - wy (word b))
                    (wx (word a) - wx (word b)) <= 0).
  { intros Hle. apply Qle_bool_iff in Hle. unfold or_num in Hle.
    congruence. }
  unfold or_num in Hgt.
  destruct (Qeq_bool _ 0) eqn:E; [apply Qeq_bool_iff in E |]; lra.
Qed.

(** [detectPresto] lists its detections from top to bottom, and
    [itemNumbers] are their texts in the same order. *)
Theorem presto_top_to_bottom (imgW imgH : Z) (data : OcrData) :
  StronglySorted (fun a b => d_y a <= d_y b)
                 (detections (presto_post imgW imgH data))
  /\ itemNumbers (presto_post imgW imgH data)
     = map d_text (detections (presto_post imgW imgH data)).
Proof.
  split; [| reflexivity].
  rewrite presto_post_unfold. unfold output. cbn [detections].
  apply map_sorted. cbn [toDetection d_y].
  apply (sublist_sorted _ _ _ (dedup_rows_sublist _ _)).
  unfold presto_candidates.
  apply (sort_sorted presto_order
           (fun a b => wy (word a) <= wy (word b))).
  - intros a b c. apply Qle_trans.
  - apply presto_order_le.
  - apply presto_order_gt.
Qed.

(** [detectPresto] returns no detection exactly when no recognized word
    passes its filter, and never more detections than passing words. *)
Theorem presto_empty_iff (imgW imgH : Z) (data : OcrData) :
  (detections (presto_post imgW imgH data) = []
   <-> forall w, In w (words_of data) ->
                 presto_keep imgW imgH (toCandidate (toWord 0 w)) = false)
  /\ (itemNumbers (presto_post imgW imgH data) = []
      <-> detections (presto_post imgW imgH data) = [])
  /\ (length (detections (presto_post imgW imgH data))
      <= length (List.filter
                   (fun w => presto_keep imgW imgH (toCandidate (toWord 0 w)))
                   (words_of data)))%nat.
Proof.
  rewrite presto_post_unfold. unfold output. cbn [detections itemNumbers].
  split; [| split].
  - split.
    + intros E. apply map_eq_nil in E. apply dedup_rows_nil in E.
      intros w Hw. destruct (presto_keep _ _ _) eqn:Hk; [| reflexivity].
      exfalso.
      assert (Hin : In (toCandidate (toWord 0 w))
                       (presto_candidates imgW imgH data))
        by (apply presto_candidates_In; eauto).
      rewrite E in Hin. exact Hin.
    + intros Hnone.
      assert (E : presto_candidates imgW imgH data = []).
      { destruct (presto_candidates imgW imgH data) as [| c l] eqn:E;
          [reflexivity |]. exfalso.
        assert (Hin : In c (presto_candidates imgW imgH data))
          by (rewrite E; now left).
        apply presto_candidates_In in Hin as [(w & Hw & ->) Hk].
        rewrite (Hnone w Hw) in Hk. discriminate. }
      rewrite E. reflexivity.
  - split; intros E.
    + apply map_eq_nil in E. exact E.
    + now rewrite E.
  - rewrite length_map.
    etransitivity; [apply sublist_length, dedup_rows_sublist |].
    unfold presto_candidates. rewrite sort_length, map_map.
    clear. induction (words_of data) as [| w l IH]; simpl; [lia |].
    destruct (presto_keep _ _ _); simpl; lia.
Qed.

Lemma presto_detections_sound_witness :
  digits_3_6 (d_text (toDetection (cand_of tall_a))) = true
  /\ 60 <= d_conf (toDetection (cand_of tall_a)).
Proof.
  destruct (presto_detections_sound 1000 2000 (data_of [tall_a; tall_b50])
              (toDetection (cand_of tall_a)))
    as (_ & Hdig & Hconf & _).
  - vm_compute. left. reflexivity.
  - split; [exact Hdig | exact Hconf].
Defined.

(** *** What SECONDARY returns *)

Lemma nurre_post_unfold (fullH : Z) (data : OcrData) :
  nurre_post fullH data
  = output (slice0 3 (sort nurre_order (nurre_candidates fullH data))).
Proof. reflexivity. Qed.

Lemma nurre_order_le (a b : Candidate) :
  Qle_bool (nurre_order a b) 0 = true -> cy (word b) <= cy (word a).
Proof.
  unfold nurre_order. generalize (or_num (wx (word a) - wx (word b))
    (or_num (wh (word b) - wh (word a)) (wconf (word b) - wconf (word a)))).
  intros rest. unfold or_num. rewrite Qle_bool_iff.
  destruct (Qeq_bool _ 0) eqn:E; [apply Qeq_bool_iff in E |]; lra.
Qed.

Lemma nurre_order_gt (a b : Candidate) :
  Qle_bool (nurre_order a b) 0 = false -> cy (word a) <= cy (word b).
Proof.
  unfold nurre_order. generalize (or_num (wx (word a) - wx (word b))
    (or_num (wh (word b) - wh (word a)) (wconf (word b) - wconf (word a)))).
  intros rest Hf.
  assert (Hgt : ~ or_num (cy (word b) - cy (word a)) rest <= 0).
  { intros Hle. apply Qle_bool_iff in Hle. congruence. }
  unfold or_num in Hgt.
  destruct (Qeq_bool _ 0) eqn:E; [apply Qeq_bool_iff in E |]; lra.
Qed.

Lemma toWord_center (baseTop : Q) (w : OcrWord) :
  cy (toWord baseTop w) = wy (toWord baseTop w) + wh (toWord baseTop w) / 2.
Proof. reflexivity. Qed.

Lemma sorted_app_inv {A : Type} (R : A -> A -> Prop) (l1 l2 : list A) :
  StronglySorted R (l1 ++ l2) ->
  forall a b, In a l1 -> In b l2 -> R a b.
Proof.
  induction l1 as [| x l1 IH]; simpl; [easy |].
  intros Hs a b [<- | Ha] Hb.
  - apply StronglySorted_inv in Hs as [_ Hx].
    rewrite List.Forall_forall in Hx. apply Hx, in_or_app. now right.
  - apply StronglySorted_inv in Hs as [Hs _]. eauto.
Qed.

Lemma nurre_sorted (fullH : Z) (data : OcrData) :
  StronglySorted (fun a b => cy (word b) <= cy (word a))
                 (sort nurre_order (nurre_candidates fullH data)).
Proof.
  apply (sort_sorted nurre_order (fun a b => cy (word b) <= cy (word a))).
  - intros a b c Hab Hbc. eapply Qle_trans; eauto.
  - apply nurre_order_le.
  - apply nurre_order_gt.
Qed.

Lemma nurre_candidates_In (fullH : Z) (data : OcrData) (c : Candidate) :
  In c (nurre_candidates fullH data) <->
  (exists w, In w (words_of data)
             /\ c = toCandidate
                      (toWord (inject_Z (fullH - nurre_ROI_H fullH)) w))
  /\ nurre_keep fullH c = true.
Proof.
  unfold nurre_candidates. rewrite filter_In, map_map, in_map_iff.
  split.
  - intros [(w & <- & Hw) Hk]. eauto.
  - intros [(w & Hw & ->) Hk]. eauto.
Qed.

Lemma nurre_kept_In (fullH : Z) (data : OcrData) (c : Candidate) :
  In c (firstn 3 (sort nurre_order (nurre_candidates fullH data))) ->
  In c (nurre_candidates fullH data).
Proof.
  intros Hc. apply (sort_In nurre_order). apply list_elem_of_In.
  apply list_elem_of_In in Hc.
  exact (elem_of_sublist _ _ _ Hc (sublist_take _ 3)).
Qed.

Lemma nurre_post_sound (fullH : Z) (data : OcrData) :
  (length (detections (nurre_post fullH data))
   = Nat.min 3 (length (nurre_candidates fullH data)))
  /\ (forall d, In d (detections (nurre_post fullH data)) ->
        (exists w, In w (words_of data)
           /\ d = toDetection
                    (toCandidate
                       (toWord (inject_Z (fullH - nurre_ROI_H fullH)) w))
           /\ nurre_keep fullH
                (toCandidate
                   (toWord (inject_Z (fullH - nurre_ROI_H fullH)) w)) = true)
        /\ digits_3_6 (d_text d) = true
        /\ 55 <= d_conf d
        /\ inject_Z (nurre_MIN_H fullH) <= d_h d
           <= inject_Z (nurre_MAX_H fullH))
  /\ StronglySorted (fun a b => d_y b + d_h b / 2 <= d_y a + d_h a / 2)
                    (detections (nurre_post fullH data))
  /\ (forall c, In c (nurre_candidates fullH data) ->
        In (toDetection c) (detections (nurre_post fullH data))
        \/ forall d, In d (detections (nurre_post fullH data)) ->
                     cy (word c) <= d_y d + d_h d / 2).
Proof.
  rewrite nurre_post_unfold. unfold output, slice0. cbn [detections].
  assert (Hcenter : forall c,
            In c (nurre_candidates fullH data) ->
            cy (word c) = wy (word c) + wh (word c) / 2).
  { intros c Hc. apply nurre_candidates_In in Hc as [(w & _ & ->) _].
    reflexivity. }
  split; [| split; [| split]].
  - rewrite length_map, length_firstn, sort_length. reflexivity.
  - intros d Hd. apply in_map_iff in Hd as (c & <- & Hc).
    apply nurre_kept_In, nurre_candidates_In in Hc as [(w & Hw & ->) Hk].
    split; [eauto |].
    revert Hk. unfold nurre_keep, leb. rewrite !andb_true_iff.
    rewrite !Qle_bool_iff. unfold nurre_MIN_CONF.
    intros [[[[[Hdig Hconf] Hmin] Hmax] _] _].
    cbn [toDetection d_text d_conf d_h word text toCandidate] in *.
    repeat split; assumption.
  - apply map_sorted. cbn [toDetection d_y d_h].
    pose proof (sublist_sorted _ _ _ (sublist_take _ 3)
                  (nurre_sorted fullH data)) as Hs.
    assert (Hall : forall c,
              In c (firstn 3 (sort nurre_order
                                (nurre_candidates fullH data))) ->
              cy (word c) = wy (word c) + wh (word c) / 2)
      by (intros c Hc; now apply Hcenter, nurre_kept_In).
    revert Hs Hall.
    generalize (firstn 3 (sort nurre_order (nurre_candidates fullH data))).
    induction 1 as [| a l Hl IH Ha]; intros Hall; constructor.
    + apply IH. intros c Hc. apply Hall. now right.
    + rewrite List.Forall_forall in Ha |- *. intros b Hb.
      rewrite <- (Hall a) by now left.
      rewrite <- (Hall b) by now right. now apply Ha.
  - intros c Hc. pose proof (nurre_sorted fullH data) as Hs.
    apply (sort_In nurre_order) in Hc.
    rewrite <- (firstn_skipn 3 (sort _ _)) in Hc, Hs.
    apply in_app_or in Hc as [Hc | Hc].
    + left. now apply in_map.
    + right. intros d Hd. apply in_map_iff in Hd as (k & <- & Hk).
      cbn [toDetection d_y d_h].
      rewrite <- (Hcenter k) by now apply nurre_kept_In.
      exact (sorted_app_inv _ _ _ Hs k c Hk Hc).
Qed.

(** [detectNurreBig] returns at most three detections (three, or all the
    passing words if fewer), each a recognized word of the region that
    passed its filter (3 to 6 digits, confidence at least 55, height
    between [MIN_H] and [MAX_H]), listed from the lowest vertical center
    upwards; a passing word that is left out does not lie lower than any
    detection returned.  [MIN_H] and [MAX_H] are rounded from double
    products: on an image 1750 pixels high [MIN_H] is 31, not the 32 that
    the exact product 31.5 would give, and a word 31 pixels high is
    returned. *)
Theorem nurre_detections_sound (fullH : Z) (data : OcrData) :
  (length (detections (nurre_post fullH data))
   = Nat.min 3 (length (nurre_candidates fullH data)))
  /\ (forall d, In d (detections (nurre_post fullH data)) ->
        (exists w, In w (words_of data)
           /\ d = toDetection
                    (toCandidate
                       (toWord (inject_Z (fullH - nurre_ROI_H fullH)) w))
           /\ nurre_keep fullH
                (toCandidate
                   (toWord (inject_Z (fullH - nurre_ROI_H fullH)) w)) = true)
        /\ digits_3_6 (d_text d) = true
        /\ 55 <= d_conf d
        /\ inject_Z (nurre_MIN_H fullH) <= d_h d
           <= inject_Z (nurre_MAX_H fullH))
  /\ StronglySorted (fun a b => d_y b + d_h b / 2 <= d_y a + d_h a / 2)
                    (detections (nurre_post fullH data))
  /\ (forall c, In c (nurre_candidates fullH data) ->
        In (toDetection c) (detections (nurre_post fullH data))
        \/ forall d, In d (detections (nurre_post fullH data)) ->
                     cy (word c) <= d_y d + d_h d / 2)
  /\ (20 <= nurre_MIN_H fullH)%Z
  /\ nurre_MIN_H 1750 = 31%Z
  /\ Math_round (inject_Z 1750 * (18 # 1000)) = 32%Z
  /\ nurre_MIN_H 2000 = 36%Z /\ nurre_MAX_H 2000 = 240%Z
  /\ map d_h (detections
                (nurre_post 1750
                   (data_of [bbox_word "4321" 10 100 60 131 80])))
     = [31].
Proof.
  destruct (nurre_post_sound fullH data) as (Hlen & Hsound & Hsort & Hrest).
  split; [exact Hlen |]. split; [exact Hsound |].
  split; [exact Hsort |]. split; [exact Hrest |].
  split; [unfold nurre_MIN_H; lia |].
  repeat split; vm_compute; reflexivity.
Qed.

Lemma nurre_detections_sound_witness :
  digits_3_6 (d_text (toDetection (toCandidate
     (toWord (inject_Z (2000 - nurre_ROI_H 2000))
        (bbox_word "4321" 10 100 150 160 80))))) = true.
Proof.
  destruct (nurre_detections_sound 2000
              (data_of [bbox_word "4321" 10 100 150 160 80]))
    as (_ & Hsound & _).
  destruct (Hsound (toDetection (toCandidate
     (toWord (inject_Z (2000 - nurre_ROI_H 2000))
        (bbox_word "4321" 10 100 150 160 80))))) as (_ & Hdig & _).
  - vm_compute. left. reflexivity.
  - exact Hdig.
Defined.

(** *** Strategy dispatch of the detection route *)

Lemma detect_route_loaded (P : Platform) (req : DetectRequest)
  (path : string) (meta : option Z * option Z) (pre : Buffer) :
  file req = Some path ->
  exif_metadata P path = Ok meta ->
  pre_common P path (Z.min 2200 (or_int (nullish (fst meta) 0%Z) 2200))
    = Ok pre ->
  detect_route P req
  = try_catch
      (let! out := run_strategy P (select_strategy req) pre
                     (nullish (fst meta) 0%Z) (nullish (snd meta) 0%Z) in
       Ok (json {| b_detections := detections out;
                   b_itemNumbers := itemNumbers out;
                   b_imageWidth := Some (nullish (fst meta) 0%Z);
                   b_imageHeight := Some (nullish (snd meta) 0%Z);
                   b_strategyUsed := Some (select_strategy req) |}))
      (fun _ => json empty_body).
Proof.
  intros Hf Hm Hp. rewrite (detect_route_file _ _ _ Hf).
  unfold detect_try, bind at 1 2. now rewrite Hm, Hp.
Qed.

(** The fallback to [detectPresto] is taken only when [detectNurreBig]
    returns an empty result.  Any strategy name other than [nurre] runs
    [detectPresto] alone; a non-empty [nurre] result is returned whatever
    [detectPresto] would do; an exception of [detectNurreBig], or of the
    fallback run, turns the whole answer into the short empty one. *)
Theorem strategy_dispatch (P : Platform) (req : DetectRequest)
  (path : string) (meta : option Z * option Z) (pre : Buffer) :
  file req = Some path ->
  exif_metadata P path = Ok meta ->
  pre_common P path (Z.min 2200 (or_int (nullish (fst meta) 0%Z) 2200))
    = Ok pre ->
  let W := nullish (fst meta) 0%Z in
  let H := nullish (snd meta) 0%Z in
  let full out :=
    {| b_detections := detections out; b_itemNumbers := itemNumbers out;
       b_imageWidth := Some W; b_imageHeight := Some H;
       b_strategyUsed := Some (select_strategy req) |} in
  (select_strategy req <> "nurre"%string ->
   (forall out, detectPresto P pre W H = Ok out ->
                body (detect_route P req) = full out)
   /\ (forall m, detectPresto P pre W H = Throw m ->
                 body (detect_route P req) = empty_body))
  /\ (select_strategy req = "nurre"%string ->
      (forall out, detectNurreBig P pre W H = Ok out ->
                   itemNumbers out <> [] ->
                   body (detect_route P req) = full out)
      /\ (forall m, detectNurreBig P pre W H = Throw m ->
                    body (detect_route P req) = empty_body)
      /\ (forall out m, detectNurreBig P pre W H = Ok out ->
                        itemNumbers out = [] ->
                        detectPresto P pre W H = Throw m ->
                        body (detect_route P req) = empty_body)).
Proof.
  intros Hf Hm Hp. cbv zeta.
  rewrite (detect_route_loaded _ _ _ _ _ Hf Hm Hp).
  unfold run_strategy. split.
  - intros Hs. apply String.eqb_neq in Hs. rewrite Hs.
    split; intros ? E; unfold bind; now rewrite E.
  - intros Hs. rewrite Hs. simpl String.eqb. cbv iota.
    split; [| split].
    + intros out E Hne. unfold bind. rewrite E.
      destruct (itemNumbers out) eqn:Ei; [easy |]. simpl. now rewrite Ei.
    + intros m E. unfold bind. now rewrite E.
    + intros out m E Hempty Ep. unfold bind. now rewrite E, Hempty, Ep.
Qed.

Lemma strategy_dispatch_witness :
  body (detect_route sample_platform
          {| file := Some "upload.png"%string;
             query_strategy := Some "tesseract"%string;
             body_strategy := Some "nurre"%string;
             header_strategy := None |})
  = {| b_detections := detections (presto_post 4 3 (data_of (sample_ocr sample)));
       b_itemNumbers := itemNumbers (presto_post 4 3 (data_of (sample_ocr sample)));
       b_imageWidth := Some 4%Z; b_imageHeight := Some 3%Z;
       b_strategyUsed := Some "tesseract"%string |}.
Proof.
  pose proof (strategy_dispatch sample_platform
                {| file := Some "upload.png"%string;
                   query_strategy := Some "tesseract"%string;
                   body_strategy := Some "nurre"%string;
                   header_strategy := None |}
                "upload.png" (Some 4%Z, Some 3%Z) sample
                eq_refl eq_refl eq_refl) as Hd.
  cbv zeta in Hd. destruct Hd as [Hother _].
  destruct (Hother ltac:(discriminate)) as [Hok _].
  apply (Hok (presto_post 4 3 (data_of (sample_ocr sample)))).
  reflexivity.
Defined.

(** *** The output directory *)

(** What one box does to the directory: nothing when it throws, one new
    file under a name that was free when it succeeds. *)
Lemma crop_box_files (P : Platform) (path : string) (W H : Z)
  (wd wd' : World) (c : CropReq) (r : Exn Cropped) :
  crop_box P path W H wd c = (wd', r) ->
  match r with
  | Ok e => files wd !! id e = None
            /\ (exists buf, files wd' = <[id e := buf]> (files wd))
            /\ imageUrl e = "/crops/" +:+ id e
  | Throw _ => files wd' = files wd
  end.
Proof.
  unfold crop_box. destruct (crop_rect P W H c) as [angle rect].
  destruct (rotate_extract _ _ _ _) as [buf | m]; [| now intros [= <- <-]].
  destruct (clean_name P wd c) as [clean wd1] eqn:E.
  pose proof (clean_name_files P wd c) as Hf. rewrite E in Hf. simpl in Hf.
  destruct (write_ok _ _ _ _); intros [= <- <-]; [| exact Hf].
  simpl. rewrite Hf.
  destruct (name_loop_total (files wd) clean) as (j & _ & -> & Hfree & _).
  split; [exact Hfree |]. split; [eauto | reflexivity].
Qed.

Lemma crop_objects_files (P : Platform) (path : string) (W H : Z)
  (crops : list CropReq) (wd : World) :
  let wd' := world_after P path W H wd crops in
  let results := successes (attempts P path W H wd crops) in
  (forall name buf, files wd !! name = Some buf ->
                    files wd' !! name = Some buf)
  /\ NoDup (map id results)
  /\ (forall e, In e results ->
                files wd !! id e = None /\ is_Some (files wd' !! id e)
                /\ imageUrl e = "/crops/" +:+ id e)
  /\ size (files wd') = (size (files wd) + length results)%nat.
Proof.
  revert wd. induction crops as [| c rest IH]; intros wd; cbv zeta.
  - simpl. repeat split; try easy. constructor.
  - cbn [world_after attempts].
    destruct (crop_box P path W H wd c) as [wd1 r] eqn:E.
    pose proof (crop_box_files _ _ _ _ _ _ _ _ E) as Hbox.
    cbn [fst snd successes]. specialize (IH wd1). cbv zeta in IH.
    destruct IH as (Hkeep & Hnd & Hnew & Hsize).
    destruct r as [e | m].
    + destruct Hbox as (Hfree & (buf & Hins) & Hurl).
      assert (He : files wd1 !! id e = Some buf)
        by (rewrite Hins; apply lookup_insert_eq).
      split; [| split; [| split]].
      * intros name b Hb. apply Hkeep. rewrite Hins.
        rewrite lookup_insert_ne; [exact Hb |]. congruence.
      * simpl. apply NoDup_cons. split; [| exact Hnd].
        intros Hin. apply list_elem_of_In, in_map_iff in Hin
          as (e' & Heq & Hin).
        destruct (Hnew e' Hin) as (Hnone & _). congruence.
      * simpl. intros e' [<- | Hin].
        -- split; [exact Hfree |]. split; [| exact Hurl]. eauto.
        -- destruct (Hnew e' Hin) as (Hnone & Hsome & Hu).
           split; [| split; [exact Hsome | exact Hu]].
           rewrite Hins in Hnone.
           apply lookup_insert_None in Hnone. tauto.
      * rewrite Hsize, Hins, map_size_insert_None by exact Hfree.
        simpl. lia.
    + simpl in Hbox |- *. rewrite <- Hbox.
      split; [exact Hkeep |]. split; [exact Hnd |]. split; [| exact Hsize].
      intros e' Hin. now apply Hnew.
Qed.

Lemma objects_no_null (crops pre : list CropReq) (post : list Entry) :
  objects crops <> objects pre ++ entry_null :: post.
Proof.
  intros E. assert (Hin : In entry_null (objects crops))
    by (rewrite E; apply in_elt).
  apply in_map_iff in Hin as (c & Hc & _). discriminate.
Qed.

(** A batch never overwrites or removes a file of the output directory:
    every file that exists before the batch has the same content after
    it, also when a [null] element ends the batch early; when the loop
    runs to its end, as it does on every batch of objects, the names
    returned are pairwise different, were free before the batch and exist
    after it, and the directory has grown by exactly one file per
    returned entry. *)
Theorem crop_never_overwrites (P : Platform) (path : string) (W H : Z)
  (wd : World) (entries : list Entry) :
  (forall name buf,
     files wd !! name = Some buf ->
     files (fst (crop_loop P path W H wd entries)) !! name = Some buf)
  /\ (forall results,
        snd (crop_loop P path W H wd entries) = Ok results ->
        NoDup (map id results)
        /\ (forall e, In e results ->
              files wd !! id e = None
              /\ is_Some (files (fst (crop_loop P path W H wd entries))
                            !! id e)
              /\ imageUrl e = "/crops/" +:+ id e)
        /\ size (files (fst (crop_loop P path W H wd entries)))
           = (size (files wd) + length results)%nat)
  /\ (forall crops, entries = objects crops ->
        exists results, snd (crop_loop P path W H wd entries) = Ok results).
Proof.
  destruct (entries_split entries) as [[crops ->] | (pre & post & ->)].
  - rewrite crop_loop_objects. cbn [fst snd].
    pose proof (crop_objects_files P path W H crops wd) as Hf.
    cbv zeta in Hf. destruct Hf as (Hkeep & Hnd & Hnew & Hsize).
    split; [exact Hkeep |]. split; [| eauto].
    intros results [= <-].
    split; [exact Hnd | split; [exact Hnew | exact Hsize]].
  - rewrite crop_loop_null. cbn [fst snd].
    pose proof (crop_objects_files P path W H pre wd) as Hf.
    cbv zeta in Hf. destruct Hf as (Hkeep & _).
    split; [exact Hkeep |]. split; [discriminate |].
    intros crops E. symmetry in E. now apply objects_no_null in E.
Qed.

Lemma crop_never_overwrites_witness :
  files (fst (crop_loop sample_platform "upload.png" 4 3
                {| files := {[ "AB12.png"%string := [[7%Z]] ]};
                   clock := 5 |}
                (objects [whole_flipped; inner]))) !! "AB12.png"%string
  = Some [[7%Z]].
Proof.
  destruct (crop_never_overwrites sample_platform "upload.png" 4 3
              {| files := {[ "AB12.png"%string := [[7%Z]] ]}; clock := 5 |}
              (objects [whole_flipped; inner])) as (Hkeep & _).
  apply Hkeep. vm_compute. reflexivity.
Defined.

(** *** Answers of the crop route *)




(** *** The extraction rectangle *)



Lemma Math_round_whole (v : Q) (k : Z) : v == inject_Z k -> Math_round v = k.
Proof.
  intros E. unfold Math_round. rewrite E.
  pose proof (Qfloor_le (inject_Z k + (1 # 2))) as Hlo.
  pose proof (Qlt_floor (inject_Z k + (1 # 2))) as Hhi.
  set (f := Qfloor (inject_Z k + (1 # 2))) in *.
  assert (H1 : inject_Z f < inject_Z (k + 1)).
  { rewrite inject_Z_plus. change (inject_Z 1) with 1. lra. }
  assert (H2 : inject_Z k < inject_Z (f + 1)).
  { rewrite inject_Z_plus in Hhi |- *. change (inject_Z 1) with 1 in *.
    lra. }
  rewrite <- Zlt_Qlt in H1, H2. lia.
Qed.

Lemma Math_floor_whole (k : Z) : Math_floor (inject_Z k) = k.
Proof. apply Qfloor_Z. Qed.

(** With [cos theta = 1] and [sin theta = 0] (no rotation, or whole
    turns) the rotated canvas is the image itself, and a box given in
    whole pixels that lies inside the image is extracted exactly. *)
Theorem unrotated_box_exact (P : Platform) (W H xi yi wi hi : Z)
  (rot : option Q) (label : string) :
  Math_cos P (- nullish rot 0 * Math_PI P / 180) == 1 ->
  Math_sin P (- nullish rot 0 * Math_PI P / 180) == 0 ->
  (0 <= xi)%Z -> (0 <= yi)%Z -> (1 <= wi)%Z -> (1 <= hi)%Z ->
  (xi + wi <= W)%Z -> (yi + hi <= H)%Z ->
  canvas_size P W H (pixel_box xi yi wi hi rot label) = (W, H)
  /\ snd (crop_rect P W H (pixel_box xi yi wi hi rot label))
     = {| left := xi; top := yi; r_width := wi; r_height := hi |}.
Proof.
  intros Hc Hs Hx Hy Hw Hh HxW HyH.
  assert (HW : 0 <= inject_Z W) by (apply (inject_Z_le 0); lia).
  assert (HH : 0 <= inject_Z H) by (apply (inject_Z_le 0); lia).
  assert (Hrx : forall px py,
    fst (rotPt P px py (inject_Z W / 2) (inject_Z H / 2)
           (- nullish rot 0 * Math_PI P / 180)) == px).
  { intros px py. unfold rotPt. cbn [fst]. rewrite Hc, Hs. field. }
  assert (Hry : forall px py,
    snd (rotPt P px py (inject_Z W / 2) (inject_Z H / 2)
           (- nullish rot 0 * Math_PI P / 180)) == py).
  { intros px py. unfold rotPt. cbn [snd]. rewrite Hc, Hs. field. }
  assert (Hround : forall v k,
    v == inject_Z k -> Math_round v = k) by apply Math_round_whole.
  unfold crop_rect, canvas_size. cbv zeta.
  cbn [c_rotation c_x c_y c_width c_height pixel_box snd].
  rewrite !Math_floor_whole.
  rewrite (Z.max_r 1 wi), (Z.max_r 1 hi), (Z.max_r 0 xi), (Z.max_r 0 yi)
    by lia.
  unfold min4, max4, Math_min, Math_max.
  repeat match goal with
    | |- context [Math_round ?v] =>
        first
          [ rewrite (Hround v W)
              by (rewrite ?Hrx, ?Hry; minmax)
          | rewrite (Hround v H)
              by (rewrite ?Hrx, ?Hry; minmax)
          | rewrite (Hround v xi)
              by (rewrite ?Hrx, ?Hry; minmax)
          | rewrite (Hround v yi)
              by (rewrite ?Hrx, ?Hry; minmax) ]
    end.
  split; [reflexivity |]. f_equal; lia.
Qed.

Lemma unrotated_box_exact_witness :
  snd (crop_rect sample_platform 4 3 (pixel_box 1 1 2 2 None "in"))
  = {| left := 1; top := 1; r_width := 2; r_height := 2 |}.
Proof.
  apply (unrotated_box_exact sample_platform 4 3 1 1 2 2 None "in");
    vm_compute; first [reflexivity | discriminate].
Defined.

End ServerMoreFacts.

(** ** More properties of the client *)

Module ClientMoreFacts.
Import JS Client ClientSpec ClientMore ClientFacts.

(** *** Box ids *)

Lemma max_id_fold_ge (prev : list CropBox) (m : Z) :
  (m <= fold_left (fun m b => Z.max m (id b)) prev m)%Z
  /\ Forall (fun b => (id b <= fold_left (fun m b => Z.max m (id b)) prev m)%Z)
       prev.
Proof.
  revert m. induction prev as [| b prev IH]; intros m; simpl.
  - split; [lia | constructor].
  - destruct (IH (Z.max m (id b))) as [Hm Hall]. split; [lia |].
    constructor; [lia | exact Hall].
Qed.

Lemma new_box_id (md : Mode) (prefix : string) (prev : list CropBox) :
  (1 <= id (new_box md prefix prev))%Z
  /\ Forall (fun b => (id b < id (new_box md prefix prev))%Z) prev.
Proof.
  destruct (max_id_fold_ge prev 0) as [Hm Hall]. fold (max_id prev) in *.
  assert (Hid : id (new_box md prefix prev) = (max_id prev + 1)%Z).
  { unfold new_box, or_int. cbn [id].
    destruct (Z.eqb_spec (max_id prev) 0) as [-> |]; reflexivity. }
  rewrite Hid. split; [lia |].
  eapply Forall_impl; [exact Hall |]. intros b Hb. simpl in Hb. lia.
Qed.

Lemma ids_ok_nil : ids_ok [].
Proof. split; constructor. Qed.

Lemma ids_ok_map (f : CropBox -> CropBox) (bs : list CropBox) :
  (forall b, id (f b) = id b) -> ids_ok bs -> ids_ok (map f bs).
Proof.
  intros Hf [Hnd Hpos]. split.
  - rewrite map_map. erewrite map_ext; [exact Hnd | exact Hf].
  - apply Forall_map. eapply Forall_impl; [exact Hpos |].
    intros b Hb. simpl. now rewrite Hf.
Qed.

Lemma filter_sublist (p : CropBox -> bool) (bs : list CropBox) :
  sublist (List.filter p bs) bs.
Proof.
  induction bs as [| b bs IH]; simpl; [constructor |].
  destruct (p b); now constructor.
Qed.

Lemma ids_ok_filter (p : CropBox -> bool) (bs : list CropBox) :
  ids_ok bs -> ids_ok (List.filter p bs).
Proof.
  intros [Hnd Hpos]. split.
  - exact (sublist_NoDup _ _ Hnd
             (fmap_sublist id _ _ (filter_sublist p bs))).
  - now apply Forall_filter_keep.
Qed.

Lemma ids_ok_add (md : Mode) (prefix : string) (prev : list CropBox) :
  ids_ok prev -> ids_ok (prev ++ [new_box md prefix prev]).
Proof.
  intros [Hnd Hpos]. destruct (new_box_id md prefix prev) as [H1 Hlt].
  split.
  - rewrite map_app. apply NoDup_app. split; [exact Hnd |].
    split; [| repeat constructor; apply not_elem_of_nil].
    intros i Hi Hnew. cbn [map] in Hnew.
    apply list_elem_of_singleton in Hnew.
    apply list_elem_of_fmap in Hi as (b & -> & Hb).
    rewrite Forall_forall in Hlt. specialize (Hlt b Hb). lia.
  - apply Forall_app. split; [exact Hpos |]. now repeat constructor.
Qed.

Lemma ids_ok_on_box (acid : Z) (f : CropBox -> CropBox)
  (bs : list CropBox) :
  (forall b, id (f b) = id b) -> ids_ok bs -> ids_ok (map (on_box acid f) bs).
Proof.
  intros Hf. apply ids_ok_map. intros b. unfold on_box.
  destruct (negb _); [reflexivity | apply Hf].
Qed.

Lemma ids_ok_catalog (vid : string) (result : option (list string)) :
  ids_ok (catalog_seed vid result)
  /\ map id (catalog_seed vid result)
     = map (fun i => (Z.of_nat i + 1)%Z)
         (seq 0 (length (catalog_seed vid result))).
Proof.
  unfold catalog_seed. destruct result as [itemNumbers |].
  - set (l := if negb _ then _ else _). clearbody l.
    set (f := fun (i : nat) (num : string) => _).
    assert (Hids : map id (imap f l)
                   = map (fun i => (Z.of_nat i + 1)%Z) (seq 0 (length l))).
    { apply list_eq. intros i.
      change (map id (imap f l)) with (id <$> imap f l).
      change (map (fun i => (Z.of_nat i + 1)%Z) (seq 0 (length l)))
        with ((fun i => (Z.of_nat i + 1)%Z) <$> seq 0 (length l)).
      rewrite !list_lookup_fmap, list_lookup_imap.
      destruct (l !! i) as [num |] eqn:E; simpl.
      - apply lookup_lt_Some in E.
        now rewrite lookup_seq_lt by exact E.
      - apply lookup_ge_None in E.
        now rewrite lookup_seq_ge by exact E. }
    rewrite length_imap. split; [| exact Hids]. split.
    + rewrite Hids. apply NoDup_fmap_2_strong; [| apply NoDup_seq].
      intros i j _ _ Hij. lia.
    + apply Forall_imap_all. intros i num. simpl. lia.
  - split; [| reflexivity]. split; repeat constructor.
    + apply not_elem_of_nil.
    + simpl. lia.
Qed.

Lemma ids_ok_screenshot (vid : string) (W H : Z)
  (result : option (list string)) :
  map id (screenshot_seed vid W H result) = [1%Z; 2%Z].
Proof.
  unfold screenshot_seed, screenshot_base.
  destruct result as [itemNumbers |]; [| reflexivity].
  cbn [map imap]. unfold compose.
  repeat match goal with
    | |- context [truthy_str ?o] => destruct (truthy_str o)
    end; reflexivity.
Qed.

Lemma all_lists_eq (Pl : list CropBox -> Prop) (a a' : App) :
  boxesMap a' = boxesMap a -> all_lists Pl a -> all_lists Pl a'.
Proof. unfold all_lists. now intros ->. Qed.

Lemma boxes_of_lists (a : App) (i : nat) :
  all_lists ids_ok a -> ids_ok (boxes_of (boxesMap a) i).
Proof.
  intros Ha. unfold boxes_of.
  destruct (boxesMap a !! i) as [bs |] eqn:E; simpl;
    [eauto | apply ids_ok_nil].
Qed.

Lemma all_lists_seed (Pl : list CropBox -> Prop) (a : App) (i : nat)
  (bs : list CropBox) :
  Pl bs -> all_lists Pl a -> all_lists Pl (seed a i bs).
Proof.
  intros Hbs Ha j bs'. unfold seed. simpl. rewrite lookup_insert.
  destruct (decide (i = j)); [now intros [= <-] | apply Ha].
Qed.

Lemma all_lists_update (a : App) (i : nat)
  (f : list CropBox -> list CropBox) :
  (forall bs, ids_ok bs -> ids_ok (f bs)) ->
  all_lists ids_ok a -> all_lists ids_ok (updateBoxesForIndex a i f).
Proof.
  intros Hf Ha. apply (all_lists_seed ids_ok a i).
  - apply Hf. now apply boxes_of_lists.
  - exact Ha.
Qed.

Lemma resize_box_id (W H ox oy : Q) (ds : Point) (h : Handle)
  (o b : CropBox) : id (resize_box W H ox oy ds h o b) = id b.
Proof. now destruct h. Qed.

Lemma handleMouseMove_ids (a : App) (ev : MouseEvent) (index : nat) :
  all_lists ids_ok a -> all_lists ids_ok (handleMouseMove a ev index).
Proof.
  intros Ha. unfold handleMouseMove.
  destruct (canvasRefs a !! index) as [canvas |]; [| exact Ha].
  destruct (isPanning a && _); [exact Ha |].
  destruct (isResizing a), (truthy_id (activeCropId a)) as [acid |],
    (resizeHandle a) as [h |], (isDragging a);
    try exact Ha;
    try (destruct (resizeStartBoxRef a); [| exact Ha]);
    apply all_lists_update; try exact Ha; intros bs Hbs;
    apply ids_ok_on_box; try exact Hbs; intros b;
    first [apply resize_box_id | reflexivity].
Qed.

Lemma updateCropBox_ids (a : App) (i : Z) (u : Updates) :
  all_lists ids_ok a -> all_lists ids_ok (updateCropBox a i u).
Proof.
  intros Ha. unfold updateCropBox, updateBoxes.
  apply all_lists_update; [| exact Ha]. intros bs Hbs.
  apply ids_ok_map; [| exact Hbs]. intros b.
  now destruct (negb _).
Qed.

Lemma key_update_ids (ev : KeyboardEvent) (k : string) (acid : Z)
  (u : Updates) (st : App) :
  all_lists ids_ok st -> all_lists ids_ok (key_update ev k acid u st).
Proof.
  intros Hst. unfold key_update.
  destruct (String.eqb _ _); [now apply updateCropBox_ids | exact Hst].
Qed.

Lemma removeCropBox_ids (a : App) (i : Z) :
  all_lists ids_ok a -> all_lists ids_ok (removeCropBox a i).
Proof.
  intros Ha. unfold removeCropBox, updateBoxes.
  apply all_lists_update; [| exact Ha]. intros bs Hbs.
  destruct (_ <? _)%nat; [now apply ids_ok_filter | exact Hbs].
Qed.

Lemma onKey_ids (a : App) (ev : KeyboardEvent) :
  all_lists ids_ok a -> all_lists ids_ok (onKey a ev).
Proof.
  intros Ha. unfold onKey.
  destruct (truthy_id _) as [acid |]; [| exact Ha].
  destruct (find_box _ _) as [cur |]; [| exact Ha].
  match goal with
  | |- all_lists _ (if ?c then removeCropBox ?st _ else _) =>
      assert (Hst : all_lists ids_ok st)
        by (repeat apply key_update_ids; exact Ha)
  end.
  destruct (_ && _); [now apply removeCropBox_ids | exact Hst].
Qed.

Lemma handleVendorChange_ids (a : App) (vid : string) :
  all_lists ids_ok a -> all_lists ids_ok (handleVendorChange a vid).
Proof.
  intros Ha. unfold handleVendorChange.
  destruct (getVendorPrefix vid) as [| c p]; [exact Ha |].
  intros i bs. unfold set_boxesMap. cbn [boxesMap]. rewrite lookup_fmap.
  destruct (boxesMap a !! i) as [bs0 |] eqn:E; [| easy].
  intros [= <-]. apply ids_ok_map; [| eauto].
  intros b. unfold reprefix. destruct (itemNumber b); [reflexivity |].
  now destruct (startsWith _ _).
Qed.

Lemma step_ids (a : App) (ev : Event) :
  all_lists ids_ok a -> all_lists ids_ok (step a ev).
Proof.
  intros Ha. destruct ev; simpl; try exact Ha.
  - eapply all_lists_eq; [apply handleMouseDown_boxes | exact Ha].
  - now apply handleMouseMove_ids.
  - now apply onKey_ids.
  - unfold addCropBox. apply all_lists_update; [| exact Ha].
    intros bs Hbs. now apply ids_ok_add.
  - destruct view_index; exact Ha.
  - eapply all_lists_eq; [apply focus_row_boxes |].
    now apply updateCropBox_ids.
  - eapply all_lists_eq; [apply focus_row_boxes |].
    now apply removeCropBox_ids.
  - now apply handleVendorChange_ids.
  - unfold handleMultiUpload. now destruct (Nat.eqb picked 0).
  - apply all_lists_seed; [apply ids_ok_catalog | exact Ha].
  - apply all_lists_seed; [| exact Ha]. split.
    + rewrite ids_ok_screenshot. apply (bool_decide_unpack _). reflexivity.
    + apply Forall_forall. intros b Hb.
      assert (Hin : id b ∈ map id (screenshot_seed (selectedVendorId a)
                                     W H result))
        by (apply list_elem_of_fmap; eauto).
      rewrite ids_ok_screenshot in Hin.
      apply elem_of_cons in Hin as [Hin | Hin]; [lia |].
      apply list_elem_of_singleton in Hin. lia.
  - eapply all_lists_eq; [apply drawCanvas_boxes | exact Ha].
  - intros i bs. simpl. now rewrite lookup_empty.
Qed.

Lemma run_ids (evs : list Event) (a : App) :
  all_lists ids_ok a -> all_lists ids_ok (run a evs).
Proof.
  unfold run. revert a. induction evs as [| ev evs IH]; intros a Ha;
    simpl; [exact Ha |].
  apply IH. now apply step_ids.
Qed.

Lemma initial_ids : all_lists ids_ok initial.
Proof. intros i bs. simpl. now rewrite lookup_empty. Qed.

Lemma reachable_ids (evs : list Event) (i : nat) :
  ids_ok (boxes_of (boxesMap (run initial evs)) i).
Proof. apply boxes_of_lists, run_ids, initial_ids. Qed.

Lemma ids_ok_inj (bs : list CropBox) (b c : CropBox) :
  NoDup (map id bs) -> b ∈ bs -> c ∈ bs -> id b = id c -> b = c.
Proof.
  induction bs as [| d bs IH]; intros Hnd Hb Hc Hid;
    [now apply elem_of_nil in Hb |].
  cbn [map] in Hnd. apply NoDup_cons in Hnd as [Hd Hnd].
  apply elem_of_cons in Hb as [-> | Hb], Hc as [-> | Hc]; auto.
  - exfalso. apply Hd. rewrite Hid. now apply (list_elem_of_fmap_2 id).
  - exfalso. apply Hd. rewrite <- Hid. now apply (list_elem_of_fmap_2 id).
Qed.

(** Along every run of the editor the boxes of an image carry pairwise
    different ids, all of them at least 1: a selection ([activeCropId])
    names at most one box of the image, and no box has the id 0 that
    the handlers read as no selection. *)
Theorem box_ids_unique (evs : list Event) (i : nat) :
  let bs := boxes_of (boxesMap (run initial evs)) i in
  NoDup (map id bs)
  /\ Forall (fun b => (1 <= id b)%Z) bs
  /\ (forall b c, In b bs -> In c bs -> id b = id c -> b = c)
  /\ (forall b, In b bs -> truthy_id (Some (id b)) = Some (id b)).
Proof.
  cbv zeta. destruct (reachable_ids evs i) as [Hnd Hpos].
  split; [exact Hnd |]. split; [exact Hpos |]. split.
  - intros b c Hb Hc. apply (ids_ok_inj _ b c Hnd);
      now apply list_elem_of_In.
  - intros b Hb. rewrite Forall_forall in Hpos.
    specialize (Hpos b ltac:(now apply list_elem_of_In)).
    unfold truthy_id. destruct (id b); [lia | reflexivity | reflexivity].
Qed.

(** *** Removing a box *)

Lemma filter_id_absent (bs : list CropBox) (i : Z) :
  (forall b, b ∈ bs -> id b <> i) ->
  List.filter (fun b => negb (Z.eqb (id b) i)) bs = bs.
Proof.
  induction bs as [| b bs IH]; intros Hne; simpl; [reflexivity |].
  destruct (Z.eqb_spec (id b) i) as [He | _]; simpl.
  - exfalso. apply (Hne b); [apply list_elem_of_here | exact He].
  - f_equal. apply IH. intros c Hc. apply Hne. now apply list_elem_of_further.
Qed.

Lemma filter_id_length (bs : list CropBox) (i : Z) :
  NoDup (map id bs) ->
  (exists b, b ∈ bs /\ id b = i) ->
  S (length (List.filter (fun b => negb (Z.eqb (id b) i)) bs)) = length bs.
Proof.
  induction bs as [| b bs IH]; intros Hnd [c [Hc Hid]];
    [now apply elem_of_nil in Hc |].
  cbn [map] in Hnd. apply NoDup_cons in Hnd as [Hb Hnd]. simpl.
  destruct (Z.eqb_spec (id b) i) as [He | Hn]; simpl.
  - rewrite filter_id_absent; [reflexivity |].
    intros d Hd Hdi. apply Hb. rewrite He, <- Hdi.
    now apply (list_elem_of_fmap_2 id).
  - f_equal. apply IH; [exact Hnd |].
    apply elem_of_cons in Hc as [-> | Hc]; [contradiction | eauto].
Qed.

Lemma filter_id_length_le (bs : list CropBox) (i : Z) :
  NoDup (map id bs) ->
  (length bs <= S (length (List.filter (fun b => negb (Z.eqb (id b) i)) bs)))%nat.
Proof.
  induction bs as [| b bs IH]; intros Hnd; simpl; [lia |].
  cbn [map] in Hnd. apply NoDup_cons in Hnd as [Hb Hnd].
  destruct (Z.eqb_spec (id b) i) as [He | Hn]; simpl.
  - rewrite filter_id_absent; [lia |].
    intros d Hd Hdi. apply Hb. rewrite He, <- Hdi.
    now apply (list_elem_of_fmap_2 id).
  - specialize (IH Hnd). lia.
Qed.

Lemma boxes_of_update_ne (a : App) (i j : nat)
  (f : list CropBox -> list CropBox) :
  j <> i ->
  boxes_of (boxesMap (updateBoxesForIndex a i f)) j
  = boxes_of (boxesMap a) j.
Proof.
  intros Hne. unfold updateBoxesForIndex, boxes_of. simpl.
  now rewrite lookup_insert_ne by congruence.
Qed.

(** The Remove button and the Delete key on any state the editor can
    reach: the focused image never loses its last box; when it holds more
    than one box and one of them has the id, exactly that box goes; the
    boxes left are the old ones with another id; an image with a single
    box and every other image are left as they are. *)
Theorem remove_box_effect (evs : list Event) (i : Z) :
  let a := run initial evs in
  let before := boxes_of (boxesMap a) (activeIdx a) in
  let after := boxes_of (boxesMap (removeCropBox a i)) (activeIdx a) in
  (before <> [] -> after <> [])
  /\ ((1 < length before)%nat ->
      (exists b, In b before /\ id b = i) ->
      S (length after) = length before)
  /\ ((1 < length before)%nat ->
      forall b, In b after <-> In b before /\ id b <> i)
  /\ ((length before <= 1)%nat -> after = before)
  /\ (forall j, j <> activeIdx a ->
      boxes_of (boxesMap (removeCropBox a i)) j = boxes_of (boxesMap a) j).
Proof.
  cbv zeta. set (a := run initial evs).
  destruct (reachable_ids evs (activeIdx a)) as [Hnd _]. fold a in Hnd.
  unfold removeCropBox, updateBoxes. rewrite boxes_of_update.
  set (before := boxes_of (boxesMap a) (activeIdx a)) in *.
  pose proof (filter_id_length_le before i Hnd) as Hle.
  split; [| split; [| split; [| split]]].
  - intros Hne. destruct (Nat.ltb_spec 1 (length before)) as [Hl | Hl];
      [| exact Hne].
    intros Hnil. rewrite Hnil in Hle. simpl in Hle. lia.
  - intros Hl [b [Hb Hid]].
    destruct (Nat.ltb_spec 1 (length before)) as [_ | Hl']; [| lia].
    apply filter_id_length; [exact Hnd |].
    exists b. split; [now apply list_elem_of_In | exact Hid].
  - intros Hl b.
    destruct (Nat.ltb_spec 1 (length before)) as [_ | Hl']; [| lia].
    rewrite filter_In, negb_true_iff, Z.eqb_neq. reflexivity.
  - intros Hl.
    destruct (Nat.ltb_spec 1 (length before)) as [Hl' | _];
      [lia | reflexivity].
  - intros j Hj. now apply boxes_of_update_ne.
Qed.

(** *** Zoom *)

Lemma quarter_step_one : quarter_step 1.
Proof. exists 4%Z. split; [lia | reflexivity]. Qed.

Lemma quarter_eq (z q : Q) : z == q / 4 <-> z * 4 == q.
Proof.
  split; intros E; [rewrite E; field |].
  rewrite <- E. field.
Qed.

Lemma quarter_step_in (z : Q) :
  quarter_step z -> quarter_step (Math_min 3 (z + (25 # 100))).
Proof.
  intros [k [Hk Hz]]. exists (Z.min 12 (k + 1))%Z. split; [lia |].
  destruct (Z.eq_dec k 12%Z) as [-> | Hne].
  - assert (E : inject_Z (Z.min 12 (12 + 1)) / 4 == 3) by reflexivity.
    assert (Hz' : z == 3) by (rewrite Hz; reflexivity).
    rewrite E. minmax.
  - rewrite Z.min_r by lia. rewrite inject_Z_plus.
    change (inject_Z 1) with 1.
    pose proof (inject_Z_le k 11 ltac:(lia)) as Hq.
    change (inject_Z 11) with 11 in Hq.
    apply quarter_eq in Hz. apply quarter_eq. minmax.
Qed.

Lemma quarter_step_out (z : Q) :
  quarter_step z -> quarter_step (Math_max (5 # 10) (z - (25 # 100))).
Proof.
  intros [k [Hk Hz]]. exists (Z.max 2 (k - 1))%Z. split; [lia |].
  destruct (Z.eq_dec k 2%Z) as [-> | Hne].
  - assert (E : inject_Z (Z.max 2 (2 - 1)) / 4 == 1 # 2) by reflexivity.
    assert (Hz' : z == 1 # 2) by (rewrite Hz; reflexivity).
    rewrite E. minmax.
  - rewrite Z.max_r by lia. unfold Z.sub. rewrite inject_Z_plus.
    change (inject_Z (- (1))%Z) with (- (1)).
    pose proof (inject_Z_le 3 k ltac:(lia)) as Hq.
    change (inject_Z 3) with 3 in Hq.
    apply quarter_eq in Hz. apply quarter_eq. minmax.
Qed.

Lemma handleMouseDown_zoom (a : App) (ev : MouseEvent) (index : nat) :
  zoom (handleMouseDown a ev index) = zoom a.
Proof.
  unfold handleMouseDown.
  destruct (negb _), (canvasRefs a !! index); try reflexivity;
    destruct (find_handle _ _ _) as [[? ?] |]; try reflexivity;
    destruct (find_body _ _ _); try reflexivity;
    destruct (_ || _); reflexivity.
Qed.

Lemma handleMouseMove_zoom (a : App) (ev : MouseEvent) (index : nat) :
  zoom (handleMouseMove a ev index) = zoom a.
Proof.
  unfold handleMouseMove.
  destruct (canvasRefs a !! index) as [canvas |]; [| reflexivity].
  destruct (isPanning a && _); [reflexivity |].
  destruct (isResizing a), (truthy_id (activeCropId a)) as [acid |],
    (resizeHandle a) as [h |], (isDragging a);
    try reflexivity; now destruct (resizeStartBoxRef a).
Qed.

Lemma key_update_zoom (ev : KeyboardEvent) (k : string) (acid : Z)
  (u : Updates) (st : App) : zoom (key_update ev k acid u st) = zoom st.
Proof. unfold key_update. now destruct (String.eqb _ _). Qed.

Lemma onKey_zoom (a : App) (ev : KeyboardEvent) : zoom (onKey a ev) = zoom a.
Proof.
  unfold onKey.
  destruct (truthy_id _) as [acid |]; [| reflexivity].
  destruct (find_box _ _) as [cur |]; [| reflexivity].
  destruct (_ && _); cbn [removeCropBox updateBoxes updateBoxesForIndex
    set_boxesMap zoom]; now rewrite !key_update_zoom.
Qed.

Lemma step_zoom (a : App) (ev : Event) :
  quarter_step (zoom a) -> quarter_step (zoom (step a ev)).
Proof.
  intros Hz. destruct ev; simpl; try exact Hz;
    try apply quarter_step_one.
  - now rewrite handleMouseDown_zoom.
  - now rewrite handleMouseMove_zoom.
  - now rewrite onKey_zoom.
  - now destruct view_index.
  - now destruct view_index.
  - now destruct view_index.
  - now apply quarter_step_in.
  - now apply quarter_step_out.
  - unfold handleVendorChange. now destruct (getVendorPrefix vid).
  - unfold handleMultiUpload. destruct (Nat.eqb picked 0);
      [exact Hz | apply quarter_step_one].
  - unfold drawCanvas. now destruct (canvasRefs a !! index).
Qed.

(** Along every run of the editor the zoom level is one of the quarter
    steps from 0.5 to 3, whatever the order of Zoom in, Zoom out, Reset,
    thumbnail clicks, uploads and Clear All: in particular it stays within
    [0.5, 3]. *)
Theorem zoom_quarter_steps (evs : list Event) :
  let z := zoom (run initial evs) in
  (exists k : Z, (2 <= k <= 12)%Z /\ z == inject_Z k / 4)
  /\ (5 # 10) <= z <= 3.
Proof.
  cbv zeta.
  assert (Hq : quarter_step (zoom (run initial evs))).
  { unfold run. generalize quarter_step_one.
    change 1 with (zoom initial). generalize initial.
    induction evs as [| ev evs IH]; intros a Ha; simpl; [exact Ha |].
    apply IH. now apply step_zoom. }
  split; [exact Hq |]. destruct Hq as [k [Hk Hz]].
  apply quarter_eq in Hz.
  pose proof (inject_Z_le 2 k ltac:(lia)) as H2.
  pose proof (inject_Z_le k 12 ltac:(lia)) as H12.
  change (inject_Z 2) with 2 in H2. change (inject_Z 12) with 12 in H12.
  split; lra.
Qed.

(** *** Vendor prefixes *)

Lemma prefix_nil (s : string) : String.prefix "" s = true.
Proof. now destruct s. Qed.

Lemma prefix_app (p s : string) : String.prefix p (p +:+ s) = true.
Proof.
  induction p as [| c p IH]; [apply prefix_nil |].
  change (String c p +:+ s) with (String c (p +:+ s)). simpl.
  destruct (ascii_dec c c); [exact IH | contradiction].
Qed.

Lemma prefix_refl (p : string) : String.prefix p p = true.
Proof.
  induction p as [| c p IH]; simpl; [reflexivity |].
  destruct (ascii_dec c c); [exact IH | contradiction].
Qed.

Lemma drop_upper_split (n : nat) (s : string) :
  exists u, s = u +:+ drop_upper n s
            /\ (String.length u <= n)%nat
            /\ forall_str is_upper u = true.
Proof.
  revert s. induction n as [| n IH]; intros s.
  - exists ""%string. repeat split; simpl; lia.
  - destruct s as [| c r]; [exists ""%string; repeat split; simpl; lia |].
    simpl. destruct (is_upper c) eqn:Hc.
    + destruct (IH r) as (u & Hu & Hlen & Hup).
      exists (String c u). repeat split; simpl.
      * exact (f_equal (String c) Hu).
      * lia.
      * now rewrite Hc.
    + exists ""%string. repeat split; simpl; lia.
Qed.

Lemma formatItemNumber_starts (n vid : string) :
  startsWith (formatItemNumber n vid) (getVendorPrefix vid) = true.
Proof.
  unfold formatItemNumber, startsWith.
  destruct (getVendorPrefix vid) as [| c p] eqn:E; [apply prefix_nil |].
  destruct (String.prefix (String c p) n) eqn:Hp; [exact Hp |].
  apply prefix_app.
Qed.

(** [formatItemNumber]: the result always starts with the vendor's
    prefix; a label that already does, and any label under a vendor
    without a prefix, is returned as it is; otherwise the prefix is put in
    front of the label less its leading capitals, at most three of them,
    so every character after those is kept; formatting twice is
    formatting once. *)
Theorem formatItemNumber_prefixed (n vid : string) :
  let p := getVendorPrefix vid in
  let r := formatItemNumber n vid in
  startsWith r p = true
  /\ (p = ""%string \/ startsWith n p = true -> r = n)
  /\ (p <> ""%string -> startsWith n p = false ->
      exists u, n = u +:+ drop_upper 3 n
                /\ (String.length u <= 3)%nat
                /\ forall_str is_upper u = true
                /\ r = p +:+ drop_upper 3 n)
  /\ formatItemNumber r vid = r.
Proof.
  cbv zeta. split; [apply formatItemNumber_starts |]. split; [| split].
  - unfold formatItemNumber, startsWith.
    destruct (getVendorPrefix vid) as [| c p]; [reflexivity |].
    intros [Hp | Hp]; [discriminate | now rewrite Hp].
  - intros Hne Hp. destruct (drop_upper_split 3 n) as (u & Hu & Hlen & Hup).
    exists u. repeat split; try assumption.
    unfold formatItemNumber. unfold startsWith in *.
    destruct (getVendorPrefix vid) as [| c p]; [contradiction |].
    now rewrite Hp.
  - pose proof (formatItemNumber_starts n vid) as Hs.
    unfold startsWith in Hs.
    unfold formatItemNumber at 1. unfold startsWith.
    destruct (getVendorPrefix vid) as [| c p]; [reflexivity |].
    now rewrite Hs.
Qed.

Lemma reprefix_label (p : string) (b : CropBox) :
  (itemNumber b = ""%string -> itemNumber (reprefix p b) = ""%string)
  /\ (itemNumber b <> ""%string ->
      startsWith (itemNumber (reprefix p b)) p = true)
  /\ (startsWith (itemNumber b) p = true -> reprefix p b = b).
Proof.
  unfold reprefix. destruct (itemNumber b) as [| c s] eqn:E.
  - repeat split; [now rewrite E | contradiction].
  - destruct (startsWith (String c s) p) eqn:Hs.
    + repeat split; [discriminate | now rewrite E].
    + repeat split; [discriminate | | discriminate].
      intros _. cbn [set_itemNumber itemNumber]. apply prefix_app.
Qed.

Lemma reprefix_rest (p : string) (b : CropBox) :
  set_itemNumber (reprefix p b) (itemNumber b) = b.
Proof.
  unfold reprefix. destruct b as [i bx by0 bw bh s c r f].
  cbn [itemNumber]. destruct s as [| a s]; [reflexivity |].
  now destruct (startsWith _ _).
Qed.

(** Choosing a vendor: the choice is stored; under a vendor with a
    prefix every box of every image keeps its place in the list and
    everything but its label, an empty label stays empty, and every other
    label starts with the prefix afterwards (it is unchanged when it
    already did); under a vendor without a prefix no box changes. *)
Theorem vendor_change_labels (a : App) (vid : string) (i : nat) :
  let p := getVendorPrefix vid in
  let a' := handleVendorChange a vid in
  let bs := boxes_of (boxesMap a) i in
  let bs' := boxes_of (boxesMap a') i in
  selectedVendorId a' = vid
  /\ (p = ""%string -> boxesMap a' = boxesMap a)
  /\ length bs' = length bs
  /\ forall k b, bs !! k = Some b ->
       exists b', bs' !! k = Some b'
         /\ set_itemNumber b' (itemNumber b) = b
         /\ (itemNumber b = ""%string -> itemNumber b' = ""%string)
         /\ (itemNumber b <> ""%string ->
             startsWith (itemNumber b') p = true)
         /\ (startsWith (itemNumber b) p = true -> b' = b).
Proof.
  cbv zeta. unfold handleVendorChange.
  destruct (getVendorPrefix vid) as [| c p] eqn:E.
  - cbn [selectedVendorId boxesMap]. repeat split.
    intros k b Hb. exists b. split; [exact Hb |].
    split; [now destruct b |]. split; [easy |].
    split; [intros _; apply prefix_nil | easy].
  - unfold set_boxesMap. cbn [selectedVendorId boxesMap].
    assert (Hbs : boxes_of (map (reprefix (String c p)) <$> boxesMap a) i
                  = map (reprefix (String c p)) (boxes_of (boxesMap a) i)).
    { unfold boxes_of. rewrite lookup_fmap.
      now destruct (boxesMap a !! i). }
    rewrite Hbs. split; [reflexivity |]. split; [discriminate |].
    split; [apply length_map |].
    intros k b Hb. exists (reprefix (String c p) b).
    split.
    + change (map (reprefix (String c p)) (boxes_of (boxesMap a) i))
        with (reprefix (String c p) <$> boxes_of (boxesMap a) i).
      now rewrite list_lookup_fmap, Hb.
    + split; [apply reprefix_rest | apply reprefix_label].
Qed.

(** *** Seeding *)

Lemma catalog_seed_lookup (vid : string) (l : list string) (k : nat)
  (b : CropBox) :
  catalog_seed vid (Some l) !! k = Some b ->
  id b = (Z.of_nat k + 1)%Z /\ x b = 50
  /\ y b = 50 + inject_Z (Z.of_nat k) * (120 + 10)
  /\ width b = 420 /\ height b = 120
  /\ exists num,
       itemNumber b = or_str (formatItemNumber (or_str num "") vid)
                        (getVendorPrefix vid).
Proof.
  unfold catalog_seed. rewrite list_lookup_imap.
  destruct (_ !! k) as [num |]; [| discriminate].
  intros [= <-]. cbn. repeat split. now exists num.
Qed.

(** The boxes [detectItemNumbersCatalog] seeds from a detection answer:
    one per detected number (one box when there is none), with the ids
    1, 2, ... in list order, stacked top to bottom without overlap (a
    gap of 10 between one box and the next), each with a label that
    starts with the vendor's prefix; a failed detection seeds the single
    default box. *)
Theorem catalog_seed_layout (vid : string) (result : option (list string)) :
  let bs := catalog_seed vid result in
  length bs = match result with
              | Some l => Nat.max 1 (length l)
              | None => 1%nat
              end
  /\ map id bs = map (fun k => (Z.of_nat k + 1)%Z) (seq 0 (length bs))
  /\ Forall (fun b => startsWith (itemNumber b) (getVendorPrefix vid) = true)
       bs
  /\ (forall j k b c, bs !! j = Some b -> bs !! k = Some c ->
        (j < k)%nat -> x b == x c /\ y b + height b + 10 <= y c).
Proof.
  cbv zeta. split; [| split; [apply ids_ok_catalog | split]].
  - unfold catalog_seed. destruct result as [l |]; [| reflexivity].
    rewrite length_imap. destruct l; simpl; lia.
  - destruct result as [l |].
    + apply Forall_lookup. intros k b Hb.
      apply catalog_seed_lookup in Hb as (_ & _ & _ & _ & _ & num & ->).
      pose proof (formatItemNumber_starts (or_str num "") vid) as Hs.
      unfold or_str at 1.
      destruct (formatItemNumber (or_str num "") vid) eqn:Ef;
        [| exact Hs].
      unfold startsWith in *.
      destruct (getVendorPrefix vid); [reflexivity | discriminate].
    + repeat constructor. cbn [itemNumber]. unfold startsWith.
      apply prefix_refl.
  - intros j k b c Hb Hc Hjk. destruct result as [l |].
    + apply catalog_seed_lookup in Hb as (_ & Hxb & Hyb & _ & Hhb & _).
      apply catalog_seed_lookup in Hc as (_ & Hxc & Hyc & _ & _ & _).
      rewrite Hxb, Hxc, Hyb, Hyc, Hhb. split; [reflexivity |].
      pose proof (inject_Z_le (Z.of_nat j + 1) (Z.of_nat k) ltac:(lia))
        as Hle.
      rewrite inject_Z_plus in Hle. change (inject_Z 1) with 1 in Hle.
      lra.
    + destruct j, k; simpl in Hb, Hc; try discriminate; lia.
Qed.

(** *** Pointer gestures *)

Lemma hover_cursor_values (ox oy : Q) (bs : list CropBox) (c0 : string) :
  hover_cursor ox oy bs c0 = "nwse-resize"%string
  \/ hover_cursor ox oy bs c0 = "move"%string
  \/ hover_cursor ox oy bs c0 = c0.
Proof.
  induction bs as [| b bs IH]; simpl; [auto |].
  destruct (in_outer ox oy b); [| exact IH].
  destruct (getResizeHandle ox oy b); [auto |].
  destruct (in_body ox oy b); auto.
Qed.

Lemma idle_move (a : App) (ev : MouseEvent) (i : nat) (c : Canvas) :
  idle a -> canvasRefs a !! i = Some c ->
  exists cur, In cur hover_cursors
    /\ handleMouseMove a ev i
       = set_canvasRefs a (<[i := set_cursor c cur]> (canvasRefs a)).
Proof.
  intros (Hp & Hd & Hr) Hc. unfold handleMouseMove.
  rewrite Hc, Hp, Hr, Hd. cbn [andb].
  match goal with
  | |- context [hover_cursor ?ox ?oy ?bs ?c0] =>
      destruct (hover_cursor_values ox oy bs c0) as [E | [E | E]];
      exists (hover_cursor ox oy bs c0)
  end; (split; [| reflexivity]); rewrite E; unfold hover_cursors;
    try (simpl; now auto).
  destruct (_ && _); simpl; auto.
Qed.

(** While no gesture is in progress (as after every mouse-up), a pointer
    move changes nothing but the cursor style of the canvas it is over:
    boxes, zoom, pan, focus and selection stay, no gesture starts, the
    other canvases are untouched, and a canvas that is not mounted is
    left alone. *)
Theorem hover_changes_cursor_only (a : App) (ev : MouseEvent) (i : nat) :
  idle a ->
  boxesMap (handleMouseMove a ev i) = boxesMap a
  /\ zoom (handleMouseMove a ev i) = zoom a
  /\ panOffset (handleMouseMove a ev i) = panOffset a
  /\ activeIdx (handleMouseMove a ev i) = activeIdx a
  /\ activeCropId (handleMouseMove a ev i) = activeCropId a
  /\ idle (handleMouseMove a ev i)
  /\ (forall j, j <> i ->
        canvasRefs (handleMouseMove a ev i) !! j = canvasRefs a !! j)
  /\ match canvasRefs a !! i with
     | None => handleMouseMove a ev i = a
     | Some c =>
         exists cur, In cur hover_cursors
           /\ canvasRefs (handleMouseMove a ev i) !! i
              = Some (set_cursor c cur)
     end.
Proof.
  intros Hidle. destruct (canvasRefs a !! i) as [c |] eqn:Hc.
  - destruct (idle_move a ev i c Hidle Hc) as (cur & Hcur & ->).
    cbn [set_canvasRefs boxesMap zoom panOffset activeIdx activeCropId
         canvasRefs].
    repeat split; try apply Hidle.
    + intros j Hj. apply lookup_insert_ne. congruence.
    + exists cur. split; [exact Hcur | apply lookup_insert_eq].
  - assert (E : handleMouseMove a ev i = a)
      by (unfold handleMouseMove; now rewrite Hc).
    rewrite E. repeat split; try apply Hidle.
Qed.

Lemma hover_changes_cursor_only_witness :
  boxesMap (handleMouseMove (handleMouseUp opened_1000)
              (at_point 64 64 false) 0) = boxesMap (handleMouseUp opened_1000).
Proof.
  apply (hover_changes_cursor_only (handleMouseUp opened_1000)
           (at_point 64 64 false) 0).
  repeat split.
Defined.

Lemma image_point_focus (a : App) (c : Canvas) (ev : MouseEvent) :
  image_point a c ev (activeIdx a)
  = {| px := (clientX ev - rect_left ev - px (panOffset a))
             / nullish (ds_scale c) 1;
       py := (clientY ev - rect_top ev - py (panOffset a))
             / nullish (ds_scale c) 1 |}.
Proof. unfold image_point. now rewrite Nat.eqb_refl. Qed.

(** Panning the focused image: a press that hits no box, with Shift
    held or at a zoom above 1, starts a pan, and the next move sets the
    pan to the old pan plus the pointer's displacement since the press;
    boxes and zoom stay as they are.  After the button is released a
    further move leaves the pan where it is. *)
Theorem pan_follows_pointer (a : App) (ev1 ev2 ev3 : MouseEvent)
  (canvas : Canvas) :
  canvasRefs a !! activeIdx a = Some canvas ->
  find_handle (px (image_point a canvas ev1 (activeIdx a)))
              (py (image_point a canvas ev1 (activeIdx a)))
              (boxes_of (boxesMap a) (activeIdx a)) = None ->
  find_body (px (image_point a canvas ev1 (activeIdx a)))
            (py (image_point a canvas ev1 (activeIdx a)))
            (boxes_of (boxesMap a) (activeIdx a)) = None ->
  shiftKey ev1 = true \/ 1 < zoom a ->
  let a1 := handleMouseDown a ev1 (activeIdx a) in
  let a2 := handleMouseMove a1 ev2 (activeIdx a) in
  let a3 := handleMouseMove (handleMouseUp a2) ev3 (activeIdx a) in
  isPanning a1 = true
  /\ px (panOffset a2) == px (panOffset a) + (clientX ev2 - clientX ev1)
  /\ py (panOffset a2) == py (panOffset a) + (clientY ev2 - clientY ev1)
  /\ boxesMap a2 = boxesMap a /\ zoom a2 = zoom a
  /\ panOffset a3 = panOffset a2 /\ boxesMap a3 = boxesMap a.
Proof.
  intros Hc Hh Hb Hkey. cbv zeta.
  rewrite image_point_focus in Hh, Hb. cbn [px py] in Hh, Hb.
  assert (Hk : shiftKey ev1 || (true && ltb 1 (zoom a)) = true).
  { destruct Hkey as [-> | Hz]; [reflexivity |].
    apply orb_true_iff. right. unfold ltb. cbn [andb].
    apply negb_true_iff. destruct (Qle_bool (zoom a) 1) eqn:E;
      [| reflexivity].
    apply Qle_bool_iff in E. lra. }
  assert (E1 : handleMouseDown a ev1 (activeIdx a)
               = begin_pan a {| px := clientX ev1 - px (panOffset a);
                                py := clientY ev1 - py (panOffset a) |}).
  { unfold handleMouseDown. rewrite Hc, Nat.eqb_refl. cbn [negb].
    rewrite Hh, Hb, Hk. reflexivity. }
  rewrite E1.
  assert (E2 : handleMouseMove
                 (begin_pan a {| px := clientX ev1 - px (panOffset a);
                                 py := clientY ev1 - py (panOffset a) |})
                 ev2 (activeIdx a)
               = setPanOffset
                   (begin_pan a {| px := clientX ev1 - px (panOffset a);
                                   py := clientY ev1 - py (panOffset a) |})
                   {| px := clientX ev2 - (clientX ev1 - px (panOffset a));
                      py := clientY ev2 - (clientY ev1 - py (panOffset a)) |}).
  { unfold handleMouseMove. cbn [begin_pan canvasRefs isPanning activeIdx
      panStart px py]. rewrite Hc, Nat.eqb_refl. reflexivity. }
  rewrite E2. clear E1 E2.
  set (a2 := setPanOffset _ _).
  assert (Hidle : idle (handleMouseUp a2)) by (repeat split).
  destruct (idle_move (handleMouseUp a2) ev3 (activeIdx a) canvas Hidle Hc)
    as (cur & _ & ->). subst a2.
  cbn [set_canvasRefs setPanOffset begin_pan handleMouseUp panOffset
       boxesMap zoom isPanning px py].
  repeat split; try reflexivity; lra.
Qed.

Lemma pan_follows_pointer_witness :
  isPanning (handleMouseDown opened_1000 (at_point 600 600 true)
               (activeIdx opened_1000)) = true.
Proof.
  apply (pan_follows_pointer opened_1000 (at_point 600 600 true)
           (at_point 610 620 true) (at_point 0 0 false) drawn_1000).
  - vm_compute. reflexivity.
  - vm_compute. reflexivity.
  - vm_compute. reflexivity.
  - left. reflexivity.
Defined.




Lemma lookup_map_box (f : CropBox -> CropBox) (bs : list CropBox)
  (k : nat) (c : CropBox) :
  bs !! k = Some c -> map f bs !! k = Some (f c).
Proof.
  intros Hk. change (map f bs) with (f <$> bs).
  now rewrite list_lookup_fmap, Hk.
Qed.



(** *** Adding, editing and keys *)

Lemma filter_app_box (p : CropBox -> bool) (l k : list CropBox) :
  List.filter p (l ++ k) = List.filter p l ++ List.filter p k.
Proof.
  induction l as [| b l IH]; simpl; [reflexivity |].
  destruct (p b); simpl; now rewrite IH.
Qed.

(** [+ Add Box] appends one box, with an id above every id of the image,
    and leaves the boxes that were there as they are.  Removing the new
    box right away gives the old list back, except on an image that had
    no box: there the removal does nothing, since the last box of an
    image always stays. *)
Theorem add_then_remove (a : App) :
  let i := activeIdx a in
  let prev := boxes_of (boxesMap a) i in
  let nb := new_box (mode a) (getVendorPrefix (selectedVendorId a)) prev in
  let added := addCropBox a None in
  let removed := removeCropBox added (id nb) in
  boxes_of (boxesMap added) i = prev ++ [nb]
  /\ id nb = (max_id prev + 1)%Z
  /\ Forall (fun b => (id b < id nb)%Z) prev
  /\ (prev <> [] -> boxes_of (boxesMap removed) i = prev)
  /\ (prev = [] -> boxes_of (boxesMap removed) i = [nb])
  /\ (forall j, j <> i ->
        boxes_of (boxesMap removed) j = boxes_of (boxesMap a) j).
Proof.
  cbv zeta.
  set (prev := boxes_of (boxesMap a) (activeIdx a)).
  set (nb := new_box (mode a) (getVendorPrefix (selectedVendorId a)) prev).
  set (added := addCropBox a None).
  set (keep := fun bs : list CropBox =>
                 if (1 <? length bs)%nat
                 then List.filter (fun b => negb (Z.eqb (id b) (id nb))) bs
                 else bs).
  assert (Hadd : boxes_of (boxesMap added) (activeIdx a) = prev ++ [nb])
    by exact (boxes_of_update a (activeIdx a) _).
  assert (Hrem : boxes_of (boxesMap (removeCropBox added (id nb)))
                   (activeIdx a)
                 = keep (boxes_of (boxesMap added) (activeIdx a)))
    by exact (boxes_of_update added (activeIdx a) keep).
  assert (Hoth : forall j, j <> activeIdx a ->
            boxes_of (boxesMap (removeCropBox added (id nb))) j
            = boxes_of (boxesMap a) j).
  { intros j Hj.
    transitivity (boxes_of (boxesMap added) j).
    - exact (boxes_of_update_ne added (activeIdx a) j keep Hj).
    - exact (boxes_of_update_ne a (activeIdx a) j _ Hj). }
  destruct (new_box_id (mode a) (getVendorPrefix (selectedVendorId a)) prev)
    as [Hpos Hlt]. fold nb in Hpos, Hlt.
  assert (Hfilter : List.filter (fun b => negb (Z.eqb (id b) (id nb)))
                      (prev ++ [nb]) = prev).
  { rewrite filter_app_box. cbn [List.filter]. rewrite Z.eqb_refl.
    cbn [negb]. rewrite app_nil_r. apply filter_id_absent. intros b Hb.
    rewrite Forall_forall in Hlt. specialize (Hlt b Hb). lia. }
  rewrite Hrem, Hadd. unfold keep.
  split; [reflexivity |]. split.
  { unfold nb, new_box, or_int. cbn [id].
    destruct (Z.eqb_spec (max_id prev) 0) as [-> |]; reflexivity. }
  split; [exact Hlt |]. split; [| split; [| exact Hoth]].
  - intros Hne. rewrite Hfilter, length_app. cbn [length].
    assert (Hl : (1 <? length prev + 1)%nat = true).
    { apply Nat.ltb_lt. destruct prev; [contradiction | simpl; lia]. }
    now rewrite Hl.
  - intros He. rewrite He. reflexivity.
Qed.

Lemma apply_updates_edit (vid : string) (b : CropBox) (ed : Edit) :
  id (apply_updates vid b (edit_updates ed)) = id b
  /\ x (apply_updates vid b (edit_updates ed)) = x b
  /\ y (apply_updates vid b (edit_updates ed)) = y b
  /\ width (apply_updates vid b (edit_updates ed)) = width b
  /\ height (apply_updates vid b (edit_updates ed)) = height b
  /\ color (apply_updates vid b (edit_updates ed)) = color b.
Proof. destruct ed; repeat split. Qed.

(** An edit made in a row of the box list (label, rotation, flip): only
    boxes of the image that was focused when the row was drawn, and with
    the row's box id, can change, also when the row belongs to another
    image of the All view; such a box keeps its id, place, size and
    colour; the number and order of boxes stay; afterwards the row's
    image is focused and the box selected in the All view, while zoom
    and pan are not reset. *)
Theorem row_edit_frame (a : App) (v : option nat) (bid : Z) (ed : Edit) :
  let a' := step a (RowEdit v bid ed) in
  let i := activeIdx a in
  (forall j, j <> i -> boxes_of (boxesMap a') j = boxes_of (boxesMap a) j)
  /\ length (boxes_of (boxesMap a') i) = length (boxes_of (boxesMap a) i)
  /\ (forall k c, boxes_of (boxesMap a) i !! k = Some c ->
        exists c', boxes_of (boxesMap a') i !! k = Some c'
          /\ id c' = id c /\ x c' = x c /\ y c' = y c
          /\ width c' = width c /\ height c' = height c
          /\ color c' = color c
          /\ (id c <> bid -> c' = c))
  /\ activeIdx a' = nullish v (activeIdx a)
  /\ activeCropId a' = match v with
                       | Some _ => Some bid
                       | None => activeCropId a
                       end
  /\ zoom a' = zoom a /\ panOffset a' = panOffset a.
Proof.
  cbv zeta. cbn [step].
  assert (Hb : boxesMap (focus_row (updateCropBox a bid (edit_updates ed))
                           v bid)
               = boxesMap (updateCropBox a bid (edit_updates ed)))
    by apply focus_row_boxes.
  rewrite Hb. unfold updateCropBox, updateBoxes.
  rewrite boxes_of_update.
  split; [intros j Hj; now apply boxes_of_update_ne |].
  split; [apply length_map |]. split.
  - intros k c Hk. eexists. split; [exact (lookup_map_box _ _ _ _ Hk) |].
    cbv beta. destruct (Z.eqb_spec (id c) bid) as [He | Hn]; cbn [negb].
    + destruct (apply_updates_edit (selectedVendorId a) c ed)
        as (H1 & H2 & H3 & H4 & H5 & H6).
      repeat split; try assumption. intros Hne. contradiction.
    + repeat split.
  - destruct v; repeat split.
Qed.

Lemma key_update_skip (ev : KeyboardEvent) (k : string) (acid : Z)
  (u : Updates) (st : App) :
  key ev <> k -> key_update ev k acid u st = st.
Proof.
  intros Hne. unfold key_update.
  now destruct (String.eqb_spec (key ev) k).
Qed.

Lemma same_frame_update (st a : App) (f : list CropBox -> list CropBox) :
  same_frame st a -> same_frame (updateBoxesForIndex st (activeIdx st) f) a.
Proof.
  intros (Hi & Hp & Hs & Hz & Hb). repeat split; try assumption.
  intros j Hj. rewrite <- (Hb j Hj).
  apply boxes_of_update_ne. congruence.
Qed.

Lemma key_update_frame (ev : KeyboardEvent) (k : string) (acid : Z)
  (u : Updates) (st a : App) :
  same_frame st a -> same_frame (key_update ev k acid u st) a.
Proof.
  intros Hst. unfold key_update. destruct (String.eqb _ _); [| exact Hst].
  now apply same_frame_update.
Qed.

(** What the keyboard handler never does: without a selection, or when
    the selected id is not among the boxes of the focused image, or on a
    key other than the arrows, the two brackets, Backspace and Delete,
    the state stays as it is; Backspace and Delete do nothing on an image
    with a single box; and no key changes a box of another image, the
    zoom, the pan, the focus or the selection. *)
Theorem onKey_inert (a : App) (ev : KeyboardEvent) :
  (truthy_id (activeCropId a) = None -> onKey a ev = a)
  /\ (forall acid, truthy_id (activeCropId a) = Some acid ->
        find_box acid (boxes_of (boxesMap a) (activeIdx a)) = None ->
        onKey a ev = a)
  /\ (~ In (key ev) ["ArrowLeft"; "ArrowRight"; "ArrowUp"; "ArrowDown";
                     "["; "]"; "Backspace"; "Delete"]%string ->
      onKey a ev = a)
  /\ (In (key ev) ["Backspace"; "Delete"]%string ->
      (length (boxes_of (boxesMap a) (activeIdx a)) <= 1)%nat ->
      onKey a ev = a)
  /\ (forall j, j <> activeIdx a ->
        boxes_of (boxesMap (onKey a ev)) j = boxes_of (boxesMap a) j)
  /\ zoom (onKey a ev) = zoom a
  /\ panOffset (onKey a ev) = panOffset a
  /\ activeIdx (onKey a ev) = activeIdx a
  /\ activeCropId (onKey a ev) = activeCropId a.
Proof.
  split; [| split; [| split; [| split]]].
  - intros Hn. unfold onKey. now rewrite Hn.
  - intros acid Hs Hf. unfold onKey. now rewrite Hs, Hf.
  - intros Hk. unfold onKey.
    destruct (truthy_id _) as [acid |]; [| reflexivity].
    destruct (find_box _ _) as [cur |]; [| reflexivity].
    cbv zeta.
    rewrite !key_update_skip
      by (intros E; apply Hk; rewrite E; simpl; tauto).
    destruct (String.eqb_spec (key ev) "Backspace") as [E |];
      [exfalso; apply Hk; rewrite E; simpl; tauto |].
    destruct (String.eqb_spec (key ev) "Delete") as [E |];
      [exfalso; apply Hk; rewrite E; simpl; tauto |].
    reflexivity.
  - intros Hk Hlen. unfold onKey.
    destruct (truthy_id _) as [acid |]; [| reflexivity].
    destruct (find_box _ _) as [cur |]; [| reflexivity].
    cbv zeta.
    rewrite !key_update_skip
      by (intros E; rewrite E in Hk; simpl in Hk;
          destruct Hk as [Hk | [Hk | []]]; discriminate).
    destruct (Nat.ltb_spec 1 (length (boxes_of (boxesMap a) (activeIdx a))))
      as [Hl | _]; [lia |].
    now rewrite andb_false_r.
  - assert (Hf : same_frame (onKey a ev) a).
    { unfold onKey.
      destruct (truthy_id _) as [acid |]; [| now repeat split].
      destruct (find_box _ _) as [cur |]; [| now repeat split].
      cbv zeta.
      match goal with
      | |- same_frame (if ?c then removeCropBox ?st _ else _) _ =>
          assert (H6 : same_frame st a)
            by (repeat apply key_update_frame; now repeat split);
          destruct c; [| exact H6]
      end.
      now apply same_frame_update. }
    destruct Hf as (Hi & Hp & Hs & Hz & Hb). now repeat split.
Qed.

(** *** Drawing *)

Lemma fit_base (W H : Q) :
  1 <= W -> 1 <= H ->
  let base := Math_min (Math_min (900 / W) (640 / H)) 1 in
  0 < base /\ base <= 1 /\ W * base <= 900 /\ H * base <= 640
  /\ (base == 1 \/ W * base == 900 \/ H * base == 640).
Proof.
  intros HW HH. cbv zeta.
  assert (E1 : 900 / W * W == 900) by (field; lra).
  assert (E2 : 640 / H * H == 640) by (field; lra).
  assert (P1 : 0 < 900 / W) by (apply Qlt_shift_div_l; lra).
  assert (P2 : 0 < 640 / H) by (apply Qlt_shift_div_l; lra).
  revert E1 E2 P1 P2. generalize (900 / W) (640 / H). intros r1 r2 E1 E2 P1 P2.
  unfold Math_min.
  destruct (Q.min_spec r1 r2) as [[L1 M1] | [L1 M1]];
    destruct (Q.min_spec (Qmin r1 r2) 1) as [[L2 M2] | [L2 M2]];
    rewrite M2; rewrite ?M1 in *;
    (split; [lra |]); (split; [lra |]); (split; [nra |]);
    (split; [nra |]); first [left; lra | right; left; lra | right; right; lra].
Qed.

(** Drawing an image of at least 1 x 1 pixels on its mounted canvas
    stores a positive scale: the zoom (1 for an image that is not
    focused) times the largest factor, at most 1, at which the image
    fits into 900 x 640.  It stores the image's own size as the size the
    pointer handlers clamp against, and leaves the cursor, the boxes and
    the other canvases as they are. *)
Theorem draw_fits_viewport (a : App) (i : nat) (imgW imgH : Z) (dpr : Q)
  (canvas : Canvas) :
  canvasRefs a !! i = Some canvas ->
  (1 <= imgW)%Z -> (1 <= imgH)%Z -> 0 < zoom a ->
  exists c' s,
    canvasRefs (drawCanvas a i imgW imgH dpr) !! i = Some c'
    /\ ds_scale c' = Some s
    /\ 0 < s
    /\ s <= (if Nat.eqb i (activeIdx a) then zoom a else 1)
    /\ inject_Z imgW * s
       <= 900 * (if Nat.eqb i (activeIdx a) then zoom a else 1)
    /\ inject_Z imgH * s
       <= 640 * (if Nat.eqb i (activeIdx a) then zoom a else 1)
    /\ (s == (if Nat.eqb i (activeIdx a) then zoom a else 1)
        \/ inject_Z imgW * s
           == 900 * (if Nat.eqb i (activeIdx a) then zoom a else 1)
        \/ inject_Z imgH * s
           == 640 * (if Nat.eqb i (activeIdx a) then zoom a else 1))
    /\ clamp_width c' = inject_Z imgW
    /\ clamp_height c' = inject_Z imgH
    /\ cursor c' = cursor canvas
    /\ boxesMap (drawCanvas a i imgW imgH dpr) = boxesMap a
    /\ forall j, j <> i ->
         canvasRefs (drawCanvas a i imgW imgH dpr) !! j = canvasRefs a !! j.
Proof.
  intros Hc HW HH Hz. unfold drawCanvas. rewrite Hc. cbv zeta.
  cbn [set_canvasRefs canvasRefs boxesMap].
  eexists _, _. split; [apply lookup_insert_eq |].
  unfold clamp_width, clamp_height. cbn [ds_scale ds_originalWidth
    ds_originalHeight cursor nullish].
  split; [reflexivity |].
  pose proof (inject_Z_le 1 imgW HW) as QW.
  pose proof (inject_Z_le 1 imgH HH) as QH.
  change (inject_Z 1) with 1 in QW, QH.
  destruct (fit_base (inject_Z imgW) (inject_Z imgH) QW QH)
    as (B0 & B1 & BW & BH & Bmax).
  revert B0 B1 BW BH Bmax.
  generalize (Math_min (Math_min (900 / inject_Z imgW)
                                 (640 / inject_Z imgH)) 1).
  intros base B0 B1 BW BH Bmax.
  assert (Hz' : 0 < (if Nat.eqb i (activeIdx a) then zoom a else 1))
    by (destruct (Nat.eqb i (activeIdx a)); [exact Hz | lra]).
  revert Hz'. generalize (if Nat.eqb i (activeIdx a) then zoom a else 1).
  intros z Hz'.
  split; [nra |]. split; [nra |]. split; [nra |]. split; [nra |].
  split.
  { destruct Bmax as [E | [E | E]];
      [left | right; left | right; right]; nra. }
  repeat split.
  intros j Hj. apply lookup_insert_ne. congruence.
Qed.

Lemma draw_fits_viewport_witness :
  exists c' s,
    canvasRefs (drawCanvas (mountCanvas initial 0) 0 1000 1000 1) !! 0%nat
    = Some c'
    /\ ds_scale c' = Some s /\ 0 < s.
Proof.
  destruct (draw_fits_viewport (mountCanvas initial 0) 0 1000 1000 1
              blank_canvas) as (c' & s & H1 & H2 & H3 & _).
  - vm_compute. reflexivity.
  - lia.
  - lia.
  - reflexivity.
  - exists c', s. repeat split; assumption.
Defined.

(** *** Hit testing *)

Lemma find_handle_first (ox oy : Q) (bs : list CropBox) :
  match find_handle ox oy bs with
  | Some (b, h) =>
      exists l1 l2, bs = l1 ++ b :: l2
        /\ in_outer ox oy b = true /\ getResizeHandle ox oy b = Some h
        /\ Forall (fun c => in_outer ox oy c = false
                            \/ getResizeHandle ox oy c = None) l1
  | None =>
      Forall (fun c => in_outer ox oy c = false
                       \/ getResizeHandle ox oy c = None) bs
  end.
Proof.
  induction bs as [| b bs IH]; simpl; [constructor |].
  destruct (in_outer ox oy b) eqn:Ho.
  - destruct (getResizeHandle ox oy b) as [h |] eqn:Hh.
    + exists [], bs. repeat split; [assumption .. | constructor].
    + destruct (find_handle ox oy bs) as [[c h] |].
      * destruct IH as (l1 & l2 & -> & H1 & H2 & H3).
        exists (b :: l1), l2. repeat split; try assumption.
        constructor; [now right | exact H3].
      * constructor; [now right | exact IH].
  - destruct (find_handle ox oy bs) as [[c h] |].
    + destruct IH as (l1 & l2 & -> & H1 & H2 & H3).
      exists (b :: l1), l2. repeat split; try assumption.
      constructor; [now left | exact H3].
    + constructor; [now left | exact IH].
Qed.

Lemma find_body_first (ox oy : Q) (bs : list CropBox) :
  match find_body ox oy bs with
  | Some b =>
      exists l1 l2, bs = l1 ++ b :: l2
        /\ in_body ox oy b = true
        /\ Forall (fun c => in_body ox oy c = false) l1
  | None => Forall (fun c => in_body ox oy c = false) bs
  end.
Proof.
  induction bs as [| b bs IH]; simpl; [constructor |].
  destruct (in_body ox oy b) eqn:Hb.
  - exists [], bs. repeat split; [assumption | constructor].
  - destruct (find_body ox oy bs) as [c |].
    + destruct IH as (l1 & l2 & -> & H1 & H2).
      exists (b :: l1), l2. repeat split; try assumption.
      now constructor.
    + now constructor.
Qed.

(** Which box a press takes: the first box in list order with a handle
    zone under the pointer is resized, even when the pointer is inside
    the body of another box; failing that, the first box in list order
    whose body holds the pointer is dragged; a press that hits neither
    selects nothing.  A press never changes a box, and it focuses the
    image pressed on. *)
Theorem press_takes_first_hit (a : App) (ev : MouseEvent) (i : nat)
  (canvas : Canvas) :
  canvasRefs a !! i = Some canvas ->
  boxesMap (handleMouseDown a ev i) = boxesMap a
  /\ activeIdx (handleMouseDown a ev i) = i
  /\ match find_handle (px (image_point a canvas ev i))
             (py (image_point a canvas ev i)) (boxes_of (boxesMap a) i),
           find_body (px (image_point a canvas ev i))
             (py (image_point a canvas ev i)) (boxes_of (boxesMap a) i)
     with
     | Some (b, h), _ =>
         isResizing (handleMouseDown a ev i) = true
         /\ resizeHandle (handleMouseDown a ev i) = Some h
         /\ resizeStartBoxRef (handleMouseDown a ev i) = Some b
         /\ activeCropId (handleMouseDown a ev i) = Some (id b)
         /\ isDragging (handleMouseDown a ev i) = isDragging a
         /\ exists l1 l2, boxes_of (boxesMap a) i = l1 ++ b :: l2
              /\ Forall (fun c =>
                   in_outer (px (image_point a canvas ev i))
                            (py (image_point a canvas ev i)) c = false
                   \/ getResizeHandle (px (image_point a canvas ev i))
                        (py (image_point a canvas ev i)) c = None) l1
     | None, Some b =>
         isDragging (handleMouseDown a ev i) = true
         /\ activeCropId (handleMouseDown a ev i) = Some (id b)
         /\ isResizing (handleMouseDown a ev i) = isResizing a
         /\ exists l1 l2, boxes_of (boxesMap a) i = l1 ++ b :: l2
              /\ Forall (fun c =>
                   in_body (px (image_point a canvas ev i))
                           (py (image_point a canvas ev i)) c = false) l1
     | None, None =>
         activeCropId (handleMouseDown a ev i) = activeCropId a
         /\ isDragging (handleMouseDown a ev i) = isDragging a
         /\ isResizing (handleMouseDown a ev i) = isResizing a
     end.
Proof.
  intros Hc. split; [apply handleMouseDown_boxes |].
  pose proof (find_handle_first (px (image_point a canvas ev i))
                (py (image_point a canvas ev i)) (boxes_of (boxesMap a) i))
    as Hfh.
  pose proof (find_body_first (px (image_point a canvas ev i))
                (py (image_point a canvas ev i)) (boxes_of (boxesMap a) i))
    as Hfb.
  unfold handleMouseDown. rewrite Hc. cbv zeta.
  unfold image_point in *. cbn [px py] in *.
  set (a1 := if negb (Nat.eqb (activeIdx a) i) then setActiveIdx a i else a).
  assert (Ha1 : activeIdx a1 = i).
  { unfold a1. destruct (Nat.eqb_spec (activeIdx a) i); [assumption |].
    reflexivity. }
  assert (Hs1 : activeCropId a1 = activeCropId a
                /\ isDragging a1 = isDragging a
                /\ isResizing a1 = isResizing a)
    by (unfold a1; now destruct (negb _)).
  destruct Hs1 as (S1 & S2 & S3).
  destruct (find_handle _ _ _) as [[b h] |].
  - destruct Hfh as (l1 & l2 & E & _ & _ & F).
    cbn [begin_resize activeIdx isResizing resizeHandle resizeStartBoxRef
         activeCropId isDragging].
    repeat split; try assumption. now exists l1, l2.
  - destruct (find_body _ _ _) as [b |].
    + destruct Hfb as (l1 & l2 & E & _ & F).
      cbn [begin_drag activeIdx isResizing activeCropId isDragging].
      repeat split; try assumption. now exists l1, l2.
    + destruct (_ || _);
        cbn [begin_pan activeIdx isResizing activeCropId isDragging];
        repeat split; assumption.
Qed.

Lemma press_takes_first_hit_witness :
  boxesMap (handleMouseDown opened_1000 (at_point 64 64 false) 0)
  = boxesMap opened_1000.
Proof.
  apply (press_takes_first_hit opened_1000 (at_point 64 64 false) 0
           drawn_1000).
  vm_compute. reflexivity.
Defined.

(** *** Screenshot seeding *)

Lemma screenshot_base_geometry (vid : string) (W H : Z) :
  (0 <= W)%Z -> (5 <= H)%Z ->
  exists colW padX y0 h0 : Z,
    screenshot_base vid W H
    = map (fun i : Z =>
             {| id := i + 1;
                x := inject_Z (i * colW + padX);
                y := inject_Z y0;
                width := inject_Z (colW - padX * 2);
                height := inject_Z h0;
                itemNumber := getVendorPrefix vid;
                color := pick_color palette2 i;
                rotation := Some 0;
                flipVertical := Some true |})
          [0%Z; 1%Z]
    /\ (0 <= padX)%Z /\ (0 <= colW - padX * 2)%Z /\ (2 * colW <= W)%Z
    /\ (0 <= y0)%Z /\ (0 <= h0)%Z /\ (y0 + h0 <= H)%Z.
Proof.
  intros HW HH. unfold screenshot_base.
  set (colW := Math_floor (inject_Z W / 2)).
  assert (HcolW : (0 <= colW /\ 2 * colW <= W)%Z).
  { unfold colW, Math_floor, Qfloor, Qdiv, Qmult, Qinv, inject_Z. simpl.
    rewrite Z.mul_1_r. split; [apply Z.div_pos; lia |].
    apply Z.mul_div_le. lia. }
  rewrite !Math_round_ratio.
  set (padX := ((colW * 5 * 2 + 100) / (100 * 2))%Z).
  set (topY := ((H * 8 * 2 + 100) / (100 * 2))%Z).
  set (topH := ((H * 60 * 2 + 100) / (100 * 2))%Z).
  set (offY := ((topH * 5 * 2 + 100) / (100 * 2))%Z).
  set (boxH := ((topH * 75 * 2 + 100) / (100 * 2))%Z).
  exists colW, padX, (topY + offY)%Z, boxH.
  split; [reflexivity |].
  pose proof (Z.mul_div_le (colW * 5 * 2 + 100) (100 * 2) ltac:(lia)) as U1.
  pose proof (Z.mul_div_le (H * 8 * 2 + 100) (100 * 2) ltac:(lia)) as U2.
  pose proof (Z.mul_div_le (H * 60 * 2 + 100) (100 * 2) ltac:(lia)) as U3.
  pose proof (Z.mul_div_le (topH * 5 * 2 + 100) (100 * 2) ltac:(lia)) as U4.
  pose proof (Z.mul_div_le (topH * 75 * 2 + 100) (100 * 2) ltac:(lia)) as U5.
  fold padX in U1. fold topY in U2. fold topH in U3. fold offY in U4.
  fold boxH in U5.
  assert (P1 : (0 <= padX)%Z) by (apply Z.div_pos; lia).
  assert (P2 : (0 <= topY)%Z) by (apply Z.div_pos; lia).
  assert (P3 : (0 <= topH)%Z) by (apply Z.div_pos; lia).
  assert (P4 : (0 <= offY)%Z) by (apply Z.div_pos; lia).
  assert (P5 : (0 <= boxH)%Z) by (apply Z.div_pos; lia).
  repeat split; lia.
Qed.

(** The boxes [detectFromScreenshot] seeds on an image at least 5 pixels
    high: always two, with the ids 1 and 2, both marked for the vertical
    flip, of one size and at one height, side by side without overlap,
    and both inside the image.  Their labels start with the vendor's
    prefix, whatever the detection returned. *)
Theorem screenshot_seed_layout (vid : string) (W H : Z)
  (result : option (list string)) :
  (0 <= W)%Z -> (5 <= H)%Z ->
  exists l r,
    screenshot_seed vid W H result = [l; r]
    /\ id l = 1%Z /\ id r = 2%Z
    /\ flipVertical l = Some true /\ flipVertical r = Some true
    /\ y l = y r /\ width l = width r /\ height l = height r
    /\ 0 <= x l /\ 0 <= y l /\ 0 <= width l /\ 0 <= height l
    /\ x l + width l <= x r
    /\ x r + width r <= inject_Z W
    /\ y l + height l <= inject_Z H
    /\ startsWith (itemNumber l) (getVendorPrefix vid) = true
    /\ startsWith (itemNumber r) (getVendorPrefix vid) = true.
Proof.
  intros HW HH.
  destruct (screenshot_base_geometry vid W H HW HH)
    as (colW & padX & y0 & h0 & E & P1 & P2 & P3 & P4 & P5 & P6).
  assert (Hlab : forall (b : CropBox) (o : option string),
            startsWith (itemNumber b) (getVendorPrefix vid) = true ->
            (forall s, o = Some s ->
               startsWith s (getVendorPrefix vid) = true) ->
            startsWith
              (itemNumber match truthy_str o with
                          | Some s => set_itemNumber b s
                          | None => b
                          end) (getVendorPrefix vid) = true).
  { intros b o Hb Ho. unfold truthy_str.
    destruct o as [[| c s] |]; try exact Hb.
    cbn [set_itemNumber itemNumber]. now apply Ho. }
  assert (Hgeo : forall (b : CropBox) (o : option string),
            set_itemNumber match truthy_str o with
                           | Some s => set_itemNumber b s
                           | None => b
                           end (itemNumber b) = b).
  { intros b o. destruct (truthy_str o); now destruct b. }
  unfold screenshot_seed. rewrite E. cbn [map].
  set (bl := {| id := 0 + 1 |}). set (br := {| id := 1 + 1 |}).
  assert (Harith :
    0 <= x bl /\ 0 <= y bl /\ 0 <= width bl /\ 0 <= height bl
    /\ x bl + width bl <= x br
    /\ x br + width br <= inject_Z W
    /\ y bl + height bl <= inject_Z H).
  { unfold bl, br. cbn [x y width height].
    rewrite <- !inject_Z_plus.
    repeat split; first [apply (inject_Z_le 0) | apply inject_Z_le]; lia. }
  destruct result as [itemNumbers |].
  - cbn [imap]. unfold compose.
    set (o0 := (_ !! 0%nat)). set (o1 := (_ !! 1%nat)).
    assert (Ho : forall k s,
              map (fun n => formatItemNumber (or_str n "") vid)
                (slice0 2 itemNumbers) !! k = Some s ->
              startsWith s (getVendorPrefix vid) = true).
    { intros k s Hk.
      change (map (fun n => formatItemNumber (or_str n "") vid)
                (slice0 2 itemNumbers))
        with ((fun n => formatItemNumber (or_str n "") vid)
                <$> slice0 2 itemNumbers) in Hk.
      rewrite list_lookup_fmap in Hk.
      destruct (_ !! k) as [n |]; [| discriminate].
      injection Hk as <-. apply formatItemNumber_starts. }
    pose proof (Hgeo bl o0) as G0. pose proof (Hgeo br o1) as G1.
    pose proof (Hlab bl o0 (prefix_refl _) (Ho 0%nat)) as L0.
    pose proof (Hlab br o1 (prefix_refl _) (Ho 1%nat)) as L1.
    revert G0 G1 L0 L1.
    generalize (match truthy_str o0 with
                | Some s => set_itemNumber bl s
                | None => bl
                end).
    generalize (match truthy_str o1 with
                | Some s => set_itemNumber br s
                | None => br
                end).
    intros r l G0 G1 L0 L1. exists l, r.
    split; [reflexivity |].
    assert (Hl : id l = id bl /\ flipVertical l = flipVertical bl
                 /\ y l = y bl /\ width l = width bl
                 /\ height l = height bl /\ x l = x bl)
      by (rewrite <- G0; now repeat split).
    assert (Hr : id r = id br /\ flipVertical r = flipVertical br
                 /\ y r = y br /\ width r = width br
                 /\ height r = height br /\ x r = x br)
      by (rewrite <- G1; now repeat split).
    destruct Hl as (I1 & I2 & I3 & I4 & I5 & I6).
    destruct Hr as (J1 & J2 & J3 & J4 & J5 & J6).
    rewrite I1, I2, I3, I4, I5, I6, J1, J2, J3, J4, J5, J6.
    repeat split; try apply Harith; try exact L0; exact L1.
  - exists bl, br. split; [reflexivity |].
    repeat split; try apply Harith; apply prefix_refl.
Qed.

Lemma screenshot_seed_layout_witness :
  exists l r, screenshot_seed "1" 1200 800 (Some ["1234"%string]) = [l; r]
              /\ id l = 1%Z /\ id r = 2%Z.
Proof.
  destruct (screenshot_seed_layout "1" 1200 800 (Some ["1234"%string]))
    as (l & r & E & I1 & I2 & _); [lia | lia |].
  exists l, r. repeat split; assumption.
Defined.

End ClientMoreFacts.
